(** * EcoPort: the pickup-request lifecycle of [backend/server.py]

    A shallow embedding of the FastAPI handlers of [backend/server.py] and the
    properties of the pickup lifecycle, the geopricing engine, the driver
    registry and the rating subsystem.

    - Python [float] is an IEEE-754 binary64 number: Rocq's primitive [float],
      with the same [+], [*], [/] and comparisons (NaN included).
    - The [math] module ([sin], [cos], [sqrt], [atan2], [radians]) and the
      power operator on floats are platform code: they are the fields of an
      interface [Math], and each may raise.
    - A MongoDB collection is the list of its documents in insertion order;
      [find_one] returns the first match, [update_one] rewrites the first
      match, [insert_one] appends.
    - A handler is a function from the database to a result and a database.  An
      exception does not undo what was written before it.  A database
      operation always answers: what the handlers do when the database fails
      is not modelled.
    - [uuid.uuid4()] and [datetime.utcnow()] are inputs of a handler, one per
      call site.  A datetime is stored as it is given; the database keeps it
      to the millisecond, so what a reading route returns is compared with
      what a writing route returned up to the times.
    - [serve] is a route up to what its handler returns or raises; [respond]
      adds the rendering of the response as JSON, which refuses a float that
      is NaN or infinite.
    - Handlers are coroutines: [Task] cuts a handler at its awaits, and
      [interleave] runs two tasks on one database. *)

From Stdlib Require Import ZArith List String Ascii Bool Floats Lia.
Import ListNotations.

Set Implicit Arguments.
Set Warnings "-inexact-float".

Local Open Scope string_scope.

(** ** Python values *)

(** [datetime]: a point in time, here its count of microseconds. *)
Definition datetime : Type := Z.

(** What a handler can raise.  [HTTPException] is the handler's own signal;
    FastAPI turns [RequestValidationError] (a body the request model rejects)
    into a 422 and every other exception into a 500. *)
Inductive Exn : Type :=
| HTTPException (status_code : Z) (detail : string)
| RequestValidationError (field : string)
| ValidationError (model : string)
| AttributeError (msg : string)
| TypeError (msg : string)
| KeyError (key : string)
| MathError (msg : string)
| ValueError (msg : string).

Inductive Result (A : Type) : Type :=
| Ok (a : A)
| Raise (e : Exn).

Arguments Ok {A} a.
Arguments Raise {A} e.

Definition is_ok {A : Type} (r : Result A) : bool :=
  match r with Ok _ => true | Raise _ => false end.

(** [d.get(key, default)] on a dict given by its items. *)
Fixpoint dict_get {K V : Type} (eqb : K -> K -> bool) (d : list (K * V)) (key : K) (default : V) : V :=
  match d with
  | [] => default
  | (k, v) :: rest => if eqb k key then v else dict_get eqb rest key default
  end.

(** [x in xs] on a list: membership by [==]. *)
Definition py_in {A : Type} (eqb : A -> A -> bool) (x : A) (xs : list A) : bool :=
  existsb (eqb x) xs.

(** A field of an update model under [dict(exclude_unset=True)]: left out of the
    body, or provided with a value that may be [None]. *)
Inductive Field (A : Type) : Type :=
| Unset
| Provided (v : option A).

Arguments Unset {A}.
Arguments Provided {A} v.

(** ** Enums *)

Module PickupStatus.
Inductive t : Type := PENDING | APPROVED | ASSIGNED | COMPLETED.
Definition value (s : t) : string :=
  match s with
  | PENDING => "Pending"
  | APPROVED => "Approved"
  | ASSIGNED => "Assigned"
  | COMPLETED => "Completed"
  end.
Definition eqb (a b : t) : bool :=
  match a, b with
  | PENDING, PENDING | APPROVED, APPROVED | ASSIGNED, ASSIGNED | COMPLETED, COMPLETED => true
  | _, _ => false
  end.
End PickupStatus.

Module WasteType.
Inductive t : Type := ORGANIC | PLASTIC | METAL | E_WASTE | MIXED.
Definition value (w : t) : string :=
  match w with
  | ORGANIC => "Organic"
  | PLASTIC => "Plastic"
  | METAL => "Metal"
  | E_WASTE => "E-Waste"
  | MIXED => "Mixed"
  end.
End WasteType.

Module Quantity.
Inductive t : Type := SMALL | MEDIUM | LARGE | BULK.
Definition value (q : t) : string :=
  match q with
  | SMALL => "Small"
  | MEDIUM => "Medium"
  | LARGE => "Large"
  | BULK => "Bulk"
  end.
End Quantity.

Module DriverStatus.
Inductive t : Type := AVAILABLE | BUSY | OFFLINE.
Definition value (s : t) : string :=
  match s with
  | AVAILABLE => "Available"
  | BUSY => "Busy"
  | OFFLINE => "Offline"
  end.
Definition eqb (a b : t) : bool :=
  match a, b with
  | AVAILABLE, AVAILABLE | BUSY, BUSY | OFFLINE, OFFLINE => true
  | _, _ => false
  end.
End DriverStatus.

Module PaymentStatus.
Inductive t : Type := PENDING | PAID | FAILED.
End PaymentStatus.

Module PaymentMethod.
Inductive t : Type := COD | UPI | INVOICE.
End PaymentMethod.

(** ** Models *)

Module Location.
Record t : Type := mk { latitude : float; longitude : float; address : string }.
End Location.

Module StatusHistoryEntry.
Record t : Type := mk { status : string; at_ : datetime; by_ : string }.
End StatusHistoryEntry.

Module PriceHistoryEntry.
Record t : Type := mk { actual_cost : float; at_ : datetime; by_ : string }.
End PriceHistoryEntry.

(** The fields of a pickup request.  [PS] is the type of [payment_status]: the
    model [PickupRequest] has a [PaymentStatus] there, the stored document may
    hold [None], which an update that provides [payment_status: null] writes. *)
Module Pickup.
Record t (PS : Type) : Type := mk {
  id : string;
  location : Location.t;
  waste_image : string;
  waste_type : WasteType.t;
  quantity : Quantity.t;
  estimated_cost : float;
  actual_cost : option float;
  distance_km : float;
  status : PickupStatus.t;
  user_contact : option string;
  notes : option string;
  driver_id : option string;
  payment_method : option PaymentMethod.t;
  payment_status : PS;
  status_history : list StatusHistoryEntry.t;
  price_history : list PriceHistoryEntry.t;
  created_at : datetime;
  updated_at : datetime
}.
Arguments mk {PS}.
(** Replace [payment_status], keeping every other field. *)
Definition with_payment_status {PS QS : Type} (ps : QS) (p : t PS) : t QS :=
  mk (id p) (location p) (waste_image p) (waste_type p) (quantity p)
     (estimated_cost p) (actual_cost p) (distance_km p) (status p)
     (user_contact p) (notes p) (driver_id p) (payment_method p) ps
     (status_history p) (price_history p) (created_at p) (updated_at p).
End Pickup.

(** A document of [db.pickup_requests]. *)
Definition PickupDoc : Type := Pickup.t (option PaymentStatus.t).

Module PickupRequest.
Definition t : Type := Pickup.t PaymentStatus.t.
(** [pickup.dict()] *)
Definition dict (p : t) : PickupDoc :=
  Pickup.with_payment_status (Some (Pickup.payment_status p)) p.
(** The constructor [PickupRequest] applied to the fields of a stored
    document: [payment_status] is not Optional, so [None] there fails
    validation. *)
Definition parse (doc : PickupDoc) : Result t :=
  match Pickup.payment_status doc with
  | Some ps => Ok (Pickup.with_payment_status ps doc)
  | None => Raise (ValidationError "PickupRequest")
  end.
End PickupRequest.

Module PickupRequestCreate.
Record t : Type := mk {
  location : Location.t;
  waste_image : string;
  waste_type : WasteType.t;
  quantity : Quantity.t;
  user_contact : option string;
  notes : option string;
  payment_method : option PaymentMethod.t
}.
(** [validate_image_size]: [max_size = 2.67 * 1024 * 1024] is 2799697.92, and
    an integer length exceeds it exactly when it exceeds 2799697. *)
Definition validate_image_size (v : string) : Result string :=
  if (2799697 <? Z.of_nat (String.length v))%Z
  then Raise (RequestValidationError "waste_image")
  else Ok v.
Definition validate (body : t) : Result t :=
  match validate_image_size (waste_image body) with
  | Ok _ => Ok body
  | Raise e => Raise e
  end.
End PickupRequestCreate.

Module PickupRequestUpdate.
Record t : Type := mk {
  status : Field PickupStatus.t;
  actual_cost : Field float;
  notes : Field string;
  payment_status : Field PaymentStatus.t
}.
End PickupRequestUpdate.

Module Driver.
Record t : Type := mk {
  id : string;
  name : string;
  phone : string;
  vehicle_type : string;
  vehicle_number : string;
  status : DriverStatus.t;
  current_location : option Location.t;
  created_at : datetime
}.
Definition with_status (s : DriverStatus.t) (d : t) : t :=
  mk (id d) (name d) (phone d) (vehicle_type d) (vehicle_number d) s
     (current_location d) (created_at d).
End Driver.

Module DriverCreate.
Record t : Type := mk {
  name : string;
  phone : string;
  vehicle_type : string;
  vehicle_number : string
}.
End DriverCreate.

Module RatingCreate.
Record t : Type := mk { pickup_id : string; rating : Z; feedback : option string }.
(** [rating: int = Field(ge=1, le=5)] *)
Definition validate (body : t) : Result t :=
  if ((1 <=? rating body) && (rating body <=? 5))%Z
  then Ok body
  else Raise (RequestValidationError "rating").
End RatingCreate.

Module Rating.
Record t : Type := mk {
  id : string;
  pickup_id : string;
  rating : Z;
  feedback : option string;
  created_at : datetime
}.
(** The constructor [Rating] applied to the fields of [rating.dict()], with a
    fresh [id] and [created_at]. *)
Definition create (uid : string) (now : datetime) (r : RatingCreate.t) : Result t :=
  if ((1 <=? RatingCreate.rating r) && (RatingCreate.rating r <=? 5))%Z
  then Ok (mk uid (RatingCreate.pickup_id r) (RatingCreate.rating r) (RatingCreate.feedback r) now)
  else Raise (ValidationError "Rating").
End Rating.

Module AdminUser.
Record t : Type := mk { username : string; role : string }.
End AdminUser.

(** ** Floats *)

Local Open Scope float_scope.

(** The integer nearest to [num / den], ties to even, for [0 < den]. *)
Definition round_half_even (num den : Z) : Z :=
  let q := (num / den)%Z in
  let r := (num mod den)%Z in
  match (2 * r ?= den)%Z with
  | Lt => q
  | Gt => (q + 1)%Z
  | Eq => if Z.even q then q else (q + 1)%Z
  end.

(** The integer nearest to [m * 2^e * scale], ties to even. *)
Definition scaled_nearest (scale : Z) (m : positive) (e : Z) : Z :=
  if (0 <=? e)%Z then (Z.pos m * 2 ^ e * scale)%Z
  else round_half_even (Z.pos m * scale) (2 ^ (- e)).

(** [round(x, ndigits)] on a float, for [0 <= ndigits]: CPython rounds the exact
    binary value of [x] to [ndigits] decimals, ties to even, and converts the
    decimal back to the nearest double.  NaN, the infinities and the zeros are
    returned as they are, and a result of zero keeps the sign of [x]. *)
Definition py_round (x : float) (ndigits : N) : float :=
  let scale := (10 ^ Z.of_N ndigits)%Z in
  match Prim2SF x with
  | S754_finite s m e =>
      match scaled_nearest scale m e with
      | Z.pos n =>
          SF2Prim (SFdiv prec emax (S754_finite s n 0) (S754_finite false (Z.to_pos scale) 0))
      | _ => SF2Prim (S754_zero s)
      end
  | _ => x
  end.

(** The [math] module and [**] on floats, as the handlers use them. *)
Record Math : Type := {
  radians : float -> Result float;
  sin : float -> Result float;
  cos : float -> Result float;
  sqrt : float -> Result float;
  atan2 : float -> float -> Result float;
  pow : float -> float -> Result float
}.

(** Sequencing of computations that may raise. *)
Definition bindR {A B : Type} (r : Result A) (k : A -> Result B) : Result B :=
  match r with
  | Ok a => k a
  | Raise e => Raise e
  end.

Notation "'let?' x ':=' r 'in' k" := (bindR r (fun x => k))
  (at level 10, x name, r at level 100, k at level 200).

(** ** Configuration and pricing tables *)

(** The values read from the environment at start-up. *)
Record Settings : Type := {
  SERVICE_CENTER_LAT : float;
  SERVICE_CENTER_LNG : float;
  SERVICE_RADIUS_KM : float
}.

Definition default_settings : Settings :=
  {| SERVICE_CENTER_LAT := 26.7271; SERVICE_CENTER_LNG := 88.3953; SERVICE_RADIUS_KM := 20 |}.

(** [RATE_PER_KM] and [BASE_RATE] are ints that only occur as operands of float
    arithmetic, where Python converts them exactly. *)
Definition RATE_PER_KM : float := 10.
Definition BASE_RATE : float := 50.

Definition VOLUME_FACTORS : list (string * float) :=
  [("Small", 1.0); ("Medium", 1.5); ("Large", 2.0); ("Bulk", 3.0)].

Definition WASTE_SURCHARGES : list (string * float) :=
  [("Organic", 1.0); ("Plastic", 1.0); ("Metal", 1.0); ("E-Waste", 1.2); ("Mixed", 1.1)].

(** ** Utilities *)

Definition haversine_distance (math : Math) (lat1 lon1 lat2 lon2 : float) : Result float :=
  let R := 6371 in
  let? lat1_rad := radians math lat1 in
  let? lat2_rad := radians math lat2 in
  let? delta_lat := radians math (lat2 - lat1) in
  let? delta_lon := radians math (lon2 - lon1) in
  let? s1 := sin math (delta_lat / 2) in
  let? s1_sq := pow math s1 2 in
  let? c1 := cos math lat1_rad in
  let? c2 := cos math lat2_rad in
  let? s2 := sin math (delta_lon / 2) in
  let? s2_sq := pow math s2 2 in
  let a := s1_sq + c1 * c2 * s2_sq in
  let? ra := sqrt math a in
  let? rb := sqrt math (1 - a) in
  let? at2 := atan2 math ra rb in
  let c := 2 * at2 in
  Ok (R * c).

Definition calculate_cost (distance_km : float) (quantity : string) (waste_type : string) : float :=
  let volume_factor := dict_get String.eqb VOLUME_FACTORS quantity 1.0 in
  let surcharge := dict_get String.eqb WASTE_SURCHARGES waste_type 1.0 in
  let total := ((distance_km * RATE_PER_KM) + (volume_factor * BASE_RATE)) * surcharge in
  py_round total 2.

(** ** The database *)

Record DB : Type := {
  pickup_requests : list PickupDoc;
  drivers : list Driver.t;
  ratings : list Rating.t
}.

Definition empty_db : DB := {| pickup_requests := []; drivers := []; ratings := [] |}.

(** A handler: the database goes in, a result and the database come out. *)
Definition M (A : Type) : Type := DB -> Result A * DB.

Definition ret {A : Type} (a : A) : M A := fun db => (Ok a, db).

Definition raise {A : Type} (e : Exn) : M A := fun db => (Raise e, db).

Definition bind {A B : Type} (c : M A) (k : A -> M B) : M B :=
  fun db =>
    match c db with
    | (Ok a, db') => k a db'
    | (Raise e, db') => (Raise e, db')
    end.

Definition lift {A : Type} (r : Result A) : M A := fun db => (r, db).

Notation "x <- c ;; k" := (bind c (fun x => k))
  (at level 61, c at next level, right associativity).
Notation "c ;;; k" := (bind c (fun _ => k))
  (at level 61, right associativity).

(** Collections. *)
Definition find_one {A : Type} (filter : A -> bool) (coll : list A) : option A :=
  List.find filter coll.

Fixpoint update_one {A : Type} (filter : A -> bool) (set : A -> A) (coll : list A) : list A :=
  match coll with
  | [] => []
  | d :: rest => if filter d then set d :: rest else d :: update_one filter set rest
  end.

Definition insert_one {A : Type} (doc : A) (coll : list A) : list A := coll ++ [doc].

Definition pickup_id_is (request_id : string) (doc : PickupDoc) : bool :=
  String.eqb (Pickup.id doc) request_id.

Definition driver_id_is (driver_id : string) (doc : Driver.t) : bool :=
  String.eqb (Driver.id doc) driver_id.

Definition rating_pickup_id_is (pickup_id : string) (doc : Rating.t) : bool :=
  String.eqb (Rating.pickup_id doc) pickup_id.

(** The [$set] document of an update of [db.pickup_requests]: a field that is
    [Some] is written, the others are left as they are. *)
Module PickupSet.
Record t : Type := mk {
  status : option PickupStatus.t;
  actual_cost : option (option float);
  notes : option (option string);
  payment_status : option (option PaymentStatus.t);
  driver_id : option (option string);
  status_history : option (list StatusHistoryEntry.t);
  price_history : option (list PriceHistoryEntry.t);
  updated_at : option datetime
}.
Definition or_keep {A : Type} (new : option A) (old : A) : A :=
  match new with Some v => v | None => old end.
Definition apply (s : t) (d : PickupDoc) : PickupDoc :=
  Pickup.mk (Pickup.id d) (Pickup.location d) (Pickup.waste_image d)
    (Pickup.waste_type d) (Pickup.quantity d) (Pickup.estimated_cost d)
    (or_keep (actual_cost s) (Pickup.actual_cost d))
    (Pickup.distance_km d)
    (or_keep (status s) (Pickup.status d))
    (Pickup.user_contact d)
    (or_keep (notes s) (Pickup.notes d))
    (or_keep (driver_id s) (Pickup.driver_id d))
    (Pickup.payment_method d)
    (or_keep (payment_status s) (Pickup.payment_status d))
    (or_keep (status_history s) (Pickup.status_history d))
    (or_keep (price_history s) (Pickup.price_history d))
    (Pickup.created_at d)
    (or_keep (updated_at s) (Pickup.updated_at d)).
End PickupSet.

(** [db.pickup_requests], [db.drivers] and [db.ratings]. *)
Definition pickup_requests_find_one (filter : PickupDoc -> bool) : M (option PickupDoc) :=
  fun db => (Ok (find_one filter (pickup_requests db)), db).

Definition pickup_requests_insert_one (doc : PickupDoc) : M unit :=
  fun db => (Ok tt, {| pickup_requests := insert_one doc (pickup_requests db);
                       drivers := drivers db; ratings := ratings db |}).

Definition pickup_requests_update_one (filter : PickupDoc -> bool) (set : PickupSet.t) : M unit :=
  fun db => (Ok tt, {| pickup_requests := update_one filter (PickupSet.apply set) (pickup_requests db);
                       drivers := drivers db; ratings := ratings db |}).

Definition drivers_find_one (filter : Driver.t -> bool) : M (option Driver.t) :=
  fun db => (Ok (find_one filter (drivers db)), db).

Definition drivers_insert_one (doc : Driver.t) : M unit :=
  fun db => (Ok tt, {| pickup_requests := pickup_requests db;
                       drivers := insert_one doc (drivers db); ratings := ratings db |}).

Definition drivers_update_one (filter : Driver.t -> bool) (set : Driver.t -> Driver.t) : M unit :=
  fun db => (Ok tt, {| pickup_requests := pickup_requests db;
                       drivers := update_one filter set (drivers db); ratings := ratings db |}).

Definition ratings_find_one (filter : Rating.t -> bool) : M (option Rating.t) :=
  fun db => (Ok (find_one filter (ratings db)), db).

Definition ratings_insert_one (doc : Rating.t) : M unit :=
  fun db => (Ok tt, {| pickup_requests := pickup_requests db;
                       drivers := drivers db; ratings := insert_one doc (ratings db) |}).

(** The constructor [PickupRequest] applied to what [find_one] returned. *)
Definition PickupRequest_of_found (found : option PickupDoc) : Result PickupRequest.t :=
  match found with
  | Some doc => PickupRequest.parse doc
  | None => Raise (TypeError "argument after ** must be a mapping, not NoneType")
  end.

Definition Driver_of_found (found : option Driver.t) : Result Driver.t :=
  match found with
  | Some doc => Ok doc
  | None => Raise (TypeError "argument after ** must be a mapping, not NoneType")
  end.

(** ** Authentication *)

(** The decoded claims of a token. *)
Definition Payload : Type := list (string * string).

(** [HTTPBearer] and [jwt.decode] are library code: [security] yields the
    bearer credentials of a request from its Authorization header or raises,
    [verify_jwt_token] yields the claims of a token that verifies. *)
Record Auth : Type := {
  security : option string -> Result string;
  verify_jwt_token : string -> option Payload
}.

Fixpoint payload_get (key : string) (payload : Payload) : option string :=
  match payload with
  | [] => None
  | (k, v) :: rest => if String.eqb k key then Some v else payload_get key rest
  end.

Definition get_current_admin (auth : Auth) (authorization : option string) : Result AdminUser.t :=
  let? token := security auth authorization in
  match verify_jwt_token auth token with
  | None | Some [] => Raise (HTTPException 401 "Invalid or expired token")
  | Some payload =>
      match payload_get "sub" payload with
      | Some sub => Ok (AdminUser.mk sub "admin")
      | None => Raise (KeyError "sub")
      end
  end.

(** ** Pickup request routes *)

Definition out_of_service_area_detail : string :=
  "Currently we serve Siliguri city limits only. Your location is outside our service area.".

Definition create_pickup_request (math : Math) (cfg : Settings)
    (uid : string) (t_entry t_created t_updated : datetime)
    (request : PickupRequestCreate.t) : M PickupRequest.t :=
  distance_km <- lift (haversine_distance math
                         (SERVICE_CENTER_LAT cfg) (SERVICE_CENTER_LNG cfg)
                         (Location.latitude (PickupRequestCreate.location request))
                         (Location.longitude (PickupRequestCreate.location request))) ;;
  if SERVICE_RADIUS_KM cfg <? distance_km
  then raise (HTTPException 400 out_of_service_area_detail)
  else
    let estimated_cost :=
      calculate_cost distance_km
        (Quantity.value (PickupRequestCreate.quantity request))
        (WasteType.value (PickupRequestCreate.waste_type request)) in
    let pickup : PickupRequest.t :=
      {| Pickup.id := uid;
         Pickup.location := PickupRequestCreate.location request;
         Pickup.waste_image := PickupRequestCreate.waste_image request;
         Pickup.waste_type := PickupRequestCreate.waste_type request;
         Pickup.quantity := PickupRequestCreate.quantity request;
         Pickup.estimated_cost := estimated_cost;
         Pickup.actual_cost := None;
         Pickup.distance_km := py_round distance_km 2;
         Pickup.status := PickupStatus.PENDING;
         Pickup.user_contact := PickupRequestCreate.user_contact request;
         Pickup.notes := PickupRequestCreate.notes request;
         Pickup.driver_id := None;
         Pickup.payment_method := PickupRequestCreate.payment_method request;
         Pickup.payment_status := PaymentStatus.PENDING;
         Pickup.status_history :=
           [StatusHistoryEntry.mk (PickupStatus.value PickupStatus.PENDING) t_entry "user"];
         Pickup.price_history := [];
         Pickup.created_at := t_created;
         Pickup.updated_at := t_updated |} in
    pickup_requests_insert_one (PickupRequest.dict pickup) ;;;
    ret pickup.

Definition valid_transitions : list (PickupStatus.t * list PickupStatus.t) :=
  [(PickupStatus.PENDING, [PickupStatus.APPROVED]);
   (PickupStatus.APPROVED, [PickupStatus.ASSIGNED]);
   (PickupStatus.ASSIGNED, [PickupStatus.COMPLETED]);
   (PickupStatus.COMPLETED, [])].

Definition invalid_transition_detail (current_status new_status : PickupStatus.t) : string :=
  "Invalid status transition from " ++ PickupStatus.value current_status
    ++ " to " ++ PickupStatus.value new_status.

(** The status part of [update_data]: the new status and the new status
    history, when the body provides a status. *)
Definition validate_status_transition (pickup : PickupRequest.t)
    (update : PickupRequestUpdate.t) (admin : AdminUser.t) (t_entry : datetime)
    : Result (option PickupStatus.t * option (list StatusHistoryEntry.t)) :=
  match PickupRequestUpdate.status update with
  | Unset => Ok (None, None)
  | Provided None =>
      (* [None] is in no list of the table, and formatting the detail reads
         [new_status.value]. *)
      Raise (AttributeError "'NoneType' object has no attribute 'value'")
  | Provided (Some new_status) =>
      let current_status := Pickup.status pickup in
      if negb (py_in PickupStatus.eqb new_status
                 (dict_get PickupStatus.eqb valid_transitions current_status []))
      then Raise (HTTPException 400 (invalid_transition_detail current_status new_status))
      else
        let existing_history := Pickup.status_history pickup in
        Ok (Some new_status,
            Some (existing_history
                    ++ [StatusHistoryEntry.mk (PickupStatus.value new_status) t_entry
                          (AdminUser.username admin)])%list)
  end.

(** The price part of [update_data]: the new price history, when the body
    provides an actual cost that is not [None]. *)
Definition track_price_change (pickup : PickupRequest.t)
    (update : PickupRequestUpdate.t) (admin : AdminUser.t) (t_entry : datetime)
    : option (list PriceHistoryEntry.t) :=
  match PickupRequestUpdate.actual_cost update with
  | Provided (Some actual_cost) =>
      let existing_price_history := Pickup.price_history pickup in
      Some (existing_price_history
              ++ [PriceHistoryEntry.mk actual_cost t_entry (AdminUser.username admin)])%list
  | _ => None
  end.

Definition provided {A : Type} (f : Field A) : option (option A) :=
  match f with
  | Unset => None
  | Provided v => Some v
  end.

Definition update_pickup_request (request_id : string) (update : PickupRequestUpdate.t)
    (admin : AdminUser.t) (t_status t_price t_updated : datetime) : M PickupRequest.t :=
  existing <- pickup_requests_find_one (pickup_id_is request_id) ;;
  match existing with
  | None => raise (HTTPException 404 "Pickup request not found")
  | Some existing =>
      pickup <- lift (PickupRequest.parse existing) ;;
      status_part <- lift (validate_status_transition pickup update admin t_status) ;;
      let update_data :=
        {| PickupSet.status := fst status_part;
           PickupSet.actual_cost := provided (PickupRequestUpdate.actual_cost update);
           PickupSet.notes := provided (PickupRequestUpdate.notes update);
           PickupSet.payment_status := provided (PickupRequestUpdate.payment_status update);
           PickupSet.driver_id := None;
           PickupSet.status_history := snd status_part;
           PickupSet.price_history := track_price_change pickup update admin t_price;
           PickupSet.updated_at := Some t_updated |} in
      pickup_requests_update_one (pickup_id_is request_id) update_data ;;;
      updated <- pickup_requests_find_one (pickup_id_is request_id) ;;
      lift (PickupRequest_of_found updated)
  end.

Definition assign_driver (request_id driver_id : string) (admin : AdminUser.t)
    (t_entry t_updated : datetime) : M PickupRequest.t :=
  pickup <- pickup_requests_find_one (pickup_id_is request_id) ;;
  match pickup with
  | None => raise (HTTPException 404 "Pickup request not found")
  | Some pickup =>
      pickup_obj <- lift (PickupRequest.parse pickup) ;;
      if negb (PickupStatus.eqb (Pickup.status pickup_obj) PickupStatus.APPROVED)
      then raise (HTTPException 400 "Can only assign driver to approved requests")
      else
        driver <- drivers_find_one (driver_id_is driver_id) ;;
        match driver with
        | None => raise (HTTPException 404 "Driver not found")
        | Some driver_obj =>
            if negb (DriverStatus.eqb (Driver.status driver_obj) DriverStatus.AVAILABLE)
            then raise (HTTPException 400 "Driver is not available")
            else
              let existing_history := Pickup.status_history pickup_obj in
              let new_status_history :=
                (existing_history
                   ++ [StatusHistoryEntry.mk (PickupStatus.value PickupStatus.ASSIGNED)
                         t_entry (AdminUser.username admin)])%list in
              pickup_requests_update_one (pickup_id_is request_id)
                {| PickupSet.status := Some PickupStatus.ASSIGNED;
                   PickupSet.actual_cost := None;
                   PickupSet.notes := None;
                   PickupSet.payment_status := None;
                   PickupSet.driver_id := Some (Some driver_id);
                   PickupSet.status_history := Some new_status_history;
                   PickupSet.price_history := None;
                   PickupSet.updated_at := Some t_updated |} ;;;
              drivers_update_one (driver_id_is driver_id)
                (Driver.with_status DriverStatus.BUSY) ;;;
              updated <- pickup_requests_find_one (pickup_id_is request_id) ;;
              lift (PickupRequest_of_found updated)
        end
  end.

(** ** Driver routes *)

Definition create_driver (uid : string) (t_created : datetime)
    (driver : DriverCreate.t) (admin : AdminUser.t) : M Driver.t :=
  let new_driver :=
    {| Driver.id := uid;
       Driver.name := DriverCreate.name driver;
       Driver.phone := DriverCreate.phone driver;
       Driver.vehicle_type := DriverCreate.vehicle_type driver;
       Driver.vehicle_number := DriverCreate.vehicle_number driver;
       Driver.status := DriverStatus.AVAILABLE;
       Driver.current_location := None;
       Driver.created_at := t_created |} in
  drivers_insert_one new_driver ;;;
  ret new_driver.

Definition update_driver_status (driver_id : string) (status : DriverStatus.t)
    (admin : AdminUser.t) : M Driver.t :=
  driver <- drivers_find_one (driver_id_is driver_id) ;;
  match driver with
  | None => raise (HTTPException 404 "Driver not found")
  | Some _ =>
      drivers_update_one (driver_id_is driver_id) (Driver.with_status status) ;;;
      updated <- drivers_find_one (driver_id_is driver_id) ;;
      lift (Driver_of_found updated)
  end.

(** ** Rating routes *)

Definition create_rating (uid : string) (t_created : datetime)
    (rating : RatingCreate.t) : M Rating.t :=
  pickup <- pickup_requests_find_one (pickup_id_is (RatingCreate.pickup_id rating)) ;;
  match pickup with
  | None => raise (HTTPException 404 "Pickup request not found")
  | Some pickup =>
      if negb (String.eqb (PickupStatus.value (Pickup.status pickup))
                 (PickupStatus.value PickupStatus.COMPLETED))
      then raise (HTTPException 400 "Can only rate completed pickups")
      else
        existing <- ratings_find_one (rating_pickup_id_is (RatingCreate.pickup_id rating)) ;;
        match existing with
        | Some _ => raise (HTTPException 400 "This pickup has already been rated")
        | None =>
            new_rating <- lift (Rating.create uid t_created rating) ;;
            ratings_insert_one new_rating ;;;
            ret new_rating
        end
  end.

(** ** Routes that only read *)

Definition get_pickup_request (request_id : string) : M PickupRequest.t :=
  request <- pickup_requests_find_one (pickup_id_is request_id) ;;
  match request with
  | None => raise (HTTPException 404 "Pickup request not found")
  | Some request => lift (PickupRequest.parse request)
  end.

(** The query [{'status': status.value}] on [db.drivers]. *)
Definition driver_status_is (status : DriverStatus.t) (doc : Driver.t) : bool :=
  String.eqb (DriverStatus.value (Driver.status doc)) (DriverStatus.value status).

(** [find(query).to_list(length)] without a sort: the documents under the
    query in the order of the collection, [length] of them at most. *)
Definition find_to_list {A : Type} (query : A -> bool) (length : nat) (coll : list A) : list A :=
  firstn length (List.filter query coll).

Definition drivers_find_to_list (query : Driver.t -> bool) (length : nat) : M (list Driver.t) :=
  fun db => (Ok (find_to_list query length (drivers db)), db).

(** The model [Driver] constrains no field, so the constructor applied to a
    stored driver returns it. *)
Definition get_drivers (status : option DriverStatus.t) : M (list Driver.t) :=
  let query :=
    match status with
    | Some status => driver_status_is status
    | None => fun _ => true
    end in
  drivers <- drivers_find_to_list query 100%nat ;;
  ret (map (fun d => d) drivers).

Definition get_driver (driver_id : string) : M Driver.t :=
  driver <- drivers_find_one (driver_id_is driver_id) ;;
  match driver with
  | None => raise (HTTPException 404 "Driver not found")
  | Some driver => ret driver
  end.

(** The constructor [Rating] applied to the fields of a stored rating: the
    bound [Field(ge=1, le=5)] is checked again. *)
Definition Rating_parse (doc : Rating.t) : Result Rating.t :=
  if ((1 <=? Rating.rating doc) && (Rating.rating doc <=? 5))%Z
  then Ok doc
  else Raise (ValidationError "Rating").

Definition get_rating (pickup_id : string) : M Rating.t :=
  rating <- ratings_find_one (rating_pickup_id_is pickup_id) ;;
  match rating with
  | None => raise (HTTPException 404 "Rating not found")
  | Some rating => lift (Rating_parse rating)
  end.

(** The query [{'status': status.value}] on [db.pickup_requests]. *)
Definition pickup_status_is (status : PickupStatus.t) (doc : PickupDoc) : bool :=
  String.eqb (PickupStatus.value (Pickup.status doc)) (PickupStatus.value status).

Definition count_documents {A : Type} (query : A -> bool) (coll : list A) : Z :=
  Z.of_nat (List.length (List.filter query coll)).

Definition pickup_requests_count_documents (query : PickupDoc -> bool) : M Z :=
  fun db => (Ok (count_documents query (pickup_requests db)), db).

(** The dict [get_stats] returns. *)
Module Stats.
Record t : Type := mk { pending : Z; approved : Z; assigned : Z; completed : Z; total : Z }.
End Stats.

Definition get_stats : M Stats.t :=
  pending <- pickup_requests_count_documents (pickup_status_is PickupStatus.PENDING) ;;
  approved <- pickup_requests_count_documents (pickup_status_is PickupStatus.APPROVED) ;;
  assigned <- pickup_requests_count_documents (pickup_status_is PickupStatus.ASSIGNED) ;;
  completed <- pickup_requests_count_documents (pickup_status_is PickupStatus.COMPLETED) ;;
  ret {| Stats.pending := pending;
         Stats.approved := approved;
         Stats.assigned := assigned;
         Stats.completed := completed;
         Stats.total := (pending + approved + assigned + completed)%Z |}.

(** The two dicts [calculate_cost_preview] returns: [in_service_area] False
    with a message, or True with the distance and the cost. *)
Inductive CostPreview : Type :=
| OutsideServiceArea (message : string)
| InServiceArea (distance_km estimated_cost : float).

Definition calculate_cost_preview (math : Math) (cfg : Settings)
    (latitude longitude : float) (quantity : Quantity.t) (waste_type : WasteType.t)
    : M CostPreview :=
  distance_km <- lift (haversine_distance math
                         (SERVICE_CENTER_LAT cfg) (SERVICE_CENTER_LNG cfg)
                         latitude longitude) ;;
  if SERVICE_RADIUS_KM cfg <? distance_km
  then ret (OutsideServiceArea "Currently we serve Siliguri city limits only.")
  else
    let cost := calculate_cost distance_km (Quantity.value quantity) (WasteType.value waste_type) in
    ret (InServiceArea (py_round distance_km 2) cost).

(** ** The application *)

(** The calls of the API that write to the database. *)
Inductive ApiCall : Type :=
| POST_pickup_requests (body : PickupRequestCreate.t)
| PUT_pickup_request (request_id : string) (update : PickupRequestUpdate.t)
| POST_assign_driver (request_id driver_id : string)
| POST_drivers (driver : DriverCreate.t)
| PUT_driver_status (driver_id : string) (status : DriverStatus.t)
| POST_ratings (body : RatingCreate.t).

(** A request: its Authorization header, its call, and what [uuid4()] and
    [utcnow()] return while it is served, [utcnow k] at the k-th call site of
    the handler. *)
Record Request : Type := {
  authorization : option string;
  uuid4 : string;
  utcnow : nat -> datetime;
  call : ApiCall
}.

Inductive Response : Type :=
| PickupResponse (pickup : PickupRequest.t)
| DriverResponse (driver : Driver.t)
| RatingResponse (rating : Rating.t).

(** The route [POST /ratings]: FastAPI builds the [RatingCreate] of the body,
    then calls the handler. *)
Definition post_ratings (uid : string) (t_created : datetime) (body : RatingCreate.t)
    : M Rating.t :=
  rating <- lift (RatingCreate.validate body) ;;
  create_rating uid t_created rating.

(** Routing.  The routes declared with [Depends(get_current_admin)] resolve the
    admin before the handler runs; the request models validate the body. *)
Definition serve (math : Math) (cfg : Settings) (auth : Auth) (req : Request) : M Response :=
  match call req with
  | POST_pickup_requests body =>
      request <- lift (PickupRequestCreate.validate body) ;;
      pickup <- create_pickup_request math cfg (uuid4 req)
                  (utcnow req 0) (utcnow req 1) (utcnow req 2) request ;;
      ret (PickupResponse pickup)
  | PUT_pickup_request request_id update =>
      admin <- lift (get_current_admin auth (authorization req)) ;;
      pickup <- update_pickup_request request_id update admin
                  (utcnow req 0) (utcnow req 1) (utcnow req 2) ;;
      ret (PickupResponse pickup)
  | POST_assign_driver request_id driver_id =>
      admin <- lift (get_current_admin auth (authorization req)) ;;
      pickup <- assign_driver request_id driver_id admin (utcnow req 0) (utcnow req 1) ;;
      ret (PickupResponse pickup)
  | POST_drivers driver =>
      admin <- lift (get_current_admin auth (authorization req)) ;;
      new_driver <- create_driver (uuid4 req) (utcnow req 0) driver admin ;;
      ret (DriverResponse new_driver)
  | PUT_driver_status driver_id status =>
      admin <- lift (get_current_admin auth (authorization req)) ;;
      driver <- update_driver_status driver_id status admin ;;
      ret (DriverResponse driver)
  | POST_ratings body =>
      new_rating <- post_ratings (uuid4 req) (utcnow req 0) body ;;
      ret (RatingResponse new_rating)
  end.

(** The database after a request, and after a sequence of requests. *)
Definition exec (math : Math) (cfg : Settings) (auth : Auth) (req : Request) (db : DB) : DB :=
  snd (serve math cfg auth req db).

Definition run (math : Math) (cfg : Settings) (auth : Auth) (reqs : list Request) (db : DB) : DB :=
  fold_left (fun db req => exec math cfg auth req db) reqs db.

(** ** The answer of a route

    FastAPI renders what a handler returns as JSON with [allow_nan=False]:
    after the handler has run, [json.dumps] raises a ValueError on a float
    that is NaN or infinite, and the request is answered with a 500. *)
Definition json_float (x : float) : bool := is_finite x.

Definition json_Location (l : Location.t) : bool :=
  json_float (Location.latitude l) && json_float (Location.longitude l).

Definition json_PickupRequest (p : PickupRequest.t) : bool :=
  json_Location (Pickup.location p)
  && json_float (Pickup.estimated_cost p)
  && match Pickup.actual_cost p with Some cost => json_float cost | None => true end
  && json_float (Pickup.distance_km p)
  && forallb (fun entry => json_float (PriceHistoryEntry.actual_cost entry))
       (Pickup.price_history p).

Definition json_Driver (d : Driver.t) : bool :=
  match Driver.current_location d with Some l => json_Location l | None => true end.

Definition json_compliant (response : Response) : bool :=
  match response with
  | PickupResponse pickup => json_PickupRequest pickup
  | DriverResponse driver => json_Driver driver
  | RatingResponse _ => true
  end.

Definition render (response : Response) : Result Response :=
  if json_compliant response then Ok response
  else Raise (ValueError "Out of range float values are not JSON compliant").

(** What the client is answered: the route, then the rendering of what it
    returned. *)
Definition respond (math : Math) (cfg : Settings) (auth : Auth) (req : Request) : M Response :=
  response <- serve math cfg auth req ;;
  lift (render response).

(** ** Requests served concurrently

    A handler is a coroutine.  It runs alone up to an [await] on a database
    operation; the operation itself is atomic; before the handler resumes,
    the event loop may run other handlers up to their next [await].  A task
    is a handler cut at its awaits. *)
Inductive Task (A : Type) : Type :=
| Return (a : A)
| Fail (e : Exn)
| Await (B : Type) (op : M B) (k : B -> Task A).

Arguments Return {A} a.
Arguments Fail {A} e.
Arguments Await {A B} op k.

(** A task served alone, from its first await to its end. *)
Fixpoint run_task {A : Type} (t : Task A) (db : DB) : Result A * DB :=
  match t with
  | Return a => (Ok a, db)
  | Fail e => (Raise e, db)
  | Await op k =>
      match op db with
      | (Ok b, db') => run_task (k b) db'
      | (Raise e, db') => (Raise e, db')
      end
  end.

(** One turn of a task: its next database operation, and what it does up to
    the following await. *)
Definition resume {A : Type} (t : Task A) (db : DB) : Task A * DB :=
  match t with
  | Await op k =>
      match op db with
      | (Ok b, db') => (k b, db')
      | (Raise e, db') => (Fail e, db')
      end
  | _ => (t, db)
  end.

(** Two tasks on one database, in the order the event loop resumes them. *)
Inductive Turn : Type := First | Second.

Fixpoint interleave {A B : Type} (turns : list Turn) (t1 : Task A) (t2 : Task B) (db : DB)
    : Task A * Task B * DB :=
  match turns with
  | [] => (t1, t2, db)
  | First :: rest => let (t1', db') := resume t1 db in interleave rest t1' t2 db'
  | Second :: rest => let (t2', db') := resume t2 db in interleave rest t1 t2' db'
  end.

Definition of_result {A : Type} (r : Result A) : Task A :=
  match r with
  | Ok a => Return a
  | Raise e => Fail e
  end.

(** What a task has answered, once it has. *)
Definition task_result {A : Type} (t : Task A) : option (Result A) :=
  match t with
  | Return a => Some (Ok a)
  | Fail e => Some (Raise e)
  | Await _ _ => None
  end.

(** [assign_driver], await by await. *)
Definition assign_driver_task (request_id driver_id : string) (admin : AdminUser.t)
    (t_entry t_updated : datetime) : Task PickupRequest.t :=
  Await (pickup_requests_find_one (pickup_id_is request_id)) (fun pickup =>
  match pickup with
  | None => Fail (HTTPException 404 "Pickup request not found")
  | Some pickup =>
      match PickupRequest.parse pickup with
      | Raise e => Fail e
      | Ok pickup_obj =>
          if negb (PickupStatus.eqb (Pickup.status pickup_obj) PickupStatus.APPROVED)
          then Fail (HTTPException 400 "Can only assign driver to approved requests")
          else
            Await (drivers_find_one (driver_id_is driver_id)) (fun driver =>
            match driver with
            | None => Fail (HTTPException 404 "Driver not found")
            | Some driver_obj =>
                if negb (DriverStatus.eqb (Driver.status driver_obj) DriverStatus.AVAILABLE)
                then Fail (HTTPException 400 "Driver is not available")
                else
                  let existing_history := Pickup.status_history pickup_obj in
                  let new_status_history :=
                    (existing_history
                       ++ [StatusHistoryEntry.mk (PickupStatus.value PickupStatus.ASSIGNED)
                             t_entry (AdminUser.username admin)])%list in
                  Await (pickup_requests_update_one (pickup_id_is request_id)
                           {| PickupSet.status := Some PickupStatus.ASSIGNED;
                              PickupSet.actual_cost := None;
                              PickupSet.notes := None;
                              PickupSet.payment_status := None;
                              PickupSet.driver_id := Some (Some driver_id);
                              PickupSet.status_history := Some new_status_history;
                              PickupSet.price_history := None;
                              PickupSet.updated_at := Some t_updated |}) (fun _ =>
                  Await (drivers_update_one (driver_id_is driver_id)
                           (Driver.with_status DriverStatus.BUSY)) (fun _ =>
                  Await (pickup_requests_find_one (pickup_id_is request_id)) (fun updated =>
                  of_result (PickupRequest_of_found updated))))
            end)
      end
  end).

(** ** A reference instance of [Math]

    Polynomial approximations, enough to evaluate the handlers.  It is not the
    C library of the program: it agrees with it at the points the C standard
    fixes ([sin 0 = 0], [cos 0 = 1], [atan2 0 x = 0] for positive [x]) and on
    NaN, which every operation propagates; elsewhere a value may differ in
    the last place.  What is evaluated with it away from these points is a
    fact about this instance. *)
Module RefMath.
Definition pi : float := 0x1.921fb54442d18p+1.
Definition deg_to_rad : float := 0x1.1df46a2529d39p-6.
(** The even or odd Taylor series in [x2 = x * x], by Horner's rule: the sum of
    [(-x2)^k / ((n+1) ... (n+2k))] for [k] up to [terms]. *)
Fixpoint series (terms : nat) (n : float) (x2 : float) : float :=
  match terms with
  | O => 1
  | S terms' => 1 - x2 / ((n + 1) * (n + 2)) * series terms' (n + 2) x2
  end.
Definition sin_poly (x : float) : float := x * series 12 1 (x * x).
Definition cos_poly (x : float) : float := series 12 0 (x * x).
(** [atan] on [0 <= t <= 1] by halving the angle twice, then
    [t - t^3/3 + t^5/5 - ...]. *)
Fixpoint atan_series (terms : nat) (k : float) (t2 : float) : float :=
  match terms with
  | O => 1 / k
  | S terms' => 1 / k - t2 * atan_series terms' (k + 2) t2
  end.
Definition half_angle (t : float) : float := t / (1 + PrimFloat.sqrt (1 + t * t)).
Definition atan_unit (t : float) : float :=
  let u := half_angle (half_angle t) in 4 * (u * atan_series 14 1 (u * u)).
Definition atan_pos (t : float) : float :=
  if t <=? 1 then atan_unit t else pi / 2 - atan_unit (1 / t).
Definition atan (t : float) : float :=
  if t <? 0 then - atan_pos (- t) else atan_pos t.
Definition atan2_poly (y x : float) : float :=
  if is_nan y || is_nan x then nan
  else if 0 <? x then atan (y / x)
  else if x <? 0 then (if y <? 0 then atan (y / x) - pi else atan (y / x) + pi)
  else if 0 <? y then pi / 2
  else if y <? 0 then - (pi / 2)
  else 0.
Definition domain_error : Exn := MathError "math domain error".
Definition math : Math :=
  {| radians := fun x => Ok (x * deg_to_rad);
     sin := fun x => if is_infinity x then Raise domain_error else Ok (sin_poly x);
     cos := fun x => if is_infinity x then Raise domain_error else Ok (cos_poly x);
     sqrt := fun x => if x <? 0 then Raise domain_error else Ok (PrimFloat.sqrt x);
     atan2 := fun y x => Ok (atan2_poly y x);
     pow := fun x y =>
       if y =? 2 then Ok (x * x)
       else if y =? 1 then Ok x
       else if y =? 0 then Ok 1
       else Raise (MathError "exponent outside the reference instance") |}.
End RefMath.

(** ** What the specification says, in its own words *)

(** The transition table of the specification: the three edges of the linear
    lifecycle. *)
Definition spec_allowed_edge (current requested : PickupStatus.t) : bool :=
  match current, requested with
  | PickupStatus.PENDING, PickupStatus.APPROVED => true
  | PickupStatus.APPROVED, PickupStatus.ASSIGNED => true
  | PickupStatus.ASSIGNED, PickupStatus.COMPLETED => true
  | _, _ => false
  end.

(** The volume factors and waste surcharges of the specification, 1.0 for a
    name outside the table. *)
Definition spec_volume_factor (quantity : string) : float :=
  if String.eqb quantity "Small" then 1.0
  else if String.eqb quantity "Medium" then 1.5
  else if String.eqb quantity "Large" then 2.0
  else if String.eqb quantity "Bulk" then 3.0
  else 1.0.

Definition spec_waste_surcharge (waste_category : string) : float :=
  if String.eqb waste_category "Organic" then 1.0
  else if String.eqb waste_category "Plastic" then 1.0
  else if String.eqb waste_category "Metal" then 1.0
  else if String.eqb waste_category "Mixed" then 1.1
  else if String.eqb waste_category "E-Waste" then 1.2
  else 1.0.

Definition spec_cost (distance_km : float) (quantity waste_category : string) : float :=
  py_round (((distance_km * 10) + (spec_volume_factor quantity * 50))
            * spec_waste_surcharge waste_category) 2.

(** The signals of the error taxonomy, as the handlers raise them. *)
Definition NotFound_pickup : Exn := HTTPException 404 "Pickup request not found".
Definition NotFound_driver : Exn := HTTPException 404 "Driver not found".
Definition OutOfServiceArea : Exn := HTTPException 400 out_of_service_area_detail.
Definition InvalidTransition (current requested : PickupStatus.t) : Exn :=
  HTTPException 400 (invalid_transition_detail current requested).
Definition InvalidState_assign : Exn :=
  HTTPException 400 "Can only assign driver to approved requests".
Definition DriverUnavailable : Exn := HTTPException 400 "Driver is not available".
Definition InvalidState_rating : Exn := HTTPException 400 "Can only rate completed pickups".
Definition Conflict : Exn := HTTPException 400 "This pickup has already been rated".
Definition ValidationError_rating : Exn := RequestValidationError "rating".

(** The status a history entry records is the current status of the request,
    and it is the last entry. *)
Definition history_mirrors_status (doc : PickupDoc) : Prop :=
  exists earlier last,
    Pickup.status_history doc = (earlier ++ [last])%list
    /\ StatusHistoryEntry.status last = PickupStatus.value (Pickup.status doc).

(** [doc'] holds the history of [doc], with at most one entry appended. *)
Definition history_extends (doc doc' : PickupDoc) : Prop :=
  Pickup.status_history doc' = Pickup.status_history doc
  \/ exists entry, Pickup.status_history doc' = (Pickup.status_history doc ++ [entry])%list.

Unset Implicit Arguments.

(** ** The databases the handlers produce *)

(** The database with one more pickup request. *)
Definition with_new_pickup (pickup : PickupRequest.t) (db : DB) : DB :=
  {| pickup_requests := insert_one (PickupRequest.dict pickup) (pickup_requests db);
     drivers := drivers db;
     ratings := ratings db |}.

(** The [$set] document [update_pickup_request] writes, given the status part. *)
Definition update_set (pickup : PickupRequest.t) (update : PickupRequestUpdate.t)
    (admin : AdminUser.t) (t_price t_updated : datetime)
    (status_part : option PickupStatus.t * option (list StatusHistoryEntry.t)) : PickupSet.t :=
  {| PickupSet.status := fst status_part;
     PickupSet.actual_cost := provided (PickupRequestUpdate.actual_cost update);
     PickupSet.notes := provided (PickupRequestUpdate.notes update);
     PickupSet.payment_status := provided (PickupRequestUpdate.payment_status update);
     PickupSet.driver_id := None;
     PickupSet.status_history := snd status_part;
     PickupSet.price_history := track_price_change pickup update admin t_price;
     PickupSet.updated_at := Some t_updated |}.

(** The database with the first pickup request under [request_id] rewritten. *)
Definition with_pickup_set (request_id : string) (set : PickupSet.t) (db : DB) : DB :=
  {| pickup_requests :=
       update_one (pickup_id_is request_id) (PickupSet.apply set) (pickup_requests db);
     drivers := drivers db;
     ratings := ratings db |}.

(** The [$set] document [assign_driver] writes to the pickup request. *)
Definition assign_set (pickup_obj : PickupRequest.t) (driver_id : string)
    (admin : AdminUser.t) (t_entry t_updated : datetime) : PickupSet.t :=
  {| PickupSet.status := Some PickupStatus.ASSIGNED;
     PickupSet.actual_cost := None;
     PickupSet.notes := None;
     PickupSet.payment_status := None;
     PickupSet.driver_id := Some (Some driver_id);
     PickupSet.status_history :=
       Some (Pickup.status_history pickup_obj
               ++ [StatusHistoryEntry.mk (PickupStatus.value PickupStatus.ASSIGNED)
                     t_entry (AdminUser.username admin)])%list;
     PickupSet.price_history := None;
     PickupSet.updated_at := Some t_updated |}.

(** The database after the two writes of [assign_driver]. *)
Definition with_assignment (request_id driver_id : string) (set : PickupSet.t) (db : DB) : DB :=
  {| pickup_requests :=
       update_one (pickup_id_is request_id) (PickupSet.apply set) (pickup_requests db);
     drivers :=
       update_one (driver_id_is driver_id) (Driver.with_status DriverStatus.BUSY) (drivers db);
     ratings := ratings db |}.

(** The database with one more rating. *)
Definition with_new_rating (rating : Rating.t) (db : DB) : DB :=
  {| pickup_requests := pickup_requests db;
     drivers := drivers db;
     ratings := insert_one rating (ratings db) |}.

(** The bound [Field(ge=1, le=5)] on a rating. *)
Definition score_in_range (body : RatingCreate.t) : bool :=
  ((1 <=? RatingCreate.rating body) && (RatingCreate.rating body <=? 5))%Z.

(** The database with one more driver. *)
Definition with_new_driver (driver : Driver.t) (db : DB) : DB :=
  {| pickup_requests := pickup_requests db;
     drivers := insert_one driver (drivers db);
     ratings := ratings db |}.

(** The database with the status of the first driver under [driver_id]
    overwritten. *)
Definition with_driver_status (driver_id : string) (status : DriverStatus.t) (db : DB) : DB :=
  {| pickup_requests := pickup_requests db;
     drivers := update_one (driver_id_is driver_id) (Driver.with_status status) (drivers db);
     ratings := ratings db |}.

(** The writes of the handlers: one constructor per handler that writes, each
    with what the handler checked before writing. *)
Inductive step_effect (db : DB) : DB -> Prop :=
| effect_none : step_effect db db
| effect_create (pickup : PickupRequest.t) (t_entry : datetime) :
    Pickup.status pickup = PickupStatus.PENDING ->
    Pickup.status_history pickup = [StatusHistoryEntry.mk "Pending" t_entry "user"] ->
    step_effect db (with_new_pickup pickup db)
| effect_update (request_id : string) (existing : PickupDoc) (pickup : PickupRequest.t)
    (update : PickupRequestUpdate.t) (admin : AdminUser.t)
    (t_status t_price t_updated : datetime)
    (status_part : option PickupStatus.t * option (list StatusHistoryEntry.t)) :
    find_one (pickup_id_is request_id) (pickup_requests db) = Some existing ->
    PickupRequest.parse existing = Ok pickup ->
    validate_status_transition pickup update admin t_status = Ok status_part ->
    step_effect db
      (with_pickup_set request_id
         (update_set pickup update admin t_price t_updated status_part) db)
| effect_assign (request_id driver_id : string) (existing : PickupDoc)
    (pickup_obj : PickupRequest.t) (driver : Driver.t) (admin : AdminUser.t)
    (t_entry t_updated : datetime) :
    find_one (pickup_id_is request_id) (pickup_requests db) = Some existing ->
    PickupRequest.parse existing = Ok pickup_obj ->
    Pickup.status existing = PickupStatus.APPROVED ->
    find_one (driver_id_is driver_id) (drivers db) = Some driver ->
    Driver.status driver = DriverStatus.AVAILABLE ->
    step_effect db
      (with_assignment request_id driver_id
         (assign_set pickup_obj driver_id admin t_entry t_updated) db)
| effect_new_driver (driver : Driver.t) :
    Driver.status driver = DriverStatus.AVAILABLE ->
    step_effect db (with_new_driver driver db)
| effect_driver_status (driver_id : string) (status : DriverStatus.t) :
    step_effect db (with_driver_status driver_id status db)
| effect_new_rating (rating : Rating.t) (pickup : PickupDoc) :
    find_one (pickup_id_is (Rating.pickup_id rating)) (pickup_requests db) = Some pickup ->
    Pickup.status pickup = PickupStatus.COMPLETED ->
    find_one (rating_pickup_id_is (Rating.pickup_id rating)) (ratings db) = None ->
    step_effect db (with_new_rating rating db).

(** The pickup request under [pickup_id] is Completed and has a rating. *)
Definition rated (pickup_id : string) (db : DB) : Prop :=
  (exists pickup,
      find_one (pickup_id_is pickup_id) (pickup_requests db) = Some pickup
      /\ Pickup.status pickup = PickupStatus.COMPLETED)
  /\ exists rating, find_one (rating_pickup_id_is pickup_id) (ratings db) = Some rating.

(** ** Requests, route by route *)

(** The 404 of [get_rating]. *)
Definition NotFound_rating : Exn := HTTPException 404 "Rating not found".

(** The routes declared with [Depends(get_current_admin)]. *)
Definition requires_admin (c : ApiCall) : bool :=
  match c with
  | POST_pickup_requests _ | POST_ratings _ => false
  | PUT_pickup_request _ _ | POST_assign_driver _ _
  | POST_drivers _ | PUT_driver_status _ _ => true
  end.

(** The one route that overwrites the status of a driver by hand. *)
Definition sets_driver_status (c : ApiCall) : bool :=
  match c with
  | PUT_driver_status _ _ => true
  | _ => false
  end.

(** The stages of the lifecycle in order, and the stage of a status. *)
Definition lifecycle : list PickupStatus.t :=
  [PickupStatus.PENDING; PickupStatus.APPROVED; PickupStatus.ASSIGNED; PickupStatus.COMPLETED].

Definition stage (s : PickupStatus.t) : nat :=
  match s with
  | PickupStatus.PENDING => 0
  | PickupStatus.APPROVED => 1
  | PickupStatus.ASSIGNED => 2
  | PickupStatus.COMPLETED => 3
  end.

(** The fields no [$set] document names. *)
Definition same_creation_fields (doc doc' : PickupDoc) : Prop :=
  Pickup.id doc' = Pickup.id doc
  /\ Pickup.location doc' = Pickup.location doc
  /\ Pickup.waste_image doc' = Pickup.waste_image doc
  /\ Pickup.waste_type doc' = Pickup.waste_type doc
  /\ Pickup.quantity doc' = Pickup.quantity doc
  /\ Pickup.estimated_cost doc' = Pickup.estimated_cost doc
  /\ Pickup.distance_km doc' = Pickup.distance_km doc
  /\ Pickup.user_contact doc' = Pickup.user_contact doc
  /\ Pickup.payment_method doc' = Pickup.payment_method doc
  /\ Pickup.created_at doc' = Pickup.created_at doc.

Definition same_driver_identity (doc doc' : Driver.t) : Prop :=
  Driver.id doc' = Driver.id doc
  /\ Driver.name doc' = Driver.name doc
  /\ Driver.phone doc' = Driver.phone doc
  /\ Driver.vehicle_type doc' = Driver.vehicle_type doc
  /\ Driver.vehicle_number doc' = Driver.vehicle_number doc
  /\ Driver.current_location doc' = Driver.current_location doc
  /\ Driver.created_at doc' = Driver.created_at doc.

(** The fields of a pickup request other than its times ([created_at],
    [updated_at] and the [at] of the history entries).  The database keeps a
    datetime to the millisecond, so a time that is read back is the time that
    was written cut to the millisecond: what a reading route returns is
    compared with what a writing route returned in these fields only. *)
Definition same_but_times (a b : PickupRequest.t) : Prop :=
  Pickup.id b = Pickup.id a
  /\ Pickup.location b = Pickup.location a
  /\ Pickup.waste_image b = Pickup.waste_image a
  /\ Pickup.waste_type b = Pickup.waste_type a
  /\ Pickup.quantity b = Pickup.quantity a
  /\ Pickup.estimated_cost b = Pickup.estimated_cost a
  /\ Pickup.actual_cost b = Pickup.actual_cost a
  /\ Pickup.distance_km b = Pickup.distance_km a
  /\ Pickup.status b = Pickup.status a
  /\ Pickup.user_contact b = Pickup.user_contact a
  /\ Pickup.notes b = Pickup.notes a
  /\ Pickup.driver_id b = Pickup.driver_id a
  /\ Pickup.payment_method b = Pickup.payment_method a
  /\ Pickup.payment_status b = Pickup.payment_status a
  /\ map (fun entry => (StatusHistoryEntry.status entry, StatusHistoryEntry.by_ entry))
       (Pickup.status_history b)
     = map (fun entry => (StatusHistoryEntry.status entry, StatusHistoryEntry.by_ entry))
         (Pickup.status_history a)
  /\ map (fun entry => (PriceHistoryEntry.actual_cost entry, PriceHistoryEntry.by_ entry))
       (Pickup.price_history b)
     = map (fun entry => (PriceHistoryEntry.actual_cost entry, PriceHistoryEntry.by_ entry))
         (Pickup.price_history a).

(** What [create_pickup_request] stores in the fields the later routes write. *)
Definition freshly_created (pickup : PickupRequest.t) : Prop :=
  Pickup.status pickup = PickupStatus.PENDING
  /\ Pickup.driver_id pickup = None
  /\ Pickup.actual_cost pickup = None
  /\ Pickup.price_history pickup = []
  /\ exists t_entry,
       Pickup.status_history pickup = [StatusHistoryEntry.mk "Pending" t_entry "user"].

(** What one request can do to one stored pickup request: nothing, the [$set]
    of [update_pickup_request], or the [$set] of [assign_driver]. *)
Inductive pickup_change (doc : PickupDoc) : PickupDoc -> Prop :=
| change_none : pickup_change doc doc
| change_update (pickup : PickupRequest.t) (update : PickupRequestUpdate.t)
    (admin : AdminUser.t) (t_status t_price t_updated : datetime)
    (status_part : option PickupStatus.t * option (list StatusHistoryEntry.t)) :
    PickupRequest.parse doc = Ok pickup ->
    validate_status_transition pickup update admin t_status = Ok status_part ->
    pickup_change doc
      (PickupSet.apply (update_set pickup update admin t_price t_updated status_part) doc)
| change_assign (pickup_obj : PickupRequest.t) (driver_id : string) (admin : AdminUser.t)
    (t_entry t_updated : datetime) :
    PickupRequest.parse doc = Ok pickup_obj ->
    Pickup.status doc = PickupStatus.APPROVED ->
    pickup_change doc
      (PickupSet.apply (assign_set pickup_obj driver_id admin t_entry t_updated) doc).

(** The writes of a request, by its route: the request is refused and nothing
    is written, or the handler's writes happen after its checks. *)
Inductive call_effect (db : DB) : ApiCall -> DB -> Prop :=
| call_refused (c : ApiCall) : call_effect db c db
| call_create (body : PickupRequestCreate.t) (pickup : PickupRequest.t) :
    freshly_created pickup ->
    call_effect db (POST_pickup_requests body) (with_new_pickup pickup db)
| call_update (request_id : string) (update : PickupRequestUpdate.t)
    (existing : PickupDoc) (pickup : PickupRequest.t) (admin : AdminUser.t)
    (t_status t_price t_updated : datetime)
    (status_part : option PickupStatus.t * option (list StatusHistoryEntry.t)) :
    find_one (pickup_id_is request_id) (pickup_requests db) = Some existing ->
    PickupRequest.parse existing = Ok pickup ->
    validate_status_transition pickup update admin t_status = Ok status_part ->
    call_effect db (PUT_pickup_request request_id update)
      (with_pickup_set request_id
         (update_set pickup update admin t_price t_updated status_part) db)
| call_assign (request_id driver_id : string) (existing : PickupDoc)
    (pickup_obj : PickupRequest.t) (driver : Driver.t) (admin : AdminUser.t)
    (t_entry t_updated : datetime) :
    find_one (pickup_id_is request_id) (pickup_requests db) = Some existing ->
    PickupRequest.parse existing = Ok pickup_obj ->
    Pickup.status existing = PickupStatus.APPROVED ->
    find_one (driver_id_is driver_id) (drivers db) = Some driver ->
    Driver.status driver = DriverStatus.AVAILABLE ->
    call_effect db (POST_assign_driver request_id driver_id)
      (with_assignment request_id driver_id
         (assign_set pickup_obj driver_id admin t_entry t_updated) db)
| call_new_driver (body : DriverCreate.t) (driver : Driver.t) :
    Driver.status driver = DriverStatus.AVAILABLE ->
    call_effect db (POST_drivers body) (with_new_driver driver db)
| call_driver_status (driver_id : string) (status : DriverStatus.t) (driver : Driver.t) :
    find_one (driver_id_is driver_id) (drivers db) = Some driver ->
    call_effect db (PUT_driver_status driver_id status)
      (with_driver_status driver_id status db)
| call_new_rating (body : RatingCreate.t) (rating : Rating.t) (pickup : PickupDoc) :
    Rating.pickup_id rating = RatingCreate.pickup_id body ->
    (1 <= Rating.rating rating <= 5)%Z ->
    find_one (pickup_id_is (Rating.pickup_id rating)) (pickup_requests db) = Some pickup ->
    Pickup.status pickup = PickupStatus.COMPLETED ->
    find_one (rating_pickup_id_is (Rating.pickup_id rating)) (ratings db) = None ->
    call_effect db (POST_ratings body) (with_new_rating rating db).

(** ** Sample data

    The data of the test suite ([backend_test.py]) and of the end-to-end
    scenarios of the specification. *)

Definition sample_admin : AdminUser.t := AdminUser.mk "admin" "admin".

(** An [Auth] that refuses every request, and one that knows one token. *)
Definition deny_all : Auth :=
  {| security := fun _ => Raise (HTTPException 403 "Not authenticated");
     verify_jwt_token := fun _ => None |}.

Definition one_token : Auth :=
  {| security := fun header =>
       match header with
       | Some token => Ok token
       | None => Raise (HTTPException 403 "Not authenticated")
       end;
     verify_jwt_token := fun token =>
       if String.eqb token "admin-token" then Some [("sub", "admin"); ("role", "admin")]
       else None |}.

Definition pickup_body (latitude longitude : float) (address : string) : PickupRequestCreate.t :=
  {| PickupRequestCreate.location := Location.mk latitude longitude address;
     PickupRequestCreate.waste_image := "data:image/jpeg;base64,/9j/4AAQ";
     PickupRequestCreate.waste_type := WasteType.PLASTIC;
     PickupRequestCreate.quantity := Quantity.MEDIUM;
     PickupRequestCreate.user_contact := Some "9876543210";
     PickupRequestCreate.notes := None;
     PickupRequestCreate.payment_method := None |}.

Definition hub_body : PickupRequestCreate.t := pickup_body 26.7271 88.3953 "Service center".
Definition valid_body : PickupRequestCreate.t := pickup_body 26.73 88.40 "Test Address, Siliguri".
Definition invalid_body : PickupRequestCreate.t := pickup_body 26.50 88.10 "Outside Service Area".

(** A stored pickup request at the hub with the given status, history and
    actual cost. *)
Definition stored_pickup (id : string) (status : PickupStatus.t)
    (history : list StatusHistoryEntry.t) (actual_cost : option float)
    (prices : list PriceHistoryEntry.t) : PickupDoc :=
  {| Pickup.id := id;
     Pickup.location := Location.mk 26.7271 88.3953 "Service center";
     Pickup.waste_image := "data:image/jpeg;base64,/9j/4AAQ";
     Pickup.waste_type := WasteType.PLASTIC;
     Pickup.quantity := Quantity.MEDIUM;
     Pickup.estimated_cost := 75;
     Pickup.actual_cost := actual_cost;
     Pickup.distance_km := 0;
     Pickup.status := status;
     Pickup.user_contact := Some "9876543210";
     Pickup.notes := None;
     Pickup.driver_id := None;
     Pickup.payment_method := None;
     Pickup.payment_status := Some PaymentStatus.PENDING;
     Pickup.status_history := history;
     Pickup.price_history := prices;
     Pickup.created_at := 100%Z;
     Pickup.updated_at := 100%Z |}.

Definition pending_entry : StatusHistoryEntry.t := StatusHistoryEntry.mk "Pending" 100%Z "user".

(** One Pending request and no driver. *)
Definition db_pending : DB :=
  {| pickup_requests := [stored_pickup "p1" PickupStatus.PENDING [pending_entry] None []];
     drivers := [];
     ratings := [] |}.

(** One Pending request whose actual cost was set to 120 once. *)
Definition db_priced : DB :=
  {| pickup_requests :=
       [stored_pickup "p1" PickupStatus.PENDING [pending_entry] (Some 120)
          [PriceHistoryEntry.mk 120 150%Z "admin"]];
     drivers := [];
     ratings := [] |}.

Definition status_update (requested : PickupStatus.t) : PickupRequestUpdate.t :=
  {| PickupRequestUpdate.status := Provided (Some requested);
     PickupRequestUpdate.actual_cost := Unset;
     PickupRequestUpdate.notes := Unset;
     PickupRequestUpdate.payment_status := Unset |}.

Definition clear_actual_cost : PickupRequestUpdate.t :=
  {| PickupRequestUpdate.status := Unset;
     PickupRequestUpdate.actual_cost := Provided None;
     PickupRequestUpdate.notes := Unset;
     PickupRequestUpdate.payment_status := Unset |}.

Definition driver_body : DriverCreate.t :=
  {| DriverCreate.name := "Test Driver";
     DriverCreate.phone := "9876543210";
     DriverCreate.vehicle_type := "Truck";
     DriverCreate.vehicle_number := "WB-01-1234" |}.

(** The full workflow: create, create a driver, approve, assign, complete,
    rate.  The k-th request draws the id [ids k] and the time [10 * k]. *)
Definition request_of (header : option string) (uid : string) (now : Z) (c : ApiCall) : Request :=
  {| authorization := header; uuid4 := uid; utcnow := fun k => (now + Z.of_nat k)%Z; call := c |}.

Definition full_workflow : list Request :=
  [request_of None "p1" 10 (POST_pickup_requests hub_body);
   request_of (Some "admin-token") "d1" 20 (POST_drivers driver_body);
   request_of (Some "admin-token") "" 30 (PUT_pickup_request "p1" (status_update PickupStatus.APPROVED));
   request_of (Some "admin-token") "" 40 (POST_assign_driver "p1" "d1");
   request_of (Some "admin-token") "" 50 (PUT_pickup_request "p1" (status_update PickupStatus.COMPLETED));
   request_of None "r1" 60 (POST_ratings (RatingCreate.mk "p1" 5 (Some "Excellent service!")))].

(** The outcome of clearing the actual cost of the priced request, and the
    request it returns. *)
Definition cleared : Result PickupRequest.t * DB :=
  update_pickup_request "p1" clear_actual_cost sample_admin 30%Z 31%Z 32%Z db_priced.

Definition cleared_pickup : PickupRequest.t :=
  Pickup.with_payment_status PaymentStatus.PENDING
    (PickupSet.apply
       {| PickupSet.status := None;
          PickupSet.actual_cost := Some None;
          PickupSet.notes := None;
          PickupSet.payment_status := None;
          PickupSet.driver_id := None;
          PickupSet.status_history := None;
          PickupSet.price_history := None;
          PickupSet.updated_at := Some 32%Z |}
       (stored_pickup "p1" PickupStatus.PENDING [pending_entry] (Some 120)
          [PriceHistoryEntry.mk 120 150%Z "admin"])).

(** A body that provides [payment_status: null] and nothing else. *)
Definition null_payment_status : PickupRequestUpdate.t :=
  {| PickupRequestUpdate.status := Unset;
     PickupRequestUpdate.actual_cost := Unset;
     PickupRequestUpdate.notes := Unset;
     PickupRequestUpdate.payment_status := Provided None |}.

(** Stored requests further along the lifecycle: Approved, Assigned to a
    driver as [assign_driver] writes it, and Completed. *)
Definition approved_entry : StatusHistoryEntry.t := StatusHistoryEntry.mk "Approved" 130%Z "admin".

Definition approved_pickup (id : string) : PickupDoc :=
  stored_pickup id PickupStatus.APPROVED [pending_entry; approved_entry] None [].

Definition assigned_pickup (id driver_id : string) : PickupDoc :=
  PickupSet.apply
    (assign_set (Pickup.with_payment_status PaymentStatus.PENDING (approved_pickup id))
       driver_id sample_admin 140%Z 141%Z)
    (approved_pickup id).

Definition completed_pickup (id : string) : PickupDoc :=
  stored_pickup id PickupStatus.COMPLETED
    [pending_entry; approved_entry;
     StatusHistoryEntry.mk "Assigned" 140%Z "admin";
     StatusHistoryEntry.mk "Completed" 150%Z "admin"] None [].

Definition busy_driver : Driver.t :=
  {| Driver.id := "d1";
     Driver.name := "Test Driver";
     Driver.phone := "9876543210";
     Driver.vehicle_type := "Truck";
     Driver.vehicle_number := "WB-01-1234";
     Driver.status := DriverStatus.BUSY;
     Driver.current_location := None;
     Driver.created_at := 120%Z |}.

(** One Completed request. *)
Definition db_completed : DB :=
  {| pickup_requests := [completed_pickup "p1"]; drivers := []; ratings := [] |}.

(** A request assigned to the one driver, who is Busy, and an Approved
    request that waits for a driver. *)
Definition db_two_requests : DB :=
  {| pickup_requests := [assigned_pickup "p1" "d1"; approved_pickup "p2"];
     drivers := [busy_driver];
     ratings := [] |}.

(** Two requests, one driver: both are approved, the driver is assigned to
    the first, set to Available by hand, and assigned to the second. *)
Definition double_assignment : list Request :=
  [request_of None "p1" 10 (POST_pickup_requests hub_body);
   request_of None "p2" 20 (POST_pickup_requests valid_body);
   request_of (Some "admin-token") "d1" 30 (POST_drivers driver_body);
   request_of (Some "admin-token") "" 40 (PUT_pickup_request "p1" (status_update PickupStatus.APPROVED));
   request_of (Some "admin-token") "" 50 (PUT_pickup_request "p2" (status_update PickupStatus.APPROVED));
   request_of (Some "admin-token") "" 60 (POST_assign_driver "p1" "d1");
   request_of (Some "admin-token") "" 70 (PUT_driver_status "d1" DriverStatus.AVAILABLE);
   request_of (Some "admin-token") "" 80 (POST_assign_driver "p2" "d1")].

(** A request is created, then an update provides [payment_status: null]. *)
Definition unloadable_request : list Request :=
  [request_of None "p1" 10 (POST_pickup_requests hub_body);
   request_of (Some "admin-token") "" 20 (PUT_pickup_request "p1" null_payment_status)].

(** A body that approves, sets the actual cost and provides
    [payment_status: null]. *)
Definition partial_write : PickupRequestUpdate.t :=
  {| PickupRequestUpdate.status := Provided (Some PickupStatus.APPROVED);
     PickupRequestUpdate.actual_cost := Provided (Some 99);
     PickupRequestUpdate.notes := Unset;
     PickupRequestUpdate.payment_status := Provided None |}.

(** A body that sets the actual cost to infinity. *)
Definition infinite_cost : PickupRequestUpdate.t :=
  {| PickupRequestUpdate.status := Unset;
     PickupRequestUpdate.actual_cost := Provided (Some infinity);
     PickupRequestUpdate.notes := Unset;
     PickupRequestUpdate.payment_status := Unset |}.

(** A location whose latitude is NaN, which the JSON parser of the framework
    reads from the literal [NaN]. *)
Definition nan_body : PickupRequestCreate.t := pickup_body nan 88.3953 "Nowhere".

(** Two Approved requests and one Available driver. *)
Definition available_driver : Driver.t := Driver.with_status DriverStatus.AVAILABLE busy_driver.

Definition db_two_approved : DB :=
  {| pickup_requests := [approved_pickup "p1"; approved_pickup "p2"];
     drivers := [available_driver];
     ratings := [] |}.

(** Two schedules of two [assign_driver] calls: the first call to its end and
    then the second; and both calls through their two reads before either
    continues with its writes. *)
Definition one_after_the_other : list Turn :=
  [First; First; First; First; First; Second; Second; Second; Second; Second].

Definition both_read_first : list Turn :=
  [First; First; Second; Second; First; First; First; Second; Second; Second].

(** * Properties *)

(** ** Floats *)

Lemma SFcompare_antisym (a b : spec_float) :
  SFcompare b a = option_map CompOpp (SFcompare a b).
Proof.
  destruct a as [sa|sa| |sa ma ea], b as [sb|sb| |sb mb eb]; simpl; try reflexivity;
    try (destruct sa; reflexivity); try (destruct sb; reflexivity);
    try (destruct sa, sb; reflexivity).
  destruct sa, sb; simpl; try reflexivity;
    rewrite (Z.compare_antisym ea eb); destruct (ea ?= eb)%Z; simpl; try reflexivity;
    pose proof (Pos.compare_cont_antisym ma mb Eq) as Hm; simpl in Hm; rewrite <- Hm;
    destruct (Pos.compare_cont Eq ma mb); reflexivity.
Qed.

Lemma SFcompare_None (a b : spec_float) :
  SFcompare a b = None -> a = S754_nan \/ b = S754_nan.
Proof.
  destruct a as [sa|sa| |sa ma ea], b as [sb|sb| |sb mb eb]; simpl; intros H;
    try discriminate H; auto.
Qed.

Lemma is_nan_false (x : float) : is_nan x = false -> Prim2SF x <> S754_nan.
Proof.
  unfold is_nan. rewrite FloatAxioms.eqb_spec. intros H E. rewrite E in H. discriminate H.
Qed.

(** On numbers, [y < x] is the negation of [x <= y]. *)
Lemma ltb_negb_leb (x y : float) :
  is_nan x = false -> is_nan y = false -> (y <? x) = negb (x <=? y).
Proof.
  intros Hx Hy. rewrite ltb_spec, leb_spec. unfold SFltb, SFleb.
  rewrite (SFcompare_antisym (Prim2SF x) (Prim2SF y)).
  destruct (SFcompare (Prim2SF x) (Prim2SF y)) as [[| |]|] eqn:E; simpl; try reflexivity.
  apply SFcompare_None in E. destruct E as [E|E].
  - exfalso. exact (is_nan_false x Hx E).
  - exfalso. exact (is_nan_false y Hy E).
Qed.

(** With or without NaN, [x <= y] excludes [y < x]. *)
Lemma leb_true_ltb_false (x y : float) : (x <=? y) = true -> (y <? x) = false.
Proof.
  rewrite ltb_spec, leb_spec. unfold SFltb, SFleb.
  rewrite (SFcompare_antisym (Prim2SF x) (Prim2SF y)).
  destruct (SFcompare (Prim2SF x) (Prim2SF y)) as [[| |]|]; simpl; congruence.
Qed.

(** [round_half_even num den] is within half a unit of [num / den]. *)
Lemma round_half_even_nearest (num den : Z) :
  (0 < den)%Z ->
  (2 * Z.abs (num - den * round_half_even num den) <= den)%Z.
Proof.
  intros Hden. unfold round_half_even.
  pose proof (Z.div_mod num den ltac:(lia)) as Hdm.
  pose proof (Z.mod_pos_bound num den Hden) as Hr.
  remember (num / den)%Z as q eqn:Hq. remember (num mod den)%Z as r eqn:Hrem.
  cbv zeta. clear Hq Hrem.
  assert (Hnext : (den * (q + 1) = den * q + den)%Z) by ring.
  rewrite Hdm.
  destruct (Z.compare_spec (2 * r) den) as [E|E|E].
  - destruct (Z.even q); [|rewrite Hnext].
    + replace (den * q + r - den * q)%Z with r by ring. lia.
    + replace (den * q + r - (den * q + den))%Z with (r - den)%Z by ring. lia.
  - replace (den * q + r - den * q)%Z with r by ring. lia.
  - rewrite Hnext.
    replace (den * q + r - (den * q + den))%Z with (r - den)%Z by ring. lia.
Qed.

(** Below the binary point, [scaled_nearest] is within half a unit of
    [m * 2^e * scale]: the rounding of [py_round] is to the nearest multiple of
    [1 / scale]. *)
Lemma scaled_nearest_below_point (scale : Z) (m : positive) (e : Z) :
  (e < 0)%Z ->
  (2 * Z.abs (Z.pos m * scale - 2 ^ (- e) * scaled_nearest scale m e) <= 2 ^ (- e))%Z.
Proof.
  intros He. unfold scaled_nearest.
  destruct (0 <=? e)%Z eqn:E; [apply Z.leb_le in E; lia|].
  apply round_half_even_nearest. apply Z.pow_pos_nonneg; lia.
Qed.

(** At and above the binary point the value is an integer and nothing is
    rounded. *)
Lemma scaled_nearest_above_point (scale : Z) (m : positive) (e : Z) :
  (0 <= e)%Z -> scaled_nearest scale m e = (Z.pos m * 2 ^ e * scale)%Z.
Proof.
  intros He. unfold scaled_nearest. apply Z.leb_le in He. rewrite He. reflexivity.
Qed.

(** ** Collections *)

Section Collections.
Context {A : Type}.
Implicit Types (filter : A -> bool) (set : A -> A) (coll : list A).

Lemma find_one_insert_one filter doc coll :
  find_one filter (insert_one doc coll)
  = match find_one filter coll with
    | Some found => Some found
    | None => if filter doc then Some doc else None
    end.
Proof.
  unfold find_one, insert_one.
  induction coll as [|d rest IH]; simpl.
  - reflexivity.
  - destruct (filter d); [reflexivity | exact IH].
Qed.

Lemma find_one_matches filter coll found :
  find_one filter coll = Some found -> filter found = true.
Proof.
  unfold find_one. intros H. apply find_some in H. tauto.
Qed.

Lemma update_one_absent filter set coll :
  find_one filter coll = None -> update_one filter set coll = coll.
Proof.
  unfold find_one.
  induction coll as [|d rest IH]; simpl; intros H.
  - reflexivity.
  - destruct (filter d); [discriminate H | rewrite (IH H); reflexivity].
Qed.

(** After [update_one], [find_one] returns the rewritten document, when the
    update leaves it under the filter. *)
Lemma find_one_update_one filter set coll :
  (forall d, filter d = true -> filter (set d) = true) ->
  find_one filter (update_one filter set coll) = option_map set (find_one filter coll).
Proof.
  intros Hkeep. unfold find_one.
  induction coll as [|d rest IH]; simpl.
  - reflexivity.
  - destruct (filter d) eqn:E; simpl.
    + rewrite (Hkeep d E). reflexivity.
    + rewrite E. exact IH.
Qed.

(** An update under a disjoint filter does not change what [find_one] returns. *)
Lemma find_one_update_one_disjoint filter filter' set coll :
  (forall d, filter d = true -> filter' d = false /\ filter' (set d) = false) ->
  find_one filter' (update_one filter set coll) = find_one filter' coll.
Proof.
  intros Hdisj. unfold find_one.
  induction coll as [|d rest IH]; simpl.
  - reflexivity.
  - destruct (filter d) eqn:Ef; simpl.
    + destruct (Hdisj d Ef) as [-> ->]. reflexivity.
    + destruct (filter' d); [reflexivity | exact IH].
Qed.

Lemma update_one_length filter set coll :
  List.length (update_one filter set coll) = List.length coll.
Proof.
  induction coll as [|d rest IH]; simpl.
  - reflexivity.
  - destruct (filter d); simpl; [reflexivity | rewrite IH; reflexivity].
Qed.

(** [update_one] rewrites one position at most, the one [find_one] returns. *)
Lemma update_one_nth_error filter set coll i d :
  nth_error coll i = Some d ->
  nth_error (update_one filter set coll) i = Some d
  \/ (find_one filter coll = Some d /\ nth_error (update_one filter set coll) i = Some (set d)).
Proof.
  unfold find_one.
  revert i. induction coll as [|d0 rest IH]; intros i H.
  - destruct i; discriminate H.
  - simpl. destruct (filter d0) eqn:E.
    + destruct i; simpl in *.
      * injection H as <-. right. split; reflexivity.
      * left. exact H.
    + destruct i; simpl in *.
      * left. exact H.
      * exact (IH i H).
Qed.

Lemma Forall_update_one (P : A -> Prop) filter set coll :
  Forall P coll ->
  (forall d, find_one filter coll = Some d -> P d -> P (set d)) ->
  Forall P (update_one filter set coll).
Proof.
  unfold find_one.
  induction coll as [|d rest IH]; simpl; intros Hall Hset.
  - constructor.
  - inversion Hall as [|? ? Hd Hrest]; subst.
    destruct (filter d) eqn:E.
    + constructor; [apply Hset; [reflexivity | exact Hd] | exact Hrest].
    + constructor; [exact Hd | exact (IH Hrest Hset)].
Qed.

Lemma Forall_insert_one (P : A -> Prop) doc coll :
  Forall P coll -> P doc -> Forall P (insert_one doc coll).
Proof.
  intros Hall Hdoc. unfold insert_one. apply Forall_app. split; [exact Hall|].
  constructor; [exact Hdoc | constructor].
Qed.

Lemma nth_error_insert_one doc coll i d :
  nth_error coll i = Some d -> nth_error (insert_one doc coll) i = Some d.
Proof.
  intros H. unfold insert_one. rewrite nth_error_app1; [exact H|].
  apply nth_error_Some. congruence.
Qed.

End Collections.

(** ** Geopricing *)

Lemma volume_factor_table (quantity : string) :
  dict_get String.eqb VOLUME_FACTORS quantity 1.0 = spec_volume_factor quantity.
Proof.
  unfold spec_volume_factor, VOLUME_FACTORS. cbn [dict_get].
  rewrite (String.eqb_sym "Small"), (String.eqb_sym "Medium"),
    (String.eqb_sym "Large"), (String.eqb_sym "Bulk").
  reflexivity.
Qed.

Lemma waste_surcharge_table (waste_type : string) :
  dict_get String.eqb WASTE_SURCHARGES waste_type 1.0 = spec_waste_surcharge waste_type.
Proof.
  unfold spec_waste_surcharge, WASTE_SURCHARGES. cbn [dict_get].
  rewrite (String.eqb_sym "Organic"), (String.eqb_sym "Plastic"),
    (String.eqb_sym "Metal"), (String.eqb_sym "E-Waste"), (String.eqb_sym "Mixed").
  destruct (String.eqb waste_type "Organic"); [reflexivity|].
  destruct (String.eqb waste_type "Plastic"); [reflexivity|].
  destruct (String.eqb waste_type "Metal"); [reflexivity|].
  destruct (String.eqb waste_type "E-Waste") eqn:E.
  - apply String.eqb_eq in E. subst. reflexivity.
  - reflexivity.
Qed.

Lemma outside_table_neq (name key : string) (names : list string) :
  ~ In name (key :: names) -> String.eqb name key = false /\ ~ In name names.
Proof.
  intros H. split.
  - apply String.eqb_neq. intros E. apply H. left. symmetry. exact E.
  - intros Hin. apply H. right. exact Hin.
Qed.

(** C5: the cost is [((distance_km * 10) + (volume_factor * 50)) *
    waste_surcharge] rounded to 2 decimals, with the volume factors Small 1.0,
    Medium 1.5, Large 2.0, Bulk 3.0 and the surcharges Organic, Plastic and
    Metal 1.0, Mixed 1.1, E-Waste 1.2; a quantity or category outside the
    tables contributes the factor 1.0 and raises nothing; distance 0 with
    Medium and Plastic costs 75.0, distance 10 with Bulk and E-Waste 300.0. *)
Theorem calculate_cost_formula :
  (forall distance_km quantity waste_category,
      calculate_cost distance_km quantity waste_category
      = spec_cost distance_km quantity waste_category)
  /\ (forall quantity,
        ~ In quantity ["Small"; "Medium"; "Large"; "Bulk"] ->
        dict_get String.eqb VOLUME_FACTORS quantity 1.0 = 1.0)
  /\ (forall waste_category,
        ~ In waste_category ["Organic"; "Plastic"; "Metal"; "Mixed"; "E-Waste"] ->
        dict_get String.eqb WASTE_SURCHARGES waste_category 1.0 = 1.0)
  /\ (forall distance_km quantity waste_category,
        ~ In quantity ["Small"; "Medium"; "Large"; "Bulk"] ->
        ~ In waste_category ["Organic"; "Plastic"; "Metal"; "Mixed"; "E-Waste"] ->
        calculate_cost distance_km quantity waste_category
        = py_round (((distance_km * 10) + (1.0 * 50)) * 1.0) 2)
  /\ calculate_cost 0 "Medium" "Plastic" = 75.0
  /\ calculate_cost 10 "Bulk" "E-Waste" = 300.0.
Proof.
  assert (Hvol : forall quantity,
             ~ In quantity ["Small"; "Medium"; "Large"; "Bulk"] ->
             dict_get String.eqb VOLUME_FACTORS quantity 1.0 = 1.0).
  { intros quantity H. rewrite volume_factor_table. unfold spec_volume_factor.
    repeat (apply outside_table_neq in H; destruct H as [-> H]). reflexivity. }
  assert (Hsur : forall waste_category,
             ~ In waste_category ["Organic"; "Plastic"; "Metal"; "Mixed"; "E-Waste"] ->
             dict_get String.eqb WASTE_SURCHARGES waste_category 1.0 = 1.0).
  { intros waste_category H. rewrite waste_surcharge_table. unfold spec_waste_surcharge.
    repeat (apply outside_table_neq in H; destruct H as [-> H]). reflexivity. }
  refine (conj _ (conj Hvol (conj Hsur (conj _ (conj _ _))))).
  - intros distance_km quantity waste_category. unfold calculate_cost, spec_cost.
    rewrite volume_factor_table, waste_surcharge_table. reflexivity.
  - intros distance_km quantity waste_category Hq Hw. unfold calculate_cost.
    rewrite (Hvol quantity Hq), (Hsur waste_category Hw). reflexivity.
  - vm_compute. reflexivity.
  - vm_compute. reflexivity.
Qed.

(** ** create *)

Ltac run_handler :=
  unfold bind, lift, ret, raise,
    pickup_requests_find_one, pickup_requests_insert_one, pickup_requests_update_one,
    drivers_find_one, drivers_insert_one, drivers_update_one,
    ratings_find_one, ratings_insert_one.

Section Create.
Context (math : Math) (cfg : Settings).
Context (uid : string) (t_entry t_created t_updated : datetime).
Context (request : PickupRequestCreate.t) (db : DB) (d : float).
Hypothesis distance :
  haversine_distance math (SERVICE_CENTER_LAT cfg) (SERVICE_CENTER_LNG cfg)
    (Location.latitude (PickupRequestCreate.location request))
    (Location.longitude (PickupRequestCreate.location request)) = Ok d.

Lemma create_beyond_radius :
  (SERVICE_RADIUS_KM cfg <? d) = true ->
  create_pickup_request math cfg uid t_entry t_created t_updated request db
  = (Raise OutOfServiceArea, db).
Proof.
  intros Hfar. unfold create_pickup_request. run_handler.
  rewrite distance, Hfar. reflexivity.
Qed.

Lemma create_within_radius :
  (SERVICE_RADIUS_KM cfg <? d) = false ->
  exists pickup,
    create_pickup_request math cfg uid t_entry t_created t_updated request db
    = (Ok pickup, with_new_pickup pickup db)
    /\ Pickup.id pickup = uid
    /\ Pickup.location pickup = PickupRequestCreate.location request
    /\ Pickup.status pickup = PickupStatus.PENDING
    /\ Pickup.estimated_cost pickup
       = calculate_cost d (Quantity.value (PickupRequestCreate.quantity request))
           (WasteType.value (PickupRequestCreate.waste_type request))
    /\ Pickup.distance_km pickup = py_round d 2
    /\ Pickup.status_history pickup = [StatusHistoryEntry.mk "Pending" t_entry "user"]
    /\ Pickup.price_history pickup = []
    /\ Pickup.driver_id pickup = None
    /\ Pickup.actual_cost pickup = None.
Proof.
  intros Hnear. unfold create_pickup_request. run_handler.
  rewrite distance, Hnear. eexists. split; [reflexivity|].
  repeat split.
Qed.

End Create.

(** Outside the two cases above: when a [math] function raises, create raises
    the same exception and writes nothing; when the distance is NaN, the test
    [distance_km > SERVICE_RADIUS_KM] is false and the request is stored. *)
Lemma create_math_error (math : Math) (cfg : Settings) (uid : string)
    (t_entry t_created t_updated : datetime) (request : PickupRequestCreate.t) (db : DB)
    (e : Exn) :
  haversine_distance math (SERVICE_CENTER_LAT cfg) (SERVICE_CENTER_LNG cfg)
    (Location.latitude (PickupRequestCreate.location request))
    (Location.longitude (PickupRequestCreate.location request)) = Raise e ->
  create_pickup_request math cfg uid t_entry t_created t_updated request db = (Raise e, db).
Proof.
  intros H. unfold create_pickup_request. run_handler. rewrite H. reflexivity.
Qed.

Lemma ltb_nan_r (x y : float) : is_nan y = true -> (x <? y) = false.
Proof.
  unfold is_nan. rewrite FloatAxioms.eqb_spec, ltb_spec. unfold SFeqb, SFltb.
  destruct (Prim2SF y) as [sy|sy| |sy my ey]; simpl.
  - intros H. discriminate H.
  - destruct sy; intros H; discriminate H.
  - intros _. destruct (Prim2SF x); reflexivity.
  - rewrite Z.compare_refl, Pos.compare_cont_refl.
    destruct sy; simpl; intros H; discriminate H.
Qed.

Lemma create_nan_distance (math : Math) (cfg : Settings) (uid : string)
    (t_entry t_created t_updated : datetime) (request : PickupRequestCreate.t) (db : DB)
    (d : float) :
  haversine_distance math (SERVICE_CENTER_LAT cfg) (SERVICE_CENTER_LNG cfg)
    (Location.latitude (PickupRequestCreate.location request))
    (Location.longitude (PickupRequestCreate.location request)) = Ok d ->
  is_nan d = true ->
  exists pickup,
    create_pickup_request math cfg uid t_entry t_created t_updated request db
    = (Ok pickup, with_new_pickup pickup db)
    /\ Pickup.distance_km pickup = py_round d 2.
Proof.
  intros Hd Hnan.
  destruct (create_within_radius math cfg uid t_entry t_created t_updated request db d Hd
              (ltb_nan_r (SERVICE_RADIUS_KM cfg) d Hnan))
    as (pickup & Hrun & _ & _ & _ & _ & Hdist & _).
  exists pickup. auto.
Qed.

(** The last steps of the haversine formula: the distance is the earth radius
    6371 times the central angle [2 * atan2(sqrt a, sqrt (1 - a))]. *)
Lemma haversine_distance_radius (math : Math) (lat1 lon1 lat2 lon2 d : float) :
  haversine_distance math lat1 lon1 lat2 lon2 = Ok d ->
  exists a ra rb angle,
    sqrt math a = Ok ra /\ sqrt math (1 - a) = Ok rb /\ atan2 math ra rb = Ok angle
    /\ d = 6371 * (2 * angle).
Proof.
  unfold haversine_distance, bindR. intros H.
  repeat match type of H with
         | match ?r with Ok _ => _ | Raise _ => _ end = _ =>
             let E := fresh "E" in destruct r eqn:E; [|discriminate H]
         end.
  injection H as <-. eauto 10.
Qed.

(** C7: for an input in the service area, create builds a request with status
    Pending, the estimated cost and the distance of the geopricing computation
    on the input location, and a status history of exactly one entry, Pending
    by "user"; the route asks for no admin, so the call succeeds whatever the
    Authorization header and whatever the token verification answers. *)
Theorem create_constructs_pending_request
    (math : Math) (cfg : Settings) (auth : Auth) (header : option string)
    (uid : string) (clock : nat -> datetime)
    (request : PickupRequestCreate.t) (db : DB) (d : float) :
  PickupRequestCreate.validate request = Ok request ->
  haversine_distance math (SERVICE_CENTER_LAT cfg) (SERVICE_CENTER_LNG cfg)
    (Location.latitude (PickupRequestCreate.location request))
    (Location.longitude (PickupRequestCreate.location request)) = Ok d ->
  (d <=? SERVICE_RADIUS_KM cfg) = true ->
  exists pickup,
    create_pickup_request math cfg uid (clock 0%nat) (clock 1%nat) (clock 2%nat) request db
    = (Ok pickup, with_new_pickup pickup db)
    /\ Pickup.status pickup = PickupStatus.PENDING
    /\ Pickup.estimated_cost pickup
       = calculate_cost d (Quantity.value (PickupRequestCreate.quantity request))
           (WasteType.value (PickupRequestCreate.waste_type request))
    /\ Pickup.distance_km pickup = py_round d 2
    /\ Pickup.status_history pickup
       = [{| StatusHistoryEntry.status := PickupStatus.value PickupStatus.PENDING;
             StatusHistoryEntry.at_ := clock 0%nat;
             StatusHistoryEntry.by_ := "user" |}]
    /\ serve math cfg auth
         {| authorization := header; uuid4 := uid; utcnow := clock;
            call := POST_pickup_requests request |} db
       = (Ok (PickupResponse pickup), with_new_pickup pickup db).
Proof.
  intros Hbody Hd Hnear.
  apply leb_true_ltb_false in Hnear.
  destruct (create_within_radius math cfg uid (clock 0%nat) (clock 1%nat) (clock 2%nat)
              request db d Hd Hnear)
    as (pickup & Hrun & _ & _ & Hstatus & Hcost & Hdist & Hhist & _).
  exists pickup. repeat (split; [assumption|]).
  unfold serve. cbn [call uuid4 utcnow authorization].
  unfold bind, lift. rewrite Hbody, Hrun. reflexivity.
Qed.

(** The service area, when the distance computation returns: with [d] what
    [haversine_distance] returns for the hub and the input location, create
    succeeds when [d] is at most the radius, and the stored distance is then
    [d] rounded to 2 decimals; it fails with OutOfServiceArea and leaves the
    database as it was when [d] exceeds the radius; and, [d] and the radius
    being numbers, it succeeds exactly when [d] is at most the radius. *)
Theorem create_service_area
    (math : Math) (cfg : Settings)
    (uid : string) (t_entry t_created t_updated : datetime)
    (request : PickupRequestCreate.t) (db : DB) (d : float) :
  haversine_distance math (SERVICE_CENTER_LAT cfg) (SERVICE_CENTER_LNG cfg)
    (Location.latitude (PickupRequestCreate.location request))
    (Location.longitude (PickupRequestCreate.location request)) = Ok d ->
  let outcome := create_pickup_request math cfg uid t_entry t_created t_updated request db in
  ((d <=? SERVICE_RADIUS_KM cfg) = true ->
   exists pickup,
     outcome = (Ok pickup, with_new_pickup pickup db)
     /\ Pickup.distance_km pickup = py_round d 2
     /\ find_one (pickup_id_is uid) (pickup_requests (snd outcome))
        = match find_one (pickup_id_is uid) (pickup_requests db) with
          | Some earlier => Some earlier
          | None => Some (PickupRequest.dict pickup)
          end)
  /\ ((SERVICE_RADIUS_KM cfg <? d) = true -> outcome = (Raise OutOfServiceArea, db))
  /\ (is_nan d = false -> is_nan (SERVICE_RADIUS_KM cfg) = false ->
      (is_ok (fst outcome) = true <-> (d <=? SERVICE_RADIUS_KM cfg) = true))
  /\ (exists a ra rb angle,
        sqrt math a = Ok ra /\ sqrt math (1 - a) = Ok rb /\ atan2 math ra rb = Ok angle
        /\ d = 6371 * (2 * angle)).
Proof.
  intros Hd outcome.
  assert (Hfar : (SERVICE_RADIUS_KM cfg <? d) = true ->
                 outcome = (Raise OutOfServiceArea, db)).
  { exact (create_beyond_radius math cfg uid t_entry t_created t_updated request db d Hd). }
  assert (Hnear : (d <=? SERVICE_RADIUS_KM cfg) = true ->
                  exists pickup,
                    outcome = (Ok pickup, with_new_pickup pickup db)
                    /\ Pickup.id pickup = uid
                    /\ Pickup.distance_km pickup = py_round d 2).
  { intros Hle.
    destruct (create_within_radius math cfg uid t_entry t_created t_updated request db d Hd
                (leb_true_ltb_false _ _ Hle))
      as (pickup & Hrun & Hid & _ & _ & _ & Hdist & _).
    exists pickup. auto. }
  refine (conj _ (conj Hfar (conj _ (haversine_distance_radius _ _ _ _ _ _ Hd)))).
  - intros Hle. destruct (Hnear Hle) as (pickup & Hrun & Hid & Hdist).
    exists pickup. split; [exact Hrun|]. split; [exact Hdist|].
    rewrite Hrun. simpl. rewrite find_one_insert_one.
    destruct (find_one (pickup_id_is uid) (pickup_requests db)); [reflexivity|].
    unfold pickup_id_is. simpl. rewrite Hid, String.eqb_refl. reflexivity.
  - intros Hnum Hradius.
    pose proof (ltb_negb_leb d (SERVICE_RADIUS_KM cfg) Hnum Hradius) as Hcmp.
    destruct (d <=? SERVICE_RADIUS_KM cfg) eqn:Hle.
    + destruct (Hnear eq_refl) as (pickup & -> & _). simpl. tauto.
    + rewrite (Hfar Hcmp). simpl. split; intros H; discriminate H.
Qed.

(** ** update *)

Lemma pickup_id_is_apply (request_id : string) (set : PickupSet.t) (doc : PickupDoc) :
  pickup_id_is request_id (PickupSet.apply set doc) = pickup_id_is request_id doc.
Proof. reflexivity. Qed.

Lemma find_one_with_pickup_set (request_id : string) (set : PickupSet.t) (db : DB) :
  find_one (pickup_id_is request_id) (pickup_requests (with_pickup_set request_id set db))
  = option_map (PickupSet.apply set) (find_one (pickup_id_is request_id) (pickup_requests db)).
Proof.
  unfold with_pickup_set. simpl. apply find_one_update_one.
  intros doc H. rewrite pickup_id_is_apply. exact H.
Qed.

Lemma parse_status (doc : PickupDoc) (pickup : PickupRequest.t) :
  PickupRequest.parse doc = Ok pickup ->
  Pickup.status pickup = Pickup.status doc
  /\ Pickup.status_history pickup = Pickup.status_history doc
  /\ Pickup.price_history pickup = Pickup.price_history doc
  /\ Pickup.actual_cost pickup = Pickup.actual_cost doc
  /\ Pickup.driver_id pickup = Pickup.driver_id doc
  /\ Pickup.id pickup = Pickup.id doc
  /\ Pickup.payment_status doc = Some (Pickup.payment_status pickup).
Proof.
  unfold PickupRequest.parse. destruct (Pickup.payment_status doc) eqn:E; intros H.
  - injection H as <-. simpl. repeat split.
  - discriminate H.
Qed.

Lemma parse_dict (doc : PickupDoc) (pickup : PickupRequest.t) :
  PickupRequest.parse doc = Ok pickup -> PickupRequest.dict pickup = doc.
Proof.
  unfold PickupRequest.parse, PickupRequest.dict.
  destruct doc. simpl. destruct payment_status; intros H.
  - injection H as <-. reflexivity.
  - discriminate H.
Qed.

(** The table of the code is the transition table of the specification. *)
Lemma valid_transitions_table (current requested : PickupStatus.t) :
  py_in PickupStatus.eqb requested (dict_get PickupStatus.eqb valid_transitions current [])
  = spec_allowed_edge current requested.
Proof. destruct current, requested; reflexivity. Qed.

(** What [update_pickup_request] does, path by path. *)
Lemma update_pickup_request_paths (request_id : string) (update : PickupRequestUpdate.t)
    (admin : AdminUser.t) (t_status t_price t_updated : datetime) (db : DB) :
  update_pickup_request request_id update admin t_status t_price t_updated db
  = match find_one (pickup_id_is request_id) (pickup_requests db) with
    | None => (Raise NotFound_pickup, db)
    | Some existing =>
        match PickupRequest.parse existing with
        | Raise e => (Raise e, db)
        | Ok pickup =>
            match validate_status_transition pickup update admin t_status with
            | Raise e => (Raise e, db)
            | Ok status_part =>
                let set := update_set pickup update admin t_price t_updated status_part in
                (PickupRequest.parse (PickupSet.apply set existing),
                 with_pickup_set request_id set db)
            end
        end
    end.
Proof.
  unfold update_pickup_request. run_handler.
  destruct (find_one (pickup_id_is request_id) (pickup_requests db)) as [existing|] eqn:Efind;
    [|reflexivity].
  destruct (PickupRequest.parse existing) as [pickup|e]; [|reflexivity].
  destruct (validate_status_transition pickup update admin t_status) as [status_part|e];
    [|reflexivity].
  cbv zeta. fold (update_set pickup update admin t_price t_updated status_part).
  match goal with
  | |- context [find_one ?f (pickup_requests ?d)] =>
      change d with (with_pickup_set request_id
                       (update_set pickup update admin t_price t_updated status_part) db)
  end.
  rewrite find_one_with_pickup_set, Efind. reflexivity.
Qed.

Lemma validate_status_transition_requested (pickup : PickupRequest.t)
    (update : PickupRequestUpdate.t) (admin : AdminUser.t) (t_entry : datetime)
    (requested : PickupStatus.t) :
  PickupRequestUpdate.status update = Provided (Some requested) ->
  validate_status_transition pickup update admin t_entry
  = if spec_allowed_edge (Pickup.status pickup) requested
    then Ok (Some requested,
             Some (Pickup.status_history pickup
                     ++ [StatusHistoryEntry.mk (PickupStatus.value requested) t_entry
                           (AdminUser.username admin)])%list)
    else Raise (InvalidTransition (Pickup.status pickup) requested).
Proof.
  intros Hstatus. unfold validate_status_transition. rewrite Hstatus.
  rewrite valid_transitions_table.
  destruct (spec_allowed_edge (Pickup.status pickup) requested); reflexivity.
Qed.

(** The response model accepts the rewritten document unless the body provides
    [payment_status: null]. *)
Lemma parse_apply_update_set (existing : PickupDoc) (pickup : PickupRequest.t)
    (update : PickupRequestUpdate.t) (admin : AdminUser.t) (t_price t_updated : datetime)
    (status_part : option PickupStatus.t * option (list StatusHistoryEntry.t)) :
  PickupRequest.parse existing = Ok pickup ->
  PickupRequestUpdate.payment_status update <> Provided None ->
  exists updated,
    PickupRequest.parse
      (PickupSet.apply (update_set pickup update admin t_price t_updated status_part) existing)
    = Ok updated.
Proof.
  intros Hparse Hpay. apply parse_status in Hparse.
  destruct Hparse as (_ & _ & _ & _ & _ & _ & Hps).
  unfold PickupRequest.parse. simpl.
  destruct (PickupRequestUpdate.payment_status update) as [|[ps|]]; simpl.
  - rewrite Hps. eauto.
  - eauto.
  - contradiction Hpay. reflexivity.
Qed.

(** The status check of update, for a stored request that loads: an update
    that asks for a status succeeds only when (current status, requested
    status) is one of Pending to Approved, Approved to Assigned, Assigned to
    Completed, and then the request has the requested status; on every other
    pair it fails with InvalidTransition, returns no request and leaves the
    database as it was. *)
Theorem update_status_transition
    (request_id : string) (update : PickupRequestUpdate.t) (admin : AdminUser.t)
    (t_status t_price t_updated : datetime) (db : DB) (requested : PickupStatus.t) :
  PickupRequestUpdate.status update = Provided (Some requested) ->
  let outcome := update_pickup_request request_id update admin t_status t_price t_updated db in
  (forall updated db',
      outcome = (Ok updated, db') ->
      exists existing,
        find_one (pickup_id_is request_id) (pickup_requests db) = Some existing
        /\ spec_allowed_edge (Pickup.status existing) requested = true
        /\ Pickup.status updated = requested)
  /\ (forall existing pickup,
        find_one (pickup_id_is request_id) (pickup_requests db) = Some existing ->
        PickupRequest.parse existing = Ok pickup ->
        spec_allowed_edge (Pickup.status existing) requested = false ->
        outcome = (Raise (InvalidTransition (Pickup.status existing) requested), db))
  /\ (forall existing pickup,
        find_one (pickup_id_is request_id) (pickup_requests db) = Some existing ->
        PickupRequest.parse existing = Ok pickup ->
        spec_allowed_edge (Pickup.status existing) requested = true ->
        PickupRequestUpdate.payment_status update <> Provided None ->
        exists updated,
          fst outcome = Ok updated /\ Pickup.status updated = requested).
Proof.
  intros Hstatus outcome. subst outcome. rewrite update_pickup_request_paths.
  destruct (find_one (pickup_id_is request_id) (pickup_requests db)) as [existing|] eqn:Efind.
  2:{ repeat split; intros; congruence. }
  destruct (PickupRequest.parse existing) as [pickup|e] eqn:Eparse.
  2:{ repeat split; intros; congruence. }
  pose proof (parse_status _ _ Eparse) as (Hst & _).
  rewrite (validate_status_transition_requested pickup update admin t_status requested Hstatus).
  rewrite Hst.
  destruct (spec_allowed_edge (Pickup.status existing) requested) eqn:Eedge.
  - cbv zeta. split; [|split].
    + intros updated db' H. injection H as Hparse _. exists existing.
      split; [reflexivity|]. split; [exact Eedge|].
      apply parse_status in Hparse. destruct Hparse as (-> & _). reflexivity.
    + intros existing' pickup' H _ Hno. injection H as <-. congruence.
    + intros existing' pickup' H _ _ Hpay. injection H as <-.
      destruct (parse_apply_update_set existing pickup update admin t_price t_updated
                  (Some requested,
                   Some (Pickup.status_history pickup
                           ++ [StatusHistoryEntry.mk (PickupStatus.value requested) t_status
                                 (AdminUser.username admin)])%list)
                  Eparse Hpay) as (updated & Hparse).
      exists updated. simpl. split; [exact Hparse|].
      apply parse_status in Hparse. destruct Hparse as (-> & _). reflexivity.
  - split; [|split].
    + intros updated db' H. discriminate H.
    + intros existing' pickup' H _ _. injection H as <-. reflexivity.
    + intros existing' pickup' H _ Hyes. injection H as <-. congruence.
Qed.

(** The checks of update come before its write: when the request is not
    found, when the stored request does not load, and when the status check
    rejects the body (InvalidTransition, or a status of null) the database is
    the one before the call, both histories included; so it is whenever the
    handler raises an HTTPException.  On every path the database is either
    untouched or holds the one complete write of the call. *)
Theorem update_failure_writes_nothing
    (request_id : string) (update : PickupRequestUpdate.t) (admin : AdminUser.t)
    (t_status t_price t_updated : datetime) (db : DB) :
  let outcome := update_pickup_request request_id update admin t_status t_price t_updated db in
  (find_one (pickup_id_is request_id) (pickup_requests db) = None ->
   outcome = (Raise NotFound_pickup, db))
  /\ (forall existing e,
        find_one (pickup_id_is request_id) (pickup_requests db) = Some existing ->
        PickupRequest.parse existing = Raise e ->
        outcome = (Raise e, db))
  /\ (forall existing pickup e,
        find_one (pickup_id_is request_id) (pickup_requests db) = Some existing ->
        PickupRequest.parse existing = Ok pickup ->
        validate_status_transition pickup update admin t_status = Raise e ->
        outcome = (Raise e, db))
  /\ (forall status_code detail,
        fst outcome = Raise (HTTPException status_code detail) -> snd outcome = db)
  /\ (snd outcome = db
      \/ exists existing pickup status_part,
           find_one (pickup_id_is request_id) (pickup_requests db) = Some existing
           /\ PickupRequest.parse existing = Ok pickup
           /\ validate_status_transition pickup update admin t_status = Ok status_part
           /\ snd outcome
              = with_pickup_set request_id
                  (update_set pickup update admin t_price t_updated status_part) db).
Proof.
  intros outcome. subst outcome. rewrite update_pickup_request_paths.
  destruct (find_one (pickup_id_is request_id) (pickup_requests db)) as [existing|] eqn:Efind.
  2:{ repeat split; try (intros; congruence); auto. }
  destruct (PickupRequest.parse existing) as [pickup|e] eqn:Eparse.
  2:{ split; [intros H; discriminate H|]. split.
      { intros existing' e' H He. injection H as <-. congruence. }
      split; [intros existing' pickup' e' H He; injection H as <-; congruence|].
      split; [reflexivity | left; reflexivity]. }
  destruct (validate_status_transition pickup update admin t_status) as [status_part|e] eqn:Eval.
  2:{ split; [intros H; discriminate H|]. split.
      { intros existing' e' H He. injection H as <-. congruence. }
      split; [intros existing' pickup' e' H He Hv; injection H as <-; congruence|].
      split; [reflexivity | left; reflexivity]. }
  cbv zeta. split; [intros H; discriminate H|]. split.
  { intros existing' e' H He. injection H as <-. congruence. }
  split; [intros existing' pickup' e' H He Hv; injection H as <-; congruence|].
  split.
  - intros status_code detail H. simpl in H. exfalso. revert H.
    unfold PickupRequest.parse.
    destruct (Pickup.payment_status _); intros H; discriminate H.
  - right. exists existing, pickup, status_part. auto.
Qed.

(** C10: when an update that provides [actual_cost: null] succeeds, the stored
    actual cost is null and the price history is the one before the call: the
    cost is cleared and no entry records it.  The price history gains an entry
    only when the body provides an actual cost that is not null. *)
Theorem update_null_actual_cost
    (request_id : string) (update : PickupRequestUpdate.t) (admin : AdminUser.t)
    (t_status t_price t_updated : datetime) (db db' : DB) (updated : PickupRequest.t) :
  update_pickup_request request_id update admin t_status t_price t_updated db
  = (Ok updated, db') ->
  exists existing,
    find_one (pickup_id_is request_id) (pickup_requests db) = Some existing
    /\ find_one (pickup_id_is request_id) (pickup_requests db')
       = Some (PickupRequest.dict updated)
    /\ match PickupRequestUpdate.actual_cost update with
       | Provided None =>
           Pickup.actual_cost updated = None
           /\ Pickup.price_history updated = Pickup.price_history existing
       | Provided (Some cost) =>
           Pickup.actual_cost updated = Some cost
           /\ Pickup.price_history updated
              = (Pickup.price_history existing
                   ++ [PriceHistoryEntry.mk cost t_price (AdminUser.username admin)])%list
       | Unset =>
           Pickup.actual_cost updated = Pickup.actual_cost existing
           /\ Pickup.price_history updated = Pickup.price_history existing
       end.
Proof.
  rewrite update_pickup_request_paths.
  destruct (find_one (pickup_id_is request_id) (pickup_requests db)) as [existing|] eqn:Efind;
    [|intros H; discriminate H].
  destruct (PickupRequest.parse existing) as [pickup|e] eqn:Eparse; [|intros H; discriminate H].
  destruct (validate_status_transition pickup update admin t_status) as [status_part|e];
    [|intros H; discriminate H].
  cbv zeta. intros H. injection H as Hparse <-.
  exists existing. split; [reflexivity|]. split.
  - rewrite find_one_with_pickup_set, Efind. simpl.
    rewrite (parse_dict _ _ Hparse). reflexivity.
  - pose proof (parse_status _ _ Eparse) as (_ & _ & Hprice & _).
    apply parse_status in Hparse. destruct Hparse as (_ & _ & -> & -> & _).
    simpl. unfold track_price_change.
    destruct (PickupRequestUpdate.actual_cost update) as [|[cost|]]; simpl;
      rewrite ?Hprice; split; reflexivity.
Qed.

(** ** assign_driver *)

(** What [assign_driver] does, path by path, in the order of its checks. *)
Lemma assign_driver_paths (request_id driver_id : string) (admin : AdminUser.t)
    (t_entry t_updated : datetime) (db : DB) :
  assign_driver request_id driver_id admin t_entry t_updated db
  = match find_one (pickup_id_is request_id) (pickup_requests db) with
    | None => (Raise NotFound_pickup, db)
    | Some pickup =>
        match PickupRequest.parse pickup with
        | Raise e => (Raise e, db)
        | Ok pickup_obj =>
            if PickupStatus.eqb (Pickup.status pickup_obj) PickupStatus.APPROVED
            then
              match find_one (driver_id_is driver_id) (drivers db) with
              | None => (Raise NotFound_driver, db)
              | Some driver_obj =>
                  if DriverStatus.eqb (Driver.status driver_obj) DriverStatus.AVAILABLE
                  then
                    let set := assign_set pickup_obj driver_id admin t_entry t_updated in
                    (PickupRequest.parse (PickupSet.apply set pickup),
                     with_assignment request_id driver_id set db)
                  else (Raise DriverUnavailable, db)
              end
            else (Raise InvalidState_assign, db)
        end
    end.
Proof.
  unfold assign_driver. run_handler.
  destruct (find_one (pickup_id_is request_id) (pickup_requests db)) as [pickup|] eqn:Efind;
    [|reflexivity].
  destruct (PickupRequest.parse pickup) as [pickup_obj|e]; [|reflexivity].
  destruct (PickupStatus.eqb (Pickup.status pickup_obj) PickupStatus.APPROVED);
    [|reflexivity].
  cbn [negb].
  destruct (find_one (driver_id_is driver_id) (drivers db)) as [driver_obj|]; [|reflexivity].
  destruct (DriverStatus.eqb (Driver.status driver_obj) DriverStatus.AVAILABLE);
    [|reflexivity].
  cbn [negb]. cbv zeta. cbn [pickup_requests drivers ratings].
  fold (assign_set pickup_obj driver_id admin t_entry t_updated).
  fold (with_assignment request_id driver_id
          (assign_set pickup_obj driver_id admin t_entry t_updated) db).
  rewrite find_one_update_one by (intros doc H; rewrite pickup_id_is_apply; exact H).
  rewrite Efind. reflexivity.
Qed.

Lemma PickupStatus_eqb_eq (a b : PickupStatus.t) : PickupStatus.eqb a b = true <-> a = b.
Proof. destruct a, b; simpl; split; intros H; try reflexivity; discriminate H. Qed.

Lemma DriverStatus_eqb_eq (a b : DriverStatus.t) : DriverStatus.eqb a b = true <-> a = b.
Proof. destruct a, b; simpl; split; intros H; try reflexivity; discriminate H. Qed.

Lemma PickupStatus_eqb_neq (a b : PickupStatus.t) : a <> b -> PickupStatus.eqb a b = false.
Proof.
  intros H. destruct (PickupStatus.eqb a b) eqn:E; [|reflexivity].
  apply PickupStatus_eqb_eq in E. contradiction.
Qed.

Lemma DriverStatus_eqb_neq (a b : DriverStatus.t) : a <> b -> DriverStatus.eqb a b = false.
Proof.
  intros H. destruct (DriverStatus.eqb a b) eqn:E; [|reflexivity].
  apply DriverStatus_eqb_eq in E. contradiction.
Qed.

Lemma driver_id_is_with_status (driver_id : string) (s : DriverStatus.t) (doc : Driver.t) :
  driver_id_is driver_id (Driver.with_status s doc) = driver_id_is driver_id doc.
Proof. reflexivity. Qed.

(** C3, as the code has it: the checks of assign_driver run in the order
    request found, request Approved, driver found, driver Available, and the
    first that fails names the error: NotFound when the request id is absent;
    and, for a stored request that loads as a PickupRequest, InvalidState when
    it is not Approved, whether the driver exists or not; NotFound when it is
    Approved and the driver id is absent; DriverUnavailable when it is
    Approved and the driver is not Available.  Each of these failures leaves
    the database as it was, and so does every other exception the handler
    raises (a stored request that does not load raises what the model
    raises, before any check).  When the call succeeds the request was
    Approved and the driver Available, and afterwards the request is Assigned
    with the given driver id and the driver is Busy. *)
Theorem assign_driver_checks
    (request_id driver_id : string) (admin : AdminUser.t)
    (t_entry t_updated : datetime) (db : DB) :
  let outcome := assign_driver request_id driver_id admin t_entry t_updated db in
  (find_one (pickup_id_is request_id) (pickup_requests db) = None ->
   outcome = (Raise NotFound_pickup, db))
  /\ (forall pickup pickup_obj,
        find_one (pickup_id_is request_id) (pickup_requests db) = Some pickup ->
        PickupRequest.parse pickup = Ok pickup_obj ->
        Pickup.status pickup <> PickupStatus.APPROVED ->
        outcome = (Raise InvalidState_assign, db))
  /\ (forall pickup pickup_obj,
        find_one (pickup_id_is request_id) (pickup_requests db) = Some pickup ->
        PickupRequest.parse pickup = Ok pickup_obj ->
        Pickup.status pickup = PickupStatus.APPROVED ->
        find_one (driver_id_is driver_id) (drivers db) = None ->
        outcome = (Raise NotFound_driver, db))
  /\ (forall pickup pickup_obj driver,
        find_one (pickup_id_is request_id) (pickup_requests db) = Some pickup ->
        PickupRequest.parse pickup = Ok pickup_obj ->
        Pickup.status pickup = PickupStatus.APPROVED ->
        find_one (driver_id_is driver_id) (drivers db) = Some driver ->
        Driver.status driver <> DriverStatus.AVAILABLE ->
        outcome = (Raise DriverUnavailable, db))
  /\ (forall pickup pickup_obj driver,
        find_one (pickup_id_is request_id) (pickup_requests db) = Some pickup ->
        PickupRequest.parse pickup = Ok pickup_obj ->
        Pickup.status pickup = PickupStatus.APPROVED ->
        find_one (driver_id_is driver_id) (drivers db) = Some driver ->
        Driver.status driver = DriverStatus.AVAILABLE ->
        exists updated, fst outcome = Ok updated)
  /\ (forall updated db',
        outcome = (Ok updated, db') ->
        (exists pickup driver,
            find_one (pickup_id_is request_id) (pickup_requests db) = Some pickup
            /\ Pickup.status pickup = PickupStatus.APPROVED
            /\ find_one (driver_id_is driver_id) (drivers db) = Some driver
            /\ Driver.status driver = DriverStatus.AVAILABLE)
        /\ Pickup.status updated = PickupStatus.ASSIGNED
        /\ Pickup.driver_id updated = Some driver_id
        /\ find_one (pickup_id_is request_id) (pickup_requests db')
           = Some (PickupRequest.dict updated)
        /\ exists driver',
             find_one (driver_id_is driver_id) (drivers db') = Some driver'
             /\ Driver.id driver' = driver_id
             /\ Driver.status driver' = DriverStatus.BUSY)
  /\ (forall e, fst outcome = Raise e -> snd outcome = db)
  /\ (forall pickup e,
        find_one (pickup_id_is request_id) (pickup_requests db) = Some pickup ->
        PickupRequest.parse pickup = Raise e ->
        outcome = (Raise e, db)).
Proof.
  intros outcome. subst outcome. rewrite assign_driver_paths.
  destruct (find_one (pickup_id_is request_id) (pickup_requests db)) as [pickup|] eqn:Efind.
  2:{ repeat split; intros; congruence. }
  destruct (PickupRequest.parse pickup) as [pickup_obj|e] eqn:Eparse.
  2:{ repeat split; intros; congruence. }
  pose proof (parse_status _ _ Eparse) as (Hst & _).
  rewrite Hst.
  destruct (PickupStatus.eqb (Pickup.status pickup) PickupStatus.APPROVED) eqn:Eappr.
  2:{ assert (Hne : Pickup.status pickup <> PickupStatus.APPROVED).
      { intros H. rewrite H in Eappr. discriminate Eappr. }
      repeat split; intros; try congruence;
        repeat match goal with H : Some _ = Some _ |- _ => injection H as <- end;
        contradiction. }
  apply PickupStatus_eqb_eq in Eappr.
  destruct (find_one (driver_id_is driver_id) (drivers db)) as [driver|] eqn:Edriver.
  2:{ repeat split; intros; congruence. }
  destruct (DriverStatus.eqb (Driver.status driver) DriverStatus.AVAILABLE) eqn:Eavail.
  2:{ assert (Hne : Driver.status driver <> DriverStatus.AVAILABLE).
      { intros H. rewrite H in Eavail. discriminate Eavail. }
      repeat split; intros; try congruence;
        repeat match goal with H : Some _ = Some _ |- _ => injection H as <- end;
        contradiction. }
  apply DriverStatus_eqb_eq in Eavail.
  cbv zeta.
  assert (Hok : exists updated,
             PickupRequest.parse
               (PickupSet.apply (assign_set pickup_obj driver_id admin t_entry t_updated) pickup)
             = Ok updated).
  { unfold PickupRequest.parse. simpl.
    pose proof (parse_status _ _ Eparse) as (_ & _ & _ & _ & _ & _ & Hps).
    rewrite Hps. eauto. }
  destruct Hok as (updated & Hparse). rewrite Hparse.
  split; [intros H; discriminate H|].
  split; [intros p po H _ Hne; injection H as <-; contradiction|].
  split; [intros p po H _ _ Hd; discriminate Hd|].
  split; [intros p po dr H _ _ Hd Hne; injection Hd as <-; contradiction|].
  split; [intros p po dr _ _ _ _ _; exists updated; reflexivity|].
  split; [|split; [intros e H; discriminate H | intros p e H Hp; congruence]].
  intros updated' db' H. injection H as <- <-.
  split; [exists pickup, driver; auto|].
  pose proof (parse_status _ _ Hparse) as (Hst' & _ & _ & _ & Hdrv & _).
  split; [rewrite Hst'; reflexivity|].
  split; [rewrite Hdrv; reflexivity|].
  split.
  - unfold with_assignment. cbn [pickup_requests].
    rewrite find_one_update_one by (intros doc Hd; rewrite pickup_id_is_apply; exact Hd).
    rewrite Efind. simpl. rewrite (parse_dict _ _ Hparse). reflexivity.
  - exists (Driver.with_status DriverStatus.BUSY driver).
    unfold with_assignment. cbn [drivers].
    rewrite find_one_update_one
      by (intros doc Hd; rewrite driver_id_is_with_status; exact Hd).
    rewrite Edriver. split; [reflexivity|]. split; [|reflexivity].
    apply find_one_matches in Edriver. unfold driver_id_is in Edriver.
    apply String.eqb_eq in Edriver. exact Edriver.
Qed.

(** ** Ratings *)

Lemma PickupStatus_value_eqb (a b : PickupStatus.t) :
  String.eqb (PickupStatus.value a) (PickupStatus.value b) = PickupStatus.eqb a b.
Proof. destruct a, b; reflexivity. Qed.

(** What [POST /ratings] does, path by path, in the order of its checks. *)
Lemma post_ratings_paths (uid : string) (t_created : datetime) (body : RatingCreate.t) (db : DB) :
  post_ratings uid t_created body db
  = if score_in_range body
    then
      match find_one (pickup_id_is (RatingCreate.pickup_id body)) (pickup_requests db) with
      | None => (Raise NotFound_pickup, db)
      | Some pickup =>
          if PickupStatus.eqb (Pickup.status pickup) PickupStatus.COMPLETED
          then
            match find_one (rating_pickup_id_is (RatingCreate.pickup_id body)) (ratings db) with
            | Some _ => (Raise Conflict, db)
            | None =>
                let new_rating :=
                  Rating.mk uid (RatingCreate.pickup_id body) (RatingCreate.rating body)
                    (RatingCreate.feedback body) t_created in
                (Ok new_rating, with_new_rating new_rating db)
            end
          else (Raise InvalidState_rating, db)
      end
    else (Raise ValidationError_rating, db).
Proof.
  unfold post_ratings, create_rating, RatingCreate.validate, Rating.create, score_in_range.
  run_handler.
  destruct ((1 <=? RatingCreate.rating body) && (RatingCreate.rating body <=? 5))%Z eqn:E;
    [|reflexivity].
  cbv beta.
  destruct (find_one (pickup_id_is (RatingCreate.pickup_id body)) (pickup_requests db))
    as [pickup|]; [|reflexivity].
  rewrite PickupStatus_value_eqb.
  destruct (PickupStatus.eqb (Pickup.status pickup) PickupStatus.COMPLETED); [|reflexivity].
  cbn [negb].
  destruct (find_one (rating_pickup_id_is (RatingCreate.pickup_id body)) (ratings db));
    [reflexivity|].
  rewrite E. reflexivity.
Qed.

(** ** What a request can do to the database *)

Lemma snd_bind_ret {A B : Type} (c : M A) (f : A -> B) (db : DB) :
  snd (bind c (fun a => ret (f a)) db) = snd (c db).
Proof.
  unfold bind, ret. destruct (c db) as [[a|e] db']; reflexivity.
Qed.

Lemma bind_lift {A B : Type} (r : Result A) (k : A -> M B) (db : DB) :
  bind (lift r) k db = match r with Ok a => k a db | Raise e => (Raise e, db) end.
Proof. unfold bind, lift. destruct r; reflexivity. Qed.

Lemma create_pickup_request_effect (math : Math) (cfg : Settings) (uid : string)
    (t_entry t_created t_updated : datetime) (request : PickupRequestCreate.t) (db : DB) :
  step_effect db
    (snd (create_pickup_request math cfg uid t_entry t_created t_updated request db)).
Proof.
  destruct (haversine_distance math (SERVICE_CENTER_LAT cfg) (SERVICE_CENTER_LNG cfg)
              (Location.latitude (PickupRequestCreate.location request))
              (Location.longitude (PickupRequestCreate.location request)))
    as [d|e] eqn:Hd.
  - destruct (SERVICE_RADIUS_KM cfg <? d) eqn:Hcmp.
    + rewrite (create_beyond_radius math cfg uid t_entry t_created t_updated request db d Hd Hcmp).
      apply effect_none.
    + destruct (create_within_radius math cfg uid t_entry t_created t_updated request db d
                  Hd Hcmp) as (pickup & -> & _ & _ & Hst & _ & _ & Hhist & _).
      simpl. exact (effect_create db pickup t_entry Hst Hhist).
  - unfold create_pickup_request. run_handler. rewrite Hd. apply effect_none.
Qed.

Lemma update_pickup_request_effect (request_id : string) (update : PickupRequestUpdate.t)
    (admin : AdminUser.t) (t_status t_price t_updated : datetime) (db : DB) :
  step_effect db
    (snd (update_pickup_request request_id update admin t_status t_price t_updated db)).
Proof.
  rewrite update_pickup_request_paths.
  destruct (find_one (pickup_id_is request_id) (pickup_requests db)) as [existing|] eqn:Efind;
    [|apply effect_none].
  destruct (PickupRequest.parse existing) as [pickup|e] eqn:Eparse; [|apply effect_none].
  destruct (validate_status_transition pickup update admin t_status) as [status_part|e] eqn:Ev;
    [|apply effect_none].
  simpl. exact (effect_update db request_id existing pickup update admin
                  t_status t_price t_updated status_part Efind Eparse Ev).
Qed.

Lemma assign_driver_effect (request_id driver_id : string) (admin : AdminUser.t)
    (t_entry t_updated : datetime) (db : DB) :
  step_effect db (snd (assign_driver request_id driver_id admin t_entry t_updated db)).
Proof.
  rewrite assign_driver_paths.
  destruct (find_one (pickup_id_is request_id) (pickup_requests db)) as [existing|] eqn:Efind;
    [|apply effect_none].
  destruct (PickupRequest.parse existing) as [pickup_obj|e] eqn:Eparse; [|apply effect_none].
  destruct (PickupStatus.eqb (Pickup.status pickup_obj) PickupStatus.APPROVED) eqn:Eappr;
    [|apply effect_none].
  destruct (find_one (driver_id_is driver_id) (drivers db)) as [driver|] eqn:Edriver;
    [|apply effect_none].
  destruct (DriverStatus.eqb (Driver.status driver) DriverStatus.AVAILABLE) eqn:Eavail;
    [|apply effect_none].
  simpl. apply PickupStatus_eqb_eq in Eappr. apply DriverStatus_eqb_eq in Eavail.
  pose proof (parse_status _ _ Eparse) as (Hst & _). rewrite Hst in Eappr.
  exact (effect_assign db request_id driver_id existing pickup_obj driver admin
           t_entry t_updated Efind Eparse Eappr Edriver Eavail).
Qed.

Lemma post_ratings_effect (uid : string) (t_created : datetime) (body : RatingCreate.t) (db : DB) :
  step_effect db (snd (post_ratings uid t_created body db)).
Proof.
  rewrite post_ratings_paths.
  destruct (score_in_range body); [|apply effect_none].
  destruct (find_one (pickup_id_is (RatingCreate.pickup_id body)) (pickup_requests db))
    as [pickup|] eqn:Efind; [|apply effect_none].
  destruct (PickupStatus.eqb (Pickup.status pickup) PickupStatus.COMPLETED) eqn:Edone;
    [|apply effect_none].
  destruct (find_one (rating_pickup_id_is (RatingCreate.pickup_id body)) (ratings db))
    eqn:Erated; [apply effect_none|].
  simpl. apply PickupStatus_eqb_eq in Edone.
  exact (effect_new_rating db
           (Rating.mk uid (RatingCreate.pickup_id body) (RatingCreate.rating body)
              (RatingCreate.feedback body) t_created)
           pickup Efind Edone Erated).
Qed.

(** Every request is one of the effects. *)
Lemma exec_effect (math : Math) (cfg : Settings) (auth : Auth) (req : Request) (db : DB) :
  step_effect db (exec math cfg auth req db).
Proof.
  unfold exec, serve. destruct (call req) as [body|rid update|rid did|driver|did status|body].
  - rewrite bind_lift. destruct (PickupRequestCreate.validate body) as [request|e];
      [|apply effect_none].
    rewrite snd_bind_ret. apply create_pickup_request_effect.
  - rewrite bind_lift. destruct (get_current_admin auth (authorization req)) as [admin|e];
      [|apply effect_none].
    rewrite snd_bind_ret. apply update_pickup_request_effect.
  - rewrite bind_lift. destruct (get_current_admin auth (authorization req)) as [admin|e];
      [|apply effect_none].
    rewrite snd_bind_ret. apply assign_driver_effect.
  - rewrite bind_lift. destruct (get_current_admin auth (authorization req)) as [admin|e];
      [|apply effect_none].
    rewrite snd_bind_ret. unfold create_driver. run_handler. simpl.
    apply (effect_new_driver db). reflexivity.
  - rewrite bind_lift. destruct (get_current_admin auth (authorization req)) as [admin|e];
      [|apply effect_none].
    rewrite snd_bind_ret. unfold update_driver_status. run_handler.
    destruct (find_one (driver_id_is did) (drivers db)); [|apply effect_none].
    simpl. apply (effect_driver_status db did status).
  - rewrite snd_bind_ret. apply post_ratings_effect.
Qed.

(** ** The status history *)

Lemma validate_status_transition_ok (pickup : PickupRequest.t)
    (update : PickupRequestUpdate.t) (admin : AdminUser.t) (t_entry : datetime)
    (status_part : option PickupStatus.t * option (list StatusHistoryEntry.t)) :
  validate_status_transition pickup update admin t_entry = Ok status_part ->
  (PickupRequestUpdate.status update = Unset /\ status_part = (None, None))
  \/ exists requested,
       PickupRequestUpdate.status update = Provided (Some requested)
       /\ spec_allowed_edge (Pickup.status pickup) requested = true
       /\ status_part
          = (Some requested,
             Some (Pickup.status_history pickup
                     ++ [StatusHistoryEntry.mk (PickupStatus.value requested) t_entry
                           (AdminUser.username admin)])%list).
Proof.
  destruct (PickupRequestUpdate.status update) as [|[requested|]] eqn:Hstatus.
  - unfold validate_status_transition. rewrite Hstatus. intros H. injection H as <-.
    left. split; reflexivity.
  - rewrite (validate_status_transition_requested pickup update admin t_entry requested Hstatus).
    destruct (spec_allowed_edge (Pickup.status pickup) requested) eqn:Eedge; intros H.
    + injection H as <-. right. exists requested. auto.
    + discriminate H.
  - unfold validate_status_transition. rewrite Hstatus. intros H. discriminate H.
Qed.

(** An accepted update keeps the history and the status, or appends the entry
    of the requested status and sets the status to it. *)
Lemma update_set_history (existing : PickupDoc) (pickup : PickupRequest.t)
    (update : PickupRequestUpdate.t) (admin : AdminUser.t)
    (t_status t_price t_updated : datetime)
    (status_part : option PickupStatus.t * option (list StatusHistoryEntry.t)) :
  PickupRequest.parse existing = Ok pickup ->
  validate_status_transition pickup update admin t_status = Ok status_part ->
  let doc' := PickupSet.apply
                (update_set pickup update admin t_price t_updated status_part) existing in
  (PickupRequestUpdate.status update = Unset
   /\ Pickup.status doc' = Pickup.status existing
   /\ Pickup.status_history doc' = Pickup.status_history existing)
  \/ exists requested,
       PickupRequestUpdate.status update = Provided (Some requested)
       /\ spec_allowed_edge (Pickup.status existing) requested = true
       /\ Pickup.status doc' = requested
       /\ Pickup.status_history doc'
          = (Pickup.status_history existing
               ++ [StatusHistoryEntry.mk (PickupStatus.value requested) t_status
                     (AdminUser.username admin)])%list.
Proof.
  intros Hparse Hv doc'. subst doc'.
  pose proof (parse_status _ _ Hparse) as (Hst & Hhist & _).
  destruct (validate_status_transition_ok _ _ _ _ _ Hv) as [[Hun ->]|(requested & Hreq & Hedge & ->)].
  - left. split; [exact Hun|]. split; reflexivity.
  - right. exists requested. rewrite <- Hst, <- Hhist. auto.
Qed.

Lemma step_mirrors (db db' : DB) :
  step_effect db db' ->
  Forall history_mirrors_status (pickup_requests db) ->
  Forall history_mirrors_status (pickup_requests db').
Proof.
  intros Hstep Hall.
  destruct Hstep as [ | pickup t_entry Hst Hhist
                    | rid existing pickup update admin t_status t_price t_updated sp
                        Hfind Hparse Hv
                    | rid did existing pickup_obj driver admin t_entry t_updated
                        Hfind Hparse Happr Hdriver Havail
                    | driver Havail | did status | rating pickup Hfind Hdone Hrated ];
    try exact Hall.
  - simpl. apply Forall_insert_one; [exact Hall|].
    exists [], (StatusHistoryEntry.mk "Pending" t_entry "user"). simpl.
    rewrite Hhist, Hst. split; reflexivity.
  - simpl. apply Forall_update_one; [exact Hall|].
    intros d Hd Hinv. rewrite Hfind in Hd. injection Hd as <-.
    destruct (update_set_history existing pickup update admin t_status t_price t_updated sp
                Hparse Hv) as [(_ & Hst & Hhist)|(requested & _ & _ & Hst & Hhist)].
    + destruct Hinv as (earlier & last & Hh & Hl).
      exists earlier, last. rewrite Hhist, Hst. auto.
    + eexists. eexists. rewrite Hhist, Hst. split; reflexivity.
  - simpl. apply Forall_update_one; [exact Hall|].
    intros d Hd Hinv. rewrite Hfind in Hd. injection Hd as <-.
    eexists. eexists. simpl. split; reflexivity.
Qed.

Lemma step_extends (db db' : DB) (i : nat) (doc : PickupDoc) :
  step_effect db db' ->
  nth_error (pickup_requests db) i = Some doc ->
  exists doc',
    nth_error (pickup_requests db') i = Some doc'
    /\ Pickup.id doc' = Pickup.id doc
    /\ history_extends doc doc'.
Proof.
  intros Hstep Hnth.
  assert (Hsame : exists doc',
             nth_error (pickup_requests db) i = Some doc'
             /\ Pickup.id doc' = Pickup.id doc /\ history_extends doc doc').
  { exists doc. split; [exact Hnth|]. split; [reflexivity|]. left. reflexivity. }
  destruct Hstep as [ | pickup t_entry Hst Hhist
                    | rid existing pickup update admin t_status t_price t_updated sp
                        Hfind Hparse Hv
                    | rid did existing pickup_obj driver admin t_entry t_updated
                        Hfind Hparse Happr Hdriver Havail
                    | driver Havail | did status | rating pickup Hfind Hdone Hrated ];
    try exact Hsame.
  - exists doc. simpl. split; [apply nth_error_insert_one; exact Hnth|].
    split; [reflexivity | left; reflexivity].
  - simpl.
    destruct (update_one_nth_error (pickup_id_is rid)
                (PickupSet.apply (update_set pickup update admin t_price t_updated sp))
                (pickup_requests db) i doc Hnth) as [Hkeep|[Hd Hset]].
    + exists doc. split; [exact Hkeep|]. split; [reflexivity | left; reflexivity].
    + rewrite Hfind in Hd. injection Hd as <-.
      eexists. split; [exact Hset|]. split; [reflexivity|].
      destruct (update_set_history existing pickup update admin t_status t_price t_updated sp
                  Hparse Hv) as [(_ & _ & Hhist)|(requested & _ & _ & _ & Hhist)].
      * left. exact Hhist.
      * right. eexists. exact Hhist.
  - simpl.
    destruct (update_one_nth_error (pickup_id_is rid)
                (PickupSet.apply (assign_set pickup_obj did admin t_entry t_updated))
                (pickup_requests db) i doc Hnth) as [Hkeep|[Hd Hset]].
    + exists doc. split; [exact Hkeep|]. split; [reflexivity | left; reflexivity].
    + rewrite Hfind in Hd. injection Hd as <-.
      eexists. split; [exact Hset|]. split; [reflexivity|].
      right. eexists. simpl.
      pose proof (parse_status _ _ Hparse) as (_ & -> & _). reflexivity.
Qed.

(** A property that every effect preserves holds after every run. *)
Lemma run_preserves (math : Math) (cfg : Settings) (auth : Auth) (P : DB -> Prop) :
  (forall db db', step_effect db db' -> P db -> P db') ->
  forall reqs db, P db -> P (run math cfg auth reqs db).
Proof.
  intros Hstep reqs. unfold run.
  induction reqs as [|req rest IH]; intros db Hdb; simpl.
  - exact Hdb.
  - apply IH. apply (Hstep db); [apply exec_effect | exact Hdb].
Qed.

(** C2: after any sequence of requests, every stored pickup request has a
    status history that is not empty and whose last entry records the current
    status; a request leaves every stored history as it was or appends one
    entry to it, at the same position of the collection; an accepted status
    update appends exactly the entry of the requested status, an accepted
    assignment exactly the entry of Assigned, each to the history of the stored
    request (the stored document is the returned request), and an update
    without a status leaves the history as it was. *)
Theorem status_history_invariant (math : Math) (cfg : Settings) (auth : Auth) :
  (forall reqs doc,
      In doc (pickup_requests (run math cfg auth reqs empty_db)) ->
      Pickup.status_history doc <> []
      /\ option_map StatusHistoryEntry.status
           (List.last (map Some (Pickup.status_history doc)) None)
         = Some (PickupStatus.value (Pickup.status doc)))
  /\ (forall req db i doc,
        nth_error (pickup_requests db) i = Some doc ->
        exists doc',
          nth_error (pickup_requests (exec math cfg auth req db)) i = Some doc'
          /\ Pickup.id doc' = Pickup.id doc
          /\ history_extends doc doc')
  /\ (forall request_id update admin t_status t_price t_updated db updated db',
        update_pickup_request request_id update admin t_status t_price t_updated db
        = (Ok updated, db') ->
        exists existing,
          find_one (pickup_id_is request_id) (pickup_requests db) = Some existing
          /\ find_one (pickup_id_is request_id) (pickup_requests db')
             = Some (PickupRequest.dict updated)
          /\ match PickupRequestUpdate.status update with
             | Provided (Some requested) =>
                 Pickup.status updated = requested
                 /\ Pickup.status_history updated
                    = (Pickup.status_history existing
                         ++ [StatusHistoryEntry.mk (PickupStatus.value requested) t_status
                               (AdminUser.username admin)])%list
             | _ =>
                 Pickup.status updated = Pickup.status existing
                 /\ Pickup.status_history updated = Pickup.status_history existing
             end)
  /\ (forall request_id driver_id admin t_entry t_updated db updated db',
        assign_driver request_id driver_id admin t_entry t_updated db = (Ok updated, db') ->
        exists existing,
          find_one (pickup_id_is request_id) (pickup_requests db) = Some existing
          /\ find_one (pickup_id_is request_id) (pickup_requests db')
             = Some (PickupRequest.dict updated)
          /\ Pickup.status updated = PickupStatus.ASSIGNED
          /\ Pickup.status_history updated
             = (Pickup.status_history existing
                  ++ [StatusHistoryEntry.mk (PickupStatus.value PickupStatus.ASSIGNED) t_entry
                        (AdminUser.username admin)])%list).
Proof.
  split; [|split; [|split]].
  - intros reqs doc Hin.
    assert (Hall : Forall history_mirrors_status
                     (pickup_requests (run math cfg auth reqs empty_db))).
    { apply (run_preserves math cfg auth
               (fun db => Forall history_mirrors_status (pickup_requests db))).
      - exact step_mirrors.
      - constructor. }
    rewrite Forall_forall in Hall. destruct (Hall doc Hin) as (earlier & last & Hh & Hl).
    rewrite Hh. split.
    + intros H. apply app_eq_nil in H. destruct H as [_ H]. discriminate H.
    + rewrite map_app. simpl. rewrite last_last. simpl. rewrite Hl. reflexivity.
  - intros req db i doc Hnth.
    exact (step_extends db (exec math cfg auth req db) i doc (exec_effect math cfg auth req db) Hnth).
  - intros request_id update admin t_status t_price t_updated db updated db'.
    rewrite update_pickup_request_paths.
    destruct (find_one (pickup_id_is request_id) (pickup_requests db)) as [existing|] eqn:Efind;
      [|intros H; discriminate H].
    destruct (PickupRequest.parse existing) as [pickup|e] eqn:Eparse;
      [|intros H; discriminate H].
    destruct (validate_status_transition pickup update admin t_status) as [sp|e] eqn:Ev;
      [|intros H; discriminate H].
    cbv zeta. intros H. injection H as Hparse <-.
    exists existing. split; [reflexivity|]. split.
    + rewrite find_one_with_pickup_set, Efind. simpl.
      rewrite (parse_dict _ _ Hparse). reflexivity.
    + pose proof (parse_status _ _ Hparse) as (-> & -> & _).
      destruct (update_set_history existing pickup update admin t_status t_price t_updated sp
                  Eparse Ev) as [(-> & Hst & Hhist)|(requested & -> & _ & Hst & Hhist)];
        split; assumption.
  - intros request_id driver_id admin t_entry t_updated db updated db'.
    rewrite assign_driver_paths.
    destruct (find_one (pickup_id_is request_id) (pickup_requests db)) as [existing|] eqn:Efind;
      [|intros H; discriminate H].
    destruct (PickupRequest.parse existing) as [pickup_obj|e] eqn:Eparse;
      [|intros H; discriminate H].
    destruct (PickupStatus.eqb (Pickup.status pickup_obj) PickupStatus.APPROVED);
      [|intros H; discriminate H].
    destruct (find_one (driver_id_is driver_id) (drivers db)) as [driver|];
      [|intros H; discriminate H].
    destruct (DriverStatus.eqb (Driver.status driver) DriverStatus.AVAILABLE);
      [|intros H; discriminate H].
    cbv zeta. intros H. injection H as Hparse <-.
    exists existing. split; [reflexivity|]. split.
    + simpl.
      rewrite find_one_update_one by (intros x Hx; rewrite pickup_id_is_apply; exact Hx).
      rewrite Efind. simpl. rewrite (parse_dict _ _ Hparse). reflexivity.
    + pose proof (parse_status _ _ Hparse) as (-> & -> & _).
      pose proof (parse_status _ _ Eparse) as (_ & Hh & _).
      simpl. rewrite Hh. split; reflexivity.
Qed.

(** ** One rating per pickup request *)

Lemma find_one_rating_absent (pickup_id : string) (coll : list Rating.t) :
  find_one (rating_pickup_id_is pickup_id) coll = None ->
  ~ In pickup_id (map Rating.pickup_id coll).
Proof.
  unfold find_one. intros Hnone Hin. apply in_map_iff in Hin.
  destruct Hin as (r & Hr & Hin).
  pose proof (find_none _ _ Hnone r Hin) as Hf. unfold rating_pickup_id_is in Hf.
  rewrite Hr, String.eqb_refl in Hf. discriminate Hf.
Qed.

(** A write to the pickup request under another id leaves this one alone. *)
Lemma find_one_other_pickup (rid pickup_id : string) (set : PickupSet.t) (coll : list PickupDoc) :
  rid <> pickup_id ->
  find_one (pickup_id_is pickup_id) (update_one (pickup_id_is rid) (PickupSet.apply set) coll)
  = find_one (pickup_id_is pickup_id) coll.
Proof.
  intros Hne. apply find_one_update_one_disjoint.
  intros d Hd. rewrite pickup_id_is_apply. unfold pickup_id_is in *.
  apply String.eqb_eq in Hd. rewrite Hd.
  assert (H : String.eqb rid pickup_id = false) by (apply String.eqb_neq; exact Hne).
  rewrite H. split; reflexivity.
Qed.

(** Completed is terminal: no effect changes the status of a Completed request. *)
Lemma step_completed (db db' : DB) (pickup_id : string) (pickup : PickupDoc) :
  step_effect db db' ->
  find_one (pickup_id_is pickup_id) (pickup_requests db) = Some pickup ->
  Pickup.status pickup = PickupStatus.COMPLETED ->
  exists pickup',
    find_one (pickup_id_is pickup_id) (pickup_requests db') = Some pickup'
    /\ Pickup.status pickup' = PickupStatus.COMPLETED.
Proof.
  intros Hstep Hfound Hdone.
  destruct Hstep as [ | new_pickup t_entry Hst Hhist
                    | rid existing pickup_obj update admin t_status t_price t_updated sp
                        Hfind Hparse Hv
                    | rid did existing pickup_obj driver admin t_entry t_updated
                        Hfind Hparse Happr Hdriver Havail
                    | driver Havail | did status | rating rated_pickup Hfind Hrdone Hrated ];
    try (exists pickup; split; assumption).
  - exists pickup. simpl. rewrite find_one_insert_one, Hfound. auto.
  - simpl. destruct (String.eqb rid pickup_id) eqn:Eid.
    + apply String.eqb_eq in Eid. subst rid.
      rewrite Hfound in Hfind. injection Hfind as <-.
      rewrite find_one_update_one by (intros d Hd; rewrite pickup_id_is_apply; exact Hd).
      rewrite Hfound. simpl. eexists. split; [reflexivity|].
      destruct (update_set_history pickup pickup_obj update admin t_status t_price t_updated sp
                  Hparse Hv) as [(_ & Hst & _)|(requested & _ & Hedge & _)].
      * rewrite Hst. exact Hdone.
      * rewrite Hdone in Hedge. destruct requested; discriminate Hedge.
    + apply String.eqb_neq in Eid. rewrite (find_one_other_pickup _ _ _ _ Eid).
      exists pickup. auto.
  - simpl. destruct (String.eqb rid pickup_id) eqn:Eid.
    + apply String.eqb_eq in Eid. subst rid.
      rewrite Hfound in Hfind. injection Hfind as <-.
      rewrite Hdone in Happr. discriminate Happr.
    + apply String.eqb_neq in Eid. rewrite (find_one_other_pickup _ _ _ _ Eid).
      exists pickup. auto.
Qed.

Lemma step_ratings (db db' : DB) :
  step_effect db db' ->
  ratings db' = ratings db
  \/ exists rating,
       ratings db' = insert_one rating (ratings db)
       /\ find_one (rating_pickup_id_is (Rating.pickup_id rating)) (ratings db) = None.
Proof.
  intros Hstep. destruct Hstep; try (left; reflexivity).
  right. eexists. split; [reflexivity | assumption].
Qed.

Lemma step_rated (pickup_id : string) (db db' : DB) :
  step_effect db db' -> rated pickup_id db -> rated pickup_id db'.
Proof.
  intros Hstep [(pickup & Hfound & Hdone) (rating & Hrating)]. split.
  - exact (step_completed db db' pickup_id pickup Hstep Hfound Hdone).
  - destruct (step_ratings db db' Hstep) as [->|(new_rating & -> & _)].
    + exists rating. exact Hrating.
    + exists rating. rewrite find_one_insert_one, Hrating. reflexivity.
Qed.

Lemma NoDup_snoc {A : Type} (x : A) (xs : list A) :
  ~ In x xs -> NoDup xs -> NoDup (xs ++ [x]).
Proof.
  induction xs as [|y ys IH]; intros Hout Hnodup; simpl.
  - constructor; [intros [] | constructor].
  - inversion Hnodup as [|? ? Hy Hrest]; subst. constructor.
    + intros Hin. apply in_app_or in Hin. destruct Hin as [Hin|[Hin|[]]].
      * exact (Hy Hin).
      * apply Hout. left. symmetry. exact Hin.
    + apply IH; [|exact Hrest]. intros Hin. apply Hout. right. exact Hin.
Qed.

Lemma step_one_rating (db db' : DB) :
  step_effect db db' ->
  NoDup (map Rating.pickup_id (ratings db)) ->
  NoDup (map Rating.pickup_id (ratings db')).
Proof.
  intros Hstep Hnodup.
  destruct (step_ratings db db' Hstep) as [->|(new_rating & -> & Habsent)].
  - exact Hnodup.
  - unfold insert_one. rewrite map_app. simpl.
    apply NoDup_snoc; [|exact Hnodup].
    apply find_one_rating_absent. exact Habsent.
Qed.

Lemma score_in_range_true (body : RatingCreate.t) :
  score_in_range body = true <-> (1 <= RatingCreate.rating body <= 5)%Z.
Proof.
  unfold score_in_range. rewrite andb_true_iff, Z.leb_le, Z.leb_le. tauto.
Qed.

Lemma score_in_range_false (body : RatingCreate.t) :
  score_in_range body = false <-> (RatingCreate.rating body < 1 \/ 5 < RatingCreate.rating body)%Z.
Proof.
  unfold score_in_range. rewrite andb_false_iff, Z.leb_gt, Z.leb_gt. tauto.
Qed.

(** C6, as the code has it: the body is validated before the handler runs, so
    a score outside 1..5 fails with ValidationError whatever the pickup id;
    with a score in 1..5, rating creation fails with NotFound when the pickup
    id is unknown, with InvalidState when the pickup is not Completed, with
    Conflict when a rating of that pickup id exists, and succeeds otherwise,
    storing the rating.  Every failure leaves the database as it was.  After a
    success, whatever requests follow, every call for the same pickup id with a
    score in 1..5 fails with Conflict; and after any sequence of requests no
    two ratings have the same pickup id. *)
Theorem rating_creation_checks (math : Math) (cfg : Settings) (auth : Auth) :
  (forall uid t_created body db,
      (RatingCreate.rating body < 1 \/ 5 < RatingCreate.rating body)%Z ->
      post_ratings uid t_created body db = (Raise ValidationError_rating, db))
  /\ (forall uid t_created body db,
        (1 <= RatingCreate.rating body <= 5)%Z ->
        find_one (pickup_id_is (RatingCreate.pickup_id body)) (pickup_requests db) = None ->
        post_ratings uid t_created body db = (Raise NotFound_pickup, db))
  /\ (forall uid t_created body db pickup,
        (1 <= RatingCreate.rating body <= 5)%Z ->
        find_one (pickup_id_is (RatingCreate.pickup_id body)) (pickup_requests db)
        = Some pickup ->
        Pickup.status pickup <> PickupStatus.COMPLETED ->
        post_ratings uid t_created body db = (Raise InvalidState_rating, db))
  /\ (forall uid t_created body db pickup existing,
        (1 <= RatingCreate.rating body <= 5)%Z ->
        find_one (pickup_id_is (RatingCreate.pickup_id body)) (pickup_requests db)
        = Some pickup ->
        Pickup.status pickup = PickupStatus.COMPLETED ->
        find_one (rating_pickup_id_is (RatingCreate.pickup_id body)) (ratings db)
        = Some existing ->
        post_ratings uid t_created body db = (Raise Conflict, db))
  /\ (forall uid t_created body db pickup,
        (1 <= RatingCreate.rating body <= 5)%Z ->
        find_one (pickup_id_is (RatingCreate.pickup_id body)) (pickup_requests db)
        = Some pickup ->
        Pickup.status pickup = PickupStatus.COMPLETED ->
        find_one (rating_pickup_id_is (RatingCreate.pickup_id body)) (ratings db) = None ->
        exists new_rating,
          post_ratings uid t_created body db = (Ok new_rating, with_new_rating new_rating db)
          /\ Rating.pickup_id new_rating = RatingCreate.pickup_id body
          /\ Rating.rating new_rating = RatingCreate.rating body
          /\ find_one (rating_pickup_id_is (RatingCreate.pickup_id body))
               (ratings (with_new_rating new_rating db))
             = Some new_rating)
  /\ (forall uid t_created body db new_rating db1 reqs uid' t_created' body',
        post_ratings uid t_created body db = (Ok new_rating, db1) ->
        RatingCreate.pickup_id body' = RatingCreate.pickup_id body ->
        (1 <= RatingCreate.rating body' <= 5)%Z ->
        post_ratings uid' t_created' body' (run math cfg auth reqs db1)
        = (Raise Conflict, run math cfg auth reqs db1))
  /\ (forall reqs,
        NoDup (map Rating.pickup_id (ratings (run math cfg auth reqs empty_db)))).
Proof.
  split; [|split; [|split; [|split; [|split; [|split]]]]].
  - intros uid t_created body db Hout. rewrite post_ratings_paths.
    apply score_in_range_false in Hout. rewrite Hout. reflexivity.
  - intros uid t_created body db Hin Hnone. rewrite post_ratings_paths.
    apply score_in_range_true in Hin. rewrite Hin, Hnone. reflexivity.
  - intros uid t_created body db pickup Hin Hfound Hne. rewrite post_ratings_paths.
    apply score_in_range_true in Hin. rewrite Hin, Hfound.
    rewrite (PickupStatus_eqb_neq _ _ Hne). reflexivity.
  - intros uid t_created body db pickup existing Hin Hfound Hdone Hrated.
    rewrite post_ratings_paths.
    apply score_in_range_true in Hin. rewrite Hin, Hfound, Hdone, Hrated. reflexivity.
  - intros uid t_created body db pickup Hin Hfound Hdone Hnone. rewrite post_ratings_paths.
    apply score_in_range_true in Hin. rewrite Hin, Hfound, Hdone, Hnone.
    eexists. split; [reflexivity|]. simpl. split; [reflexivity|]. split; [reflexivity|].
    rewrite find_one_insert_one, Hnone. unfold rating_pickup_id_is. simpl.
    rewrite String.eqb_refl. reflexivity.
  - intros uid t_created body db new_rating db1 reqs uid' t_created' body' Hrun Hsame Hin.
    assert (Hrated : rated (RatingCreate.pickup_id body) db1).
    { revert Hrun. rewrite post_ratings_paths.
      destruct (score_in_range body); [|intros H; discriminate H].
      destruct (find_one (pickup_id_is (RatingCreate.pickup_id body)) (pickup_requests db))
        as [pickup|] eqn:Efind; [|intros H; discriminate H].
      destruct (PickupStatus.eqb (Pickup.status pickup) PickupStatus.COMPLETED) eqn:Edone;
        [|intros H; discriminate H].
      destruct (find_one (rating_pickup_id_is (RatingCreate.pickup_id body)) (ratings db))
        eqn:Erated; [intros H; discriminate H|].
      cbv zeta. intros H. injection H as <- <-. split.
      - exists pickup. split; [exact Efind|]. apply PickupStatus_eqb_eq. exact Edone.
      - eexists. simpl. rewrite find_one_insert_one, Erated.
        unfold rating_pickup_id_is. simpl. rewrite String.eqb_refl. reflexivity. }
    assert (Hlater : rated (RatingCreate.pickup_id body) (run math cfg auth reqs db1)).
    { apply (run_preserves math cfg auth (rated (RatingCreate.pickup_id body)));
        [|exact Hrated].
      intros d d'. apply step_rated. }
    destruct Hlater as [(pickup & Hfound & Hdone) (rating & Hrating)].
    rewrite post_ratings_paths. apply score_in_range_true in Hin.
    rewrite Hin, Hsame, Hfound, Hdone, Hrating. reflexivity.
  - intros reqs.
    apply (run_preserves math cfg auth
             (fun db => NoDup (map Rating.pickup_id (ratings db)))).
    + exact step_one_rating.
    + constructor.
Qed.

(** * The routes as a whole *)

(** ** What a request writes, route by route *)

Lemma create_pickup_request_call (math : Math) (cfg : Settings) (uid : string)
    (t_entry t_created t_updated : datetime) (request body : PickupRequestCreate.t) (db : DB) :
  call_effect db (POST_pickup_requests body)
    (snd (create_pickup_request math cfg uid t_entry t_created t_updated request db)).
Proof.
  destruct (haversine_distance math (SERVICE_CENTER_LAT cfg) (SERVICE_CENTER_LNG cfg)
              (Location.latitude (PickupRequestCreate.location request))
              (Location.longitude (PickupRequestCreate.location request)))
    as [d|e] eqn:Hd.
  - destruct (SERVICE_RADIUS_KM cfg <? d) eqn:Hcmp.
    + rewrite (create_beyond_radius math cfg uid t_entry t_created t_updated request db d Hd Hcmp).
      apply call_refused.
    + destruct (create_within_radius math cfg uid t_entry t_created t_updated request db d
                  Hd Hcmp)
        as (pickup & -> & _ & _ & Hst & _ & _ & Hhist & Hprice & Hdriver & Hcost).
      simpl. apply call_create.
      refine (conj Hst (conj Hdriver (conj Hcost (conj Hprice _)))).
      exists t_entry. exact Hhist.
  - rewrite (create_math_error math cfg uid t_entry t_created t_updated request db e Hd).
    apply call_refused.
Qed.

Lemma update_pickup_request_call (request_id : string) (update : PickupRequestUpdate.t)
    (admin : AdminUser.t) (t_status t_price t_updated : datetime) (db : DB) :
  call_effect db (PUT_pickup_request request_id update)
    (snd (update_pickup_request request_id update admin t_status t_price t_updated db)).
Proof.
  rewrite update_pickup_request_paths.
  destruct (find_one (pickup_id_is request_id) (pickup_requests db)) as [existing|] eqn:Efind;
    [|apply call_refused].
  destruct (PickupRequest.parse existing) as [pickup|e] eqn:Eparse; [|apply call_refused].
  destruct (validate_status_transition pickup update admin t_status) as [status_part|e] eqn:Ev;
    [|apply call_refused].
  simpl. exact (call_update db request_id update existing pickup admin
                  t_status t_price t_updated status_part Efind Eparse Ev).
Qed.

Lemma assign_driver_call (request_id driver_id : string) (admin : AdminUser.t)
    (t_entry t_updated : datetime) (db : DB) :
  call_effect db (POST_assign_driver request_id driver_id)
    (snd (assign_driver request_id driver_id admin t_entry t_updated db)).
Proof.
  rewrite assign_driver_paths.
  destruct (find_one (pickup_id_is request_id) (pickup_requests db)) as [existing|] eqn:Efind;
    [|apply call_refused].
  destruct (PickupRequest.parse existing) as [pickup_obj|e] eqn:Eparse; [|apply call_refused].
  destruct (PickupStatus.eqb (Pickup.status pickup_obj) PickupStatus.APPROVED) eqn:Eappr;
    [|apply call_refused].
  destruct (find_one (driver_id_is driver_id) (drivers db)) as [driver|] eqn:Edriver;
    [|apply call_refused].
  destruct (DriverStatus.eqb (Driver.status driver) DriverStatus.AVAILABLE) eqn:Eavail;
    [|apply call_refused].
  simpl. apply PickupStatus_eqb_eq in Eappr. apply DriverStatus_eqb_eq in Eavail.
  pose proof (parse_status _ _ Eparse) as (Hst & _). rewrite Hst in Eappr.
  exact (call_assign db request_id driver_id existing pickup_obj driver admin
           t_entry t_updated Efind Eparse Eappr Edriver Eavail).
Qed.

Lemma post_ratings_call (uid : string) (t_created : datetime) (body : RatingCreate.t) (db : DB) :
  call_effect db (POST_ratings body) (snd (post_ratings uid t_created body db)).
Proof.
  rewrite post_ratings_paths.
  destruct (score_in_range body) eqn:Erange; [|apply call_refused].
  destruct (find_one (pickup_id_is (RatingCreate.pickup_id body)) (pickup_requests db))
    as [pickup|] eqn:Efind; [|apply call_refused].
  destruct (PickupStatus.eqb (Pickup.status pickup) PickupStatus.COMPLETED) eqn:Edone;
    [|apply call_refused].
  destruct (find_one (rating_pickup_id_is (RatingCreate.pickup_id body)) (ratings db))
    eqn:Erated; [apply call_refused|].
  simpl. apply PickupStatus_eqb_eq in Edone. apply score_in_range_true in Erange.
  exact (call_new_rating db body
           (Rating.mk uid (RatingCreate.pickup_id body) (RatingCreate.rating body)
              (RatingCreate.feedback body) t_created)
           pickup eq_refl Erange Efind Edone Erated).
Qed.

(** Every request is refused before it writes, or writes what its route
    writes. *)
Lemma serve_effect (math : Math) (cfg : Settings) (auth : Auth) (req : Request) (db : DB) :
  call_effect db (call req) (exec math cfg auth req db).
Proof.
  unfold exec, serve. destruct (call req) as [body|rid update|rid did|driver|did status|body].
  - rewrite bind_lift. destruct (PickupRequestCreate.validate body) as [request|e];
      [|apply call_refused].
    rewrite snd_bind_ret. apply create_pickup_request_call.
  - rewrite bind_lift. destruct (get_current_admin auth (authorization req)) as [admin|e];
      [|apply call_refused].
    rewrite snd_bind_ret. apply update_pickup_request_call.
  - rewrite bind_lift. destruct (get_current_admin auth (authorization req)) as [admin|e];
      [|apply call_refused].
    rewrite snd_bind_ret. apply assign_driver_call.
  - rewrite bind_lift. destruct (get_current_admin auth (authorization req)) as [admin|e];
      [|apply call_refused].
    rewrite snd_bind_ret. unfold create_driver. run_handler. simpl.
    apply (call_new_driver db). reflexivity.
  - rewrite bind_lift. destruct (get_current_admin auth (authorization req)) as [admin|e];
      [|apply call_refused].
    rewrite snd_bind_ret. unfold update_driver_status. run_handler.
    destruct (find_one (driver_id_is did) (drivers db)) as [driver|] eqn:Edriver;
      [|apply call_refused].
    simpl. exact (call_driver_status db did status driver Edriver).
  - rewrite snd_bind_ret. apply post_ratings_call.
Qed.

(** A property of the database that every allowed request keeps holds after
    every sequence of allowed requests. *)
Lemma run_invariant (math : Math) (cfg : Settings) (auth : Auth)
    (allowed : ApiCall -> bool) (P : DB -> Prop) :
  (forall db c db', allowed c = true -> call_effect db c db' -> P db -> P db') ->
  forall reqs db,
    forallb (fun req => allowed (call req)) reqs = true ->
    P db -> P (run math cfg auth reqs db).
Proof.
  intros Hstep reqs. unfold run.
  induction reqs as [|req rest IH]; intros db Hall Hdb; simpl.
  - exact Hdb.
  - simpl in Hall. apply andb_prop in Hall. destruct Hall as [Hreq Hrest].
    apply (IH _ Hrest). apply (Hstep db (call req)); [exact Hreq | apply serve_effect | exact Hdb].
Qed.

Lemma run_invariant_all (math : Math) (cfg : Settings) (auth : Auth) (P : DB -> Prop) :
  (forall db c db', call_effect db c db' -> P db -> P db') ->
  forall reqs db, P db -> P (run math cfg auth reqs db).
Proof.
  intros Hstep reqs db Hdb.
  apply (run_invariant math cfg auth (fun _ => true) P).
  - intros db0 c db' _. apply Hstep.
  - induction reqs as [|req rest IH]; [reflexivity | exact IH].
  - exact Hdb.
Qed.

(** One request changes a stored pickup request in one of three ways, and
    leaves it at its position. *)
Lemma call_effect_pickup_at (db db' : DB) (c : ApiCall) (i : nat) (doc : PickupDoc) :
  call_effect db c db' ->
  nth_error (pickup_requests db) i = Some doc ->
  exists doc', nth_error (pickup_requests db') i = Some doc' /\ pickup_change doc doc'.
Proof.
  intros Hcall Hnth.
  assert (Hsame : exists doc',
             nth_error (pickup_requests db) i = Some doc' /\ pickup_change doc doc').
  { exists doc. split; [exact Hnth | apply change_none]. }
  destruct Hcall as [ c | body pickup Hnew
                    | rid update existing pickup admin t_status t_price t_updated sp
                        Hfind Hparse Hv
                    | rid did existing pickup_obj driver admin t_entry t_updated
                        Hfind Hparse Happr Hdriver Havail
                    | body driver Havail | did status driver Hdriver
                    | body rating pickup Hpid Hrange Hfind Hdone Hrated ];
    try exact Hsame.
  - exists doc. simpl. split; [apply nth_error_insert_one; exact Hnth | apply change_none].
  - simpl.
    destruct (update_one_nth_error (pickup_id_is rid)
                (PickupSet.apply (update_set pickup update admin t_price t_updated sp))
                (pickup_requests db) i doc Hnth) as [Hkeep|[Hd Hset]].
    + exists doc. split; [exact Hkeep | apply change_none].
    + rewrite Hfind in Hd. injection Hd as <-.
      eexists. split; [exact Hset|].
      exact (change_update existing pickup update admin t_status t_price t_updated sp Hparse Hv).
  - simpl.
    destruct (update_one_nth_error (pickup_id_is rid)
                (PickupSet.apply (assign_set pickup_obj did admin t_entry t_updated))
                (pickup_requests db) i doc Hnth) as [Hkeep|[Hd Hset]].
    + exists doc. split; [exact Hkeep | apply change_none].
    + rewrite Hfind in Hd. injection Hd as <-.
      eexists. split; [exact Hset|].
      exact (change_assign existing pickup_obj did admin t_entry t_updated Hparse Happr).
Qed.

(** A property of stored pickup requests that creation establishes and the
    two [$set] documents keep holds of every request after the call. *)
Lemma call_effect_Forall (P : PickupDoc -> Prop) (db db' : DB) (c : ApiCall) :
  (forall pickup, freshly_created pickup -> P (PickupRequest.dict pickup)) ->
  (forall doc doc', pickup_change doc doc' -> P doc -> P doc') ->
  call_effect db c db' ->
  Forall P (pickup_requests db) -> Forall P (pickup_requests db').
Proof.
  intros Hfresh Hchange Hcall Hall.
  destruct Hcall as [ c | body pickup Hnew
                    | rid update existing pickup admin t_status t_price t_updated sp
                        Hfind Hparse Hv
                    | rid did existing pickup_obj driver admin t_entry t_updated
                        Hfind Hparse Happr Hdriver Havail
                    | body driver Havail | did status driver Hdriver
                    | body rating pickup Hpid Hrange Hfind Hdone Hrated ];
    try exact Hall.
  - simpl. apply Forall_insert_one; [exact Hall | exact (Hfresh pickup Hnew)].
  - simpl. apply Forall_update_one; [exact Hall|].
    intros d Hd HP. rewrite Hfind in Hd. injection Hd as <-.
    apply (Hchange existing); [|exact HP].
    exact (change_update existing pickup update admin t_status t_price t_updated sp Hparse Hv).
  - simpl. apply Forall_update_one; [exact Hall|].
    intros d Hd HP. rewrite Hfind in Hd. injection Hd as <-.
    apply (Hchange existing); [|exact HP].
    exact (change_assign existing pickup_obj did admin t_entry t_updated Hparse Happr).
Qed.

(** Across a sequence of requests, position by position: a relation that
    holds across each of the three changes, and is reflexive and transitive,
    holds between a stored pickup request and what the sequence leaves at its
    position. *)
Lemma run_pickup_at (math : Math) (cfg : Settings) (auth : Auth)
    (R : PickupDoc -> PickupDoc -> Prop) :
  (forall doc doc', pickup_change doc doc' -> R doc doc') ->
  (forall a b c, R a b -> R b c -> R a c) ->
  forall reqs db i doc,
    nth_error (pickup_requests db) i = Some doc ->
    exists doc',
      nth_error (pickup_requests (run math cfg auth reqs db)) i = Some doc' /\ R doc doc'.
Proof.
  intros Hchange Htrans reqs. unfold run.
  induction reqs as [|req rest IH]; intros db i doc Hnth; simpl.
  - exists doc. split; [exact Hnth | apply Hchange, change_none].
  - destruct (call_effect_pickup_at db (exec math cfg auth req db) (call req) i doc
                (serve_effect math cfg auth req db) Hnth) as (doc1 & Hnth1 & Hc1).
    destruct (IH (exec math cfg auth req db) i doc1 Hnth1) as (doc' & Hnth' & HR).
    exists doc'. split; [exact Hnth'|].
    exact (Htrans doc doc1 doc' (Hchange doc doc1 Hc1) HR).
Qed.

(** ** Stored pickup requests, change by change *)

Lemma pickup_change_creation_fields (doc doc' : PickupDoc) :
  pickup_change doc doc' -> same_creation_fields doc doc'.
Proof.
  intros [ | pickup update admin t_status t_price t_updated sp Hparse Hv
           | pickup_obj did admin t_entry t_updated Hparse Happr ];
    unfold same_creation_fields; simpl; repeat split.
Qed.

Lemma pickup_change_status (doc doc' : PickupDoc) :
  pickup_change doc doc' ->
  (Pickup.status doc' = Pickup.status doc
   /\ Pickup.status_history doc' = Pickup.status_history doc)
  \/ exists entry,
       spec_allowed_edge (Pickup.status doc) (Pickup.status doc') = true
       /\ Pickup.status_history doc' = (Pickup.status_history doc ++ [entry])%list
       /\ StatusHistoryEntry.status entry = PickupStatus.value (Pickup.status doc').
Proof.
  intros [ | pickup update admin t_status t_price t_updated sp Hparse Hv
           | pickup_obj did admin t_entry t_updated Hparse Happr ].
  - left. split; reflexivity.
  - destruct (update_set_history doc pickup update admin t_status t_price t_updated sp
                Hparse Hv) as [(_ & Hst & Hh)|(requested & _ & Hedge & Hst & Hh)].
    + left. split; assumption.
    + right. eexists. rewrite Hst. split; [exact Hedge|]. split; [exact Hh | reflexivity].
  - right. eexists. simpl. rewrite Happr. split; [reflexivity|].
    pose proof (parse_status _ _ Hparse) as (_ & -> & _). split; reflexivity.
Qed.

Lemma pickup_change_driver (doc doc' : PickupDoc) :
  pickup_change doc doc' ->
  Pickup.driver_id doc' = Pickup.driver_id doc
  \/ (Pickup.status doc = PickupStatus.APPROVED
      /\ Pickup.status doc' = PickupStatus.ASSIGNED
      /\ exists driver_id, Pickup.driver_id doc' = Some driver_id).
Proof.
  intros [ | pickup update admin t_status t_price t_updated sp Hparse Hv
           | pickup_obj did admin t_entry t_updated Hparse Happr ].
  - left. reflexivity.
  - left. reflexivity.
  - right. split; [exact Happr|]. split; [reflexivity|]. exists did. reflexivity.
Qed.

Lemma pickup_change_price (doc doc' : PickupDoc) :
  pickup_change doc doc' ->
  (Pickup.price_history doc' = Pickup.price_history doc
   /\ (Pickup.actual_cost doc' = Pickup.actual_cost doc \/ Pickup.actual_cost doc' = None))
  \/ exists entry,
       Pickup.price_history doc' = (Pickup.price_history doc ++ [entry])%list
       /\ Pickup.actual_cost doc' = Some (PriceHistoryEntry.actual_cost entry).
Proof.
  intros [ | pickup update admin t_status t_price t_updated sp Hparse Hv
           | pickup_obj did admin t_entry t_updated Hparse Happr ].
  - left. split; [reflexivity | left; reflexivity].
  - pose proof (parse_status _ _ Hparse) as (_ & _ & Hprice & _).
    unfold update_set, track_price_change. simpl.
    destruct (PickupRequestUpdate.actual_cost update) as [|[cost|]]; simpl.
    + left. split; [reflexivity | left; reflexivity].
    + right. eexists. rewrite Hprice. split; reflexivity.
    + left. split; [reflexivity | right; reflexivity].
  - left. split; [reflexivity | left; reflexivity].
Qed.

Lemma spec_allowed_edge_stage (current requested : PickupStatus.t) :
  spec_allowed_edge current requested = true -> stage requested = S (stage current).
Proof.
  destruct current, requested; intros H; try discriminate H; reflexivity.
Qed.

(** ** What no request does *)

Lemma call_effect_frame (db db' : DB) (c : ApiCall) :
  call_effect db c db' ->
  match c with
  | POST_pickup_requests _ | PUT_pickup_request _ _ =>
      drivers db' = drivers db /\ ratings db' = ratings db
  | POST_assign_driver _ _ => ratings db' = ratings db
  | POST_drivers _ | PUT_driver_status _ _ =>
      pickup_requests db' = pickup_requests db /\ ratings db' = ratings db
  | POST_ratings _ =>
      pickup_requests db' = pickup_requests db /\ drivers db' = drivers db
  end
  /\ (List.length (pickup_requests db) <= List.length (pickup_requests db'))%nat
  /\ (List.length (drivers db) <= List.length (drivers db'))%nat
  /\ (List.length (ratings db) <= List.length (ratings db'))%nat.
Proof.
  intros Hcall.
  destruct Hcall as [ c | body pickup Hnew
         | rid update existing pickup admin t_status t_price t_updated sp Hfind Hparse Hv
         | rid did existing pickup_obj driver admin t_entry t_updated
             Hfind Hparse Happr Hdriver Havail
         | body driver Havail | did status driver Hdriver
         | body rating pickup Hpid Hrange Hfind Hdone Hrated ];
    simpl; unfold insert_one; rewrite ?update_one_length, ?length_app; simpl.
  - destruct c; repeat split; lia.
  - repeat split; lia.
  - repeat split; lia.
  - repeat split; lia.
  - repeat split; lia.
  - repeat split; lia.
  - repeat split; lia.
Qed.

(** X1: a request writes only the collections of its route: a pickup request
    route leaves the drivers and the ratings as they are, assigning a driver
    leaves the ratings, a driver route leaves the pickup requests and the
    ratings, a rating leaves the pickup requests and the drivers; and no
    request makes any collection shorter. *)
Theorem routes_write_their_own_collections
    (math : Math) (cfg : Settings) (auth : Auth) (req : Request) (db : DB) :
  let db' := exec math cfg auth req db in
  match call req with
  | POST_pickup_requests _ | PUT_pickup_request _ _ =>
      drivers db' = drivers db /\ ratings db' = ratings db
  | POST_assign_driver _ _ => ratings db' = ratings db
  | POST_drivers _ | PUT_driver_status _ _ =>
      pickup_requests db' = pickup_requests db /\ ratings db' = ratings db
  | POST_ratings _ =>
      pickup_requests db' = pickup_requests db /\ drivers db' = drivers db
  end
  /\ (List.length (pickup_requests db) <= List.length (pickup_requests db'))%nat
  /\ (List.length (drivers db) <= List.length (drivers db'))%nat
  /\ (List.length (ratings db) <= List.length (ratings db'))%nat.
Proof.
  exact (call_effect_frame db (exec math cfg auth req db) (call req)
           (serve_effect math cfg auth req db)).
Qed.

Lemma same_creation_fields_trans (a b c : PickupDoc) :
  same_creation_fields a b -> same_creation_fields b c -> same_creation_fields a c.
Proof.
  unfold same_creation_fields. intros Hab Hbc.
  repeat match goal with H : _ /\ _ |- _ => destruct H end.
  repeat split; congruence.
Qed.

(** X2: whatever requests follow, a stored pickup request stays at its
    position in the collection and keeps its id, location, image, waste type,
    quantity, estimated cost, distance, contact, payment method and creation
    time: no route deletes a pickup request or rewrites what create stored in
    these fields. *)
Theorem creation_fields_never_change
    (math : Math) (cfg : Settings) (auth : Auth) (reqs : list Request) (db : DB)
    (i : nat) (doc : PickupDoc) :
  nth_error (pickup_requests db) i = Some doc ->
  exists doc',
    nth_error (pickup_requests (run math cfg auth reqs db)) i = Some doc'
    /\ same_creation_fields doc doc'.
Proof.
  apply (run_pickup_at math cfg auth same_creation_fields).
  - exact pickup_change_creation_fields.
  - exact same_creation_fields_trans.
Qed.

(** X3: one request leaves the status of every stored pickup request as it
    is or moves it along one of the three edges Pending to Approved, Approved
    to Assigned, Assigned to Completed, whatever the route; hence across any
    sequence of requests the stage of a stored request never decreases. *)
Theorem status_only_moves_forward (math : Math) (cfg : Settings) (auth : Auth) :
  (forall req db i doc,
      nth_error (pickup_requests db) i = Some doc ->
      exists doc',
        nth_error (pickup_requests (exec math cfg auth req db)) i = Some doc'
        /\ (Pickup.status doc' = Pickup.status doc
            \/ spec_allowed_edge (Pickup.status doc) (Pickup.status doc') = true))
  /\ (forall reqs db i doc,
        nth_error (pickup_requests db) i = Some doc ->
        exists doc',
          nth_error (pickup_requests (run math cfg auth reqs db)) i = Some doc'
          /\ (stage (Pickup.status doc) <= stage (Pickup.status doc'))%nat).
Proof.
  split.
  - intros req db i doc Hnth.
    destruct (call_effect_pickup_at db (exec math cfg auth req db) (call req) i doc
                (serve_effect math cfg auth req db) Hnth) as (doc' & Hnth' & Hchange).
    exists doc'. split; [exact Hnth'|].
    destruct (pickup_change_status doc doc' Hchange) as [(Hst & _)|(entry & Hedge & _)];
      [left; exact Hst | right; exact Hedge].
  - apply (run_pickup_at math cfg auth
             (fun doc doc' => (stage (Pickup.status doc) <= stage (Pickup.status doc'))%nat)).
    + intros doc doc' Hchange.
      destruct (pickup_change_status doc doc' Hchange) as [(Hst & _)|(entry & Hedge & _)].
      * rewrite Hst. lia.
      * rewrite (spec_allowed_edge_stage _ _ Hedge). lia.
    + intros a b c Hab Hbc. lia.
Qed.

(** X4: in every database the application reaches from the empty one, the
    statuses the history of a pickup request records are the stages of the
    lifecycle from Pending up to the current status, each once and in order:
    one entry for a Pending request, four for a Completed one. *)
Theorem status_history_is_lifecycle_prefix
    (math : Math) (cfg : Settings) (auth : Auth) (reqs : list Request) :
  Forall (fun doc =>
            map StatusHistoryEntry.status (Pickup.status_history doc)
            = map PickupStatus.value (firstn (S (stage (Pickup.status doc))) lifecycle))
    (pickup_requests (run math cfg auth reqs empty_db)).
Proof.
  apply (run_invariant_all math cfg auth
           (fun db =>
              Forall (fun doc =>
                        map StatusHistoryEntry.status (Pickup.status_history doc)
                        = map PickupStatus.value
                            (firstn (S (stage (Pickup.status doc))) lifecycle))
                (pickup_requests db))).
  - intros db c db' Hcall. apply (call_effect_Forall _ db db' c); [| |exact Hcall].
    + intros pickup (Hst & _ & _ & _ & t_entry & Hhist). simpl.
      rewrite Hst, Hhist. reflexivity.
    + intros doc doc' Hchange HP.
      destruct (pickup_change_status doc doc' Hchange)
        as [(Hst & Hh)|(entry & Hedge & Hh & Hentry)].
      * rewrite Hst, Hh. exact HP.
      * rewrite Hh, map_app, HP. simpl. rewrite Hentry.
        revert Hedge. destruct (Pickup.status doc), (Pickup.status doc');
          intros Hedge; try discriminate Hedge; reflexivity.
  - constructor.
Qed.

(** X5: Completed is terminal across every route: whatever requests follow,
    a Completed pickup request stays Completed, with the status history and
    the driver it had. *)
Theorem completed_is_terminal
    (math : Math) (cfg : Settings) (auth : Auth) (reqs : list Request) (db : DB)
    (i : nat) (doc : PickupDoc) :
  nth_error (pickup_requests db) i = Some doc ->
  Pickup.status doc = PickupStatus.COMPLETED ->
  exists doc',
    nth_error (pickup_requests (run math cfg auth reqs db)) i = Some doc'
    /\ Pickup.status doc' = PickupStatus.COMPLETED
    /\ Pickup.status_history doc' = Pickup.status_history doc
    /\ Pickup.driver_id doc' = Pickup.driver_id doc.
Proof.
  intros Hnth Hdone.
  destruct (run_pickup_at math cfg auth
              (fun doc doc' =>
                 Pickup.status doc = PickupStatus.COMPLETED ->
                 Pickup.status doc' = PickupStatus.COMPLETED
                 /\ Pickup.status_history doc' = Pickup.status_history doc
                 /\ Pickup.driver_id doc' = Pickup.driver_id doc))
    with (reqs := reqs) (db := db) (i := i) (doc := doc) as (doc' & Hnth' & HR).
  - intros d d' Hchange Hd.
    destruct (pickup_change_status d d' Hchange) as [(Hst & Hh)|(entry & Hedge & _)].
    + split; [rewrite Hst; exact Hd|]. split; [exact Hh|].
      destruct (pickup_change_driver d d' Hchange) as [Hdrv|(Happr & _)];
        [exact Hdrv | rewrite Hd in Happr; discriminate Happr].
    + rewrite Hd in Hedge. destruct (Pickup.status d'); discriminate Hedge.
  - intros a b c Hab Hbc Ha. destruct (Hab Ha) as (Hb & Hh & Hd).
    destruct (Hbc Hb) as (Hc & Hh' & Hd').
    split; [exact Hc|]. split; congruence.
  - exact Hnth.
  - exists doc'. split; [exact Hnth' | exact (HR Hdone)].
Qed.

(** X6: in every database the application reaches from the empty one, an
    actual cost that is not None is the cost of the last entry of the price
    history; and across any sequence of requests the price history of a
    stored pickup request only grows at its end. *)
Theorem actual_cost_has_audit_record (math : Math) (cfg : Settings) (auth : Auth) :
  (forall reqs,
      Forall (fun doc =>
                forall cost,
                  Pickup.actual_cost doc = Some cost ->
                  exists earlier last,
                    Pickup.price_history doc = (earlier ++ [last])%list
                    /\ PriceHistoryEntry.actual_cost last = cost)
        (pickup_requests (run math cfg auth reqs empty_db)))
  /\ (forall reqs db i doc,
        nth_error (pickup_requests db) i = Some doc ->
        exists doc' later,
          nth_error (pickup_requests (run math cfg auth reqs db)) i = Some doc'
          /\ Pickup.price_history doc' = (Pickup.price_history doc ++ later)%list).
Proof.
  split.
  - intros reqs.
    apply (run_invariant_all math cfg auth
             (fun db =>
                Forall (fun doc =>
                          forall cost,
                            Pickup.actual_cost doc = Some cost ->
                            exists earlier last,
                              Pickup.price_history doc = (earlier ++ [last])%list
                              /\ PriceHistoryEntry.actual_cost last = cost)
                  (pickup_requests db))).
    + intros db c db' Hcall. apply (call_effect_Forall _ db db' c); [| |exact Hcall].
      * intros pickup (_ & _ & Hcost & _) cost. simpl. rewrite Hcost. intros H. discriminate H.
      * intros doc doc' Hchange HP cost Hc.
        destruct (pickup_change_price doc doc' Hchange)
          as [(Hh & [Hsame|Hnone])|(entry & Hh & Hnew)].
        -- rewrite Hh. apply HP. rewrite <- Hsame. exact Hc.
        -- rewrite Hnone in Hc. discriminate Hc.
        -- rewrite Hnew in Hc. injection Hc as <-.
           exists (Pickup.price_history doc), entry. split; [exact Hh | reflexivity].
    + constructor.
  - intros reqs db i doc Hnth.
    destruct (run_pickup_at math cfg auth
                (fun doc doc' =>
                   exists later,
                     Pickup.price_history doc' = (Pickup.price_history doc ++ later)%list))
      with (reqs := reqs) (db := db) (i := i) (doc := doc) as (doc' & Hnth' & later & Hlater).
    + intros d d' Hchange.
      destruct (pickup_change_price d d' Hchange) as [(Hh & _)|(entry & Hh & _)].
      * exists []. rewrite app_nil_r. exact Hh.
      * exists [entry]. exact Hh.
    + intros a b c (l1 & H1) (l2 & H2). exists (l1 ++ l2)%list.
      rewrite H2, H1, app_assoc. reflexivity.
    + exact Hnth.
    + exists doc', later. split; assumption.
Qed.

(** ** Drivers and ratings *)

Section MoreCollections.
Context {A : Type}.
Implicit Types (f g : A -> bool) (set : A -> A) (coll : list A).

(** [update_one] rewrites the first position under its filter and no other. *)
Lemma update_one_position g set coll :
  (find_one g coll = None /\ update_one g set coll = coll)
  \/ exists k x,
       nth_error coll k = Some x
       /\ find_one g coll = Some x
       /\ nth_error (update_one g set coll) k = Some (set x)
       /\ forall i, i <> k -> nth_error (update_one g set coll) i = nth_error coll i.
Proof.
  unfold find_one.
  induction coll as [|d rest IH]; simpl.
  - left. split; reflexivity.
  - destruct (g d) eqn:E.
    + right. exists 0%nat, d. repeat split.
      intros i Hi. destruct i; [contradiction Hi; reflexivity | reflexivity].
    + destruct IH as [(Hnone & Hsame)|(k & x & Hk & Hfind & Hset & Hother)].
      * left. split; [exact Hnone | rewrite Hsame; reflexivity].
      * right. exists (S k), x. simpl. repeat split; try assumption.
        intros i Hi. destruct i; [reflexivity|]. simpl. apply Hother. congruence.
Qed.

(** A document found under [f] is still found after an update that does not
    change what [f] says of a document: as it was, or rewritten. *)
Lemma find_one_update_one_stable f g set coll x :
  (forall d, f (set d) = f d) ->
  find_one f coll = Some x ->
  exists y,
    find_one f (update_one g set coll) = Some y
    /\ (y = x \/ (y = set x /\ find_one g coll = Some x)).
Proof.
  intros Hkeep. unfold find_one.
  induction coll as [|d rest IH]; simpl; intros Hfound.
  - discriminate Hfound.
  - destruct (g d) eqn:Eg; simpl.
    + rewrite Hkeep. destruct (f d) eqn:Ef.
      * injection Hfound as <-. exists (set d). split; [reflexivity|]. right. split; reflexivity.
      * exists x. split; [exact Hfound | left; reflexivity].
    + destruct (f d) eqn:Ef.
      * exists d. split; [reflexivity|]. left. injection Hfound as <-. reflexivity.
      * exact (IH Hfound).
Qed.

Lemma update_one_nth_error_inv g set coll i y :
  nth_error (update_one g set coll) i = Some y ->
  exists x, nth_error coll i = Some x /\ (y = x \/ y = set x).
Proof.
  intros Hy. destruct (nth_error coll i) as [x|] eqn:Hx.
  - exists x. split; [reflexivity|].
    destruct (update_one_nth_error g set coll i x Hx) as [H|[_ H]];
      rewrite H in Hy; injection Hy as <-; [left | right]; reflexivity.
  - apply nth_error_None in Hx. rewrite <- (update_one_length g set coll) in Hx.
    apply nth_error_None in Hx. rewrite Hx in Hy. discriminate Hy.
Qed.

Lemma nth_error_insert_one_inv doc coll i y :
  nth_error (insert_one doc coll) i = Some y ->
  nth_error coll i = Some y \/ (i = List.length coll /\ y = doc).
Proof.
  unfold insert_one. intros Hy.
  destruct (Nat.lt_ge_cases i (List.length coll)) as [Hlt|Hge].
  - rewrite nth_error_app1 in Hy by exact Hlt. left. exact Hy.
  - rewrite nth_error_app2 in Hy by exact Hge. right.
    destruct (i - List.length coll)%nat as [|n] eqn:E; simpl in Hy.
    + injection Hy as <-. split; [lia | reflexivity].
    + destruct n; discriminate Hy.
Qed.

End MoreCollections.

Lemma call_effect_driver_at (db db' : DB) (c : ApiCall) (i : nat) (driver : Driver.t) :
  call_effect db c db' ->
  nth_error (drivers db) i = Some driver ->
  exists driver',
    nth_error (drivers db') i = Some driver' /\ same_driver_identity driver driver'.
Proof.
  intros Hcall Hnth.
  assert (Hrefl : same_driver_identity driver driver) by (repeat split).
  assert (Hset : forall s, same_driver_identity driver (Driver.with_status s driver))
    by (intros s; repeat split).
  destruct Hcall as [ c | body pickup Hnew
                    | rid update existing pickup admin t_status t_price t_updated sp
                        Hfind Hparse Hv
                    | rid did existing pickup_obj found admin t_entry t_updated
                        Hfind Hparse Happr Hdriver Havail
                    | body new_driver Havail | did status found Hdriver
                    | body rating pickup Hpid Hrange Hfind Hdone Hrated ];
    simpl; try (exists driver; split; [exact Hnth | exact Hrefl]).
  - destruct (update_one_nth_error (driver_id_is did) (Driver.with_status DriverStatus.BUSY)
                (drivers db) i driver Hnth) as [H|[_ H]];
      eexists; (split; [exact H|]); [exact Hrefl | apply Hset].
  - exists driver. split; [apply nth_error_insert_one; exact Hnth | exact Hrefl].
  - destruct (update_one_nth_error (driver_id_is did) (Driver.with_status status)
                (drivers db) i driver Hnth) as [H|[_ H]];
      eexists; (split; [exact H|]); [exact Hrefl | apply Hset].
Qed.

Lemma call_effect_ratings (db db' : DB) (c : ApiCall) :
  call_effect db c db' -> exists later, ratings db' = (ratings db ++ later)%list.
Proof.
  intros Hcall.
  destruct Hcall as [ c | body pickup Hnew
                    | rid update existing pickup admin t_status t_price t_updated sp
                        Hfind Hparse Hv
                    | rid did existing pickup_obj found admin t_entry t_updated
                        Hfind Hparse Happr Hdriver Havail
                    | body new_driver Havail | did status found Hdriver
                    | body rating pickup Hpid Hrange Hfind Hdone Hrated ];
    simpl; try (exists []; rewrite app_nil_r; reflexivity).
  exists [rating]. reflexivity.
Qed.

(** X7: no route deletes or replaces a driver or a rating: whatever requests
    follow, a stored driver stays at its position with its id, name, phone,
    vehicle, location and creation time (only its status may change), and the
    ratings collection only grows at its end, each stored rating unchanged. *)
Theorem drivers_and_ratings_persist (math : Math) (cfg : Settings) (auth : Auth) :
  (forall reqs db i driver,
      nth_error (drivers db) i = Some driver ->
      exists driver',
        nth_error (drivers (run math cfg auth reqs db)) i = Some driver'
        /\ same_driver_identity driver driver')
  /\ (forall reqs db,
        exists later, ratings (run math cfg auth reqs db) = (ratings db ++ later)%list).
Proof.
  split.
  - intros reqs. unfold run.
    induction reqs as [|req rest IH]; intros db i driver Hnth; simpl.
    + exists driver. split; [exact Hnth | repeat split].
    + destruct (call_effect_driver_at db (exec math cfg auth req db) (call req) i driver
                  (serve_effect math cfg auth req db) Hnth) as (driver1 & Hnth1 & H1).
      destruct (IH (exec math cfg auth req db) i driver1 Hnth1) as (driver' & Hnth' & H').
      exists driver'. split; [exact Hnth'|].
      unfold same_driver_identity in *.
      repeat match goal with H : _ /\ _ |- _ => destruct H end.
      repeat split; congruence.
  - intros reqs. unfold run.
    induction reqs as [|req rest IH]; intros db; simpl.
    + exists []. rewrite app_nil_r. reflexivity.
    + destruct (call_effect_ratings db (exec math cfg auth req db) (call req)
                  (serve_effect math cfg auth req db)) as (l1 & H1).
      destruct (IH (exec math cfg auth req db)) as (l2 & H2).
      exists (l1 ++ l2)%list. rewrite H2, H1, app_assoc. reflexivity.
Qed.

(** A driver found under an id is still found after a request, and stays Busy
    unless the request sets the status of a driver by hand. *)
Lemma call_effect_driver_found (db db' : DB) (c : ApiCall) (d : string) (driver : Driver.t) :
  call_effect db c db' ->
  find_one (driver_id_is d) (drivers db) = Some driver ->
  exists driver',
    find_one (driver_id_is d) (drivers db') = Some driver'
    /\ (sets_driver_status c = false ->
        Driver.status driver = DriverStatus.BUSY ->
        Driver.status driver' = DriverStatus.BUSY).
Proof.
  intros Hcall Hfound.
  destruct Hcall as [ c | body pickup Hnew
                    | rid update existing pickup admin t_status t_price t_updated sp
                        Hfind Hparse Hv
                    | rid did existing pickup_obj found admin t_entry t_updated
                        Hfind Hparse Happr Hdriver Havail
                    | body new_driver Havail | did status found Hdriver
                    | body rating pickup Hpid Hrange Hfind Hdone Hrated ];
    simpl; try (exists driver; split; [exact Hfound | intros _ H; exact H]).
  - destruct (find_one_update_one_stable (driver_id_is d) (driver_id_is did)
                (Driver.with_status DriverStatus.BUSY) (drivers db) driver
                (driver_id_is_with_status d DriverStatus.BUSY) Hfound)
      as (y & Hy & [->|(-> & _)]);
      eexists; (split; [exact Hy|]); intros _ H; [exact H | reflexivity].
  - exists driver. rewrite find_one_insert_one, Hfound. split; [reflexivity | intros _ H; exact H].
  - destruct (find_one_update_one_stable (driver_id_is d) (driver_id_is did)
                (Driver.with_status status) (drivers db) driver
                (driver_id_is_with_status d status) Hfound)
      as (y & Hy & _).
    exists y. split; [exact Hy | intros H; discriminate H].
Qed.

(** The drivers the pickup requests reference stay registered and [good]
    across a request, when drivers that are found stay [good] across it and a
    driver the assignment has set to Busy is [good]. *)
Lemma call_effect_references (good : Driver.t -> Prop) (db db' : DB) (c : ApiCall) :
  call_effect db c db' ->
  (forall d driver,
      find_one (driver_id_is d) (drivers db) = Some driver -> good driver ->
      exists driver', find_one (driver_id_is d) (drivers db') = Some driver' /\ good driver') ->
  (forall driver, good (Driver.with_status DriverStatus.BUSY driver)) ->
  Forall (fun doc =>
            forall d, Pickup.driver_id doc = Some d ->
            exists driver, find_one (driver_id_is d) (drivers db) = Some driver /\ good driver)
    (pickup_requests db) ->
  Forall (fun doc =>
            forall d, Pickup.driver_id doc = Some d ->
            exists driver, find_one (driver_id_is d) (drivers db') = Some driver /\ good driver)
    (pickup_requests db').
Proof.
  intros Hcall Hmono Hbusy Hall.
  assert (Hold : Forall (fun doc =>
                           forall d, Pickup.driver_id doc = Some d ->
                           exists driver,
                             find_one (driver_id_is d) (drivers db') = Some driver
                             /\ good driver)
                   (pickup_requests db)).
  { apply (Forall_impl _ (P := fun doc =>
                                 forall d, Pickup.driver_id doc = Some d ->
                                 exists driver,
                                   find_one (driver_id_is d) (drivers db) = Some driver
                                   /\ good driver)); [|exact Hall].
    intros doc HP d Hd. destruct (HP d Hd) as (driver & Hfound & Hgood).
    exact (Hmono d driver Hfound Hgood). }
  clear Hall Hmono.
  destruct Hcall as [ c | body pickup Hnew
                    | rid update existing pickup admin t_status t_price t_updated sp
                        Hfind Hparse Hv
                    | rid did existing pickup_obj found admin t_entry t_updated
                        Hfind Hparse Happr Hdriver Havail
                    | body new_driver Havail | did status found Hdriver
                    | body rating pickup Hpid Hrange Hfind Hdone Hrated ];
    try exact Hold.
  - simpl in *. apply Forall_insert_one; [exact Hold|].
    destruct Hnew as (_ & Hnone & _). simpl. rewrite Hnone. intros d H. discriminate H.
  - simpl in *. apply Forall_update_one; [exact Hold|].
    intros doc _ HP d. simpl. exact (HP d).
  - simpl in *. apply Forall_update_one; [exact Hold|].
    intros doc _ _ d. simpl. intros H. injection H as <-.
    exists (Driver.with_status DriverStatus.BUSY found). split; [|apply Hbusy].
    rewrite find_one_update_one
      by (intros x Hx; rewrite driver_id_is_with_status; exact Hx).
    rewrite Hdriver. reflexivity.
Qed.

(** X8: in every database the application reaches from the empty one, a
    pickup request that has a driver is Assigned or Completed, and its driver
    id is the id of a registered driver. *)
Theorem driver_id_references_registered_driver
    (math : Math) (cfg : Settings) (auth : Auth) (reqs : list Request) :
  let db := run math cfg auth reqs empty_db in
  Forall (fun doc =>
            forall d, Pickup.driver_id doc = Some d ->
            (Pickup.status doc = PickupStatus.ASSIGNED
             \/ Pickup.status doc = PickupStatus.COMPLETED)
            /\ exists driver,
                 find_one (driver_id_is d) (drivers db) = Some driver /\ Driver.id driver = d)
    (pickup_requests db).
Proof.
  intros db.
  assert (Hstatus : Forall (fun doc =>
                              forall d, Pickup.driver_id doc = Some d ->
                              Pickup.status doc = PickupStatus.ASSIGNED
                              \/ Pickup.status doc = PickupStatus.COMPLETED)
                      (pickup_requests db)).
  { apply (run_invariant_all math cfg auth
             (fun db =>
                Forall (fun doc =>
                          forall d, Pickup.driver_id doc = Some d ->
                          Pickup.status doc = PickupStatus.ASSIGNED
                          \/ Pickup.status doc = PickupStatus.COMPLETED)
                  (pickup_requests db))); [|constructor].
    intros db0 c db' Hcall. apply (call_effect_Forall _ db0 db' c); [| |exact Hcall].
    - intros pickup (_ & Hnone & _) d. simpl. rewrite Hnone. intros H. discriminate H.
    - intros doc doc' Hchange HP d Hd.
      destruct (pickup_change_driver doc doc' Hchange) as [Hsame|(_ & Hassigned & _)];
        [|left; exact Hassigned].
      rewrite Hsame in Hd.
      destruct (pickup_change_status doc doc' Hchange) as [(Hst & _)|(entry & Hedge & _)].
      + rewrite Hst. exact (HP d Hd).
      + right. revert Hedge.
        destruct (HP d Hd) as [-> | ->]; destruct (Pickup.status doc');
          intros Hedge; try discriminate Hedge; reflexivity. }
  assert (Hrefs : Forall (fun doc =>
                            forall d, Pickup.driver_id doc = Some d ->
                            exists driver,
                              find_one (driver_id_is d) (drivers db) = Some driver /\ True)
                    (pickup_requests db)).
  { apply (run_invariant_all math cfg auth
             (fun db =>
                Forall (fun doc =>
                          forall d, Pickup.driver_id doc = Some d ->
                          exists driver,
                            find_one (driver_id_is d) (drivers db) = Some driver /\ True)
                  (pickup_requests db))); [|constructor].
    intros db0 c db' Hcall.
    apply (call_effect_references (fun _ => True) db0 db' c Hcall); [|intros; exact I].
    intros d driver Hfound _.
    destruct (call_effect_driver_found db0 db' c d driver Hcall Hfound) as (driver' & H' & _).
    exists driver'. split; [exact H' | exact I]. }
  rewrite Forall_forall in *. intros doc Hin d Hd.
  split; [exact (Hstatus doc Hin d Hd)|].
  destruct (Hrefs doc Hin d Hd) as (driver & Hfound & _).
  exists driver. split; [exact Hfound|].
  apply find_one_matches in Hfound. apply String.eqb_eq in Hfound. exact Hfound.
Qed.

(** At most one position of the collection references a given driver. *)
Lemma call_effect_exclusive (db db' : DB) (c : ApiCall) :
  call_effect db c db' ->
  Forall (fun doc =>
            forall d, Pickup.driver_id doc = Some d ->
            exists driver,
              find_one (driver_id_is d) (drivers db) = Some driver
              /\ Driver.status driver = DriverStatus.BUSY)
    (pickup_requests db) ->
  (forall i j doc_i doc_j d,
      nth_error (pickup_requests db) i = Some doc_i ->
      nth_error (pickup_requests db) j = Some doc_j ->
      Pickup.driver_id doc_i = Some d -> Pickup.driver_id doc_j = Some d -> i = j) ->
  forall i j doc_i doc_j d,
    nth_error (pickup_requests db') i = Some doc_i ->
    nth_error (pickup_requests db') j = Some doc_j ->
    Pickup.driver_id doc_i = Some d -> Pickup.driver_id doc_j = Some d -> i = j.
Proof.
  intros Hcall Hbusy Huniq.
  destruct Hcall as [ c | body pickup Hnew
                    | rid update existing pickup admin t_status t_price t_updated sp
                        Hfind Hparse Hv
                    | rid did existing pickup_obj found admin t_entry t_updated
                        Hfind Hparse Happr Hdriver Havail
                    | body new_driver Havail | did status found Hdriver
                    | body rating pickup Hpid Hrange Hfind Hdone Hrated ];
    try exact Huniq.
  - simpl. intros i j doc_i doc_j d Hi Hj Hdi Hdj.
    destruct Hnew as (_ & Hnone & _).
    apply nth_error_insert_one_inv in Hi. apply nth_error_insert_one_inv in Hj.
    destruct Hi as [Hi|(_ & ->)];
      [|simpl in Hdi; rewrite Hnone in Hdi; discriminate Hdi].
    destruct Hj as [Hj|(_ & ->)];
      [|simpl in Hdj; rewrite Hnone in Hdj; discriminate Hdj].
    exact (Huniq i j doc_i doc_j d Hi Hj Hdi Hdj).
  - simpl. intros i j doc_i doc_j d Hi Hj Hdi Hdj.
    apply update_one_nth_error_inv in Hi. apply update_one_nth_error_inv in Hj.
    destruct Hi as (xi & Hi & Hxi). destruct Hj as (xj & Hj & Hxj).
    apply (Huniq i j xi xj d Hi Hj).
    + destruct Hxi as [->| ->]; exact Hdi.
    + destruct Hxj as [->| ->]; exact Hdj.
  - simpl. intros i j doc_i doc_j d Hi Hj Hdi Hdj.
    assert (Hfree : forall n doc,
               nth_error (pickup_requests db) n = Some doc ->
               Pickup.driver_id doc <> Some did).
    { intros n doc Hn Hd. rewrite Forall_forall in Hbusy.
      destruct (Hbusy doc (nth_error_In _ _ Hn) did Hd) as (driver & Hfound & Hb).
      rewrite Hdriver in Hfound. injection Hfound as <-.
      rewrite Havail in Hb. discriminate Hb. }
    destruct (update_one_position (pickup_id_is rid)
                (PickupSet.apply (assign_set pickup_obj did admin t_entry t_updated))
                (pickup_requests db))
      as [(_ & Hsame)|(k & x & Hk & _ & Hset & Hother)].
    + rewrite Hsame in Hi, Hj. exact (Huniq i j doc_i doc_j d Hi Hj Hdi Hdj).
    + destruct (Nat.eq_dec i k) as [->|Hik]; destruct (Nat.eq_dec j k) as [->|Hjk].
      * reflexivity.
      * exfalso. rewrite Hset in Hi. injection Hi as <-. simpl in Hdi. injection Hdi as <-.
        rewrite (Hother j Hjk) in Hj. exact (Hfree j doc_j Hj Hdj).
      * exfalso. rewrite Hset in Hj. injection Hj as <-. simpl in Hdj. injection Hdj as <-.
        rewrite (Hother i Hik) in Hi. exact (Hfree i doc_i Hi Hdi).
      * rewrite (Hother i Hik) in Hi. rewrite (Hother j Hjk) in Hj.
        exact (Huniq i j doc_i doc_j d Hi Hj Hdi Hdj).
Qed.

(** X9: as long as no request sets the status of a driver by hand, every
    driver a pickup request references is registered and Busy, and no two
    stored pickup requests reference the same driver.  The status is checked
    and set by [assign_driver] alone, and no route sets it back: the driver of
    a Completed request stays Busy. *)
Theorem driver_serves_one_request
    (math : Math) (cfg : Settings) (auth : Auth) (reqs : list Request) :
  forallb (fun req => negb (sets_driver_status (call req))) reqs = true ->
  let db := run math cfg auth reqs empty_db in
  Forall (fun doc =>
            forall d, Pickup.driver_id doc = Some d ->
            exists driver,
              find_one (driver_id_is d) (drivers db) = Some driver
              /\ Driver.status driver = DriverStatus.BUSY)
    (pickup_requests db)
  /\ (forall i j doc_i doc_j d,
        nth_error (pickup_requests db) i = Some doc_i ->
        nth_error (pickup_requests db) j = Some doc_j ->
        Pickup.driver_id doc_i = Some d -> Pickup.driver_id doc_j = Some d -> i = j).
Proof.
  intros Hquiet db.
  apply (run_invariant math cfg auth (fun c => negb (sets_driver_status c))
           (fun db =>
              Forall (fun doc =>
                        forall d, Pickup.driver_id doc = Some d ->
                        exists driver,
                          find_one (driver_id_is d) (drivers db) = Some driver
                          /\ Driver.status driver = DriverStatus.BUSY)
                (pickup_requests db)
              /\ (forall i j doc_i doc_j d,
                    nth_error (pickup_requests db) i = Some doc_i ->
                    nth_error (pickup_requests db) j = Some doc_j ->
                    Pickup.driver_id doc_i = Some d -> Pickup.driver_id doc_j = Some d ->
                    i = j))).
  - intros db0 c db' Hc Hcall (Hbusy & Huniq). apply negb_true_iff in Hc. split.
    + apply (call_effect_references
               (fun driver => Driver.status driver = DriverStatus.BUSY) db0 db' c Hcall);
        [|intros; reflexivity|exact Hbusy].
      intros d driver Hfound Hb.
      destruct (call_effect_driver_found db0 db' c d driver Hcall Hfound) as (driver' & H' & Hk).
      exists driver'. split; [exact H' | exact (Hk Hc Hb)].
    + exact (call_effect_exclusive db0 db' c Hcall Hbusy Huniq).
  - exact Hquiet.
  - split; [constructor|]. intros i j doc_i doc_j d Hi. destruct i; discriminate Hi.
Qed.

Lemma update_driver_status_paths (driver_id : string) (status : DriverStatus.t)
    (admin : AdminUser.t) (db : DB) :
  update_driver_status driver_id status admin db
  = match find_one (driver_id_is driver_id) (drivers db) with
    | None => (Raise NotFound_driver, db)
    | Some driver =>
        (Ok (Driver.with_status status driver), with_driver_status driver_id status db)
    end.
Proof.
  unfold update_driver_status. run_handler.
  destruct (find_one (driver_id_is driver_id) (drivers db)) as [driver|] eqn:Efind;
    [|reflexivity].
  simpl. rewrite find_one_update_one
    by (intros x Hx; rewrite driver_id_is_with_status; exact Hx).
  rewrite Efind. reflexivity.
Qed.

Lemma parse_apply_assign_set (doc : PickupDoc) (pickup_obj : PickupRequest.t)
    (driver_id : string) (admin : AdminUser.t) (t_entry t_updated : datetime) :
  PickupRequest.parse doc = Ok pickup_obj ->
  exists updated,
    PickupRequest.parse
      (PickupSet.apply (assign_set pickup_obj driver_id admin t_entry t_updated) doc)
    = Ok updated
    /\ Pickup.status updated = PickupStatus.ASSIGNED
    /\ Pickup.driver_id updated = Some driver_id.
Proof.
  intros Hparse. pose proof (parse_status _ _ Hparse) as (_ & _ & _ & _ & _ & _ & Hps).
  unfold PickupRequest.parse. simpl. rewrite Hps.
  eexists. split; [reflexivity|]. split; reflexivity.
Qed.

(** X10: the status of a driver is not tied to the requests that reference
    it.  When a pickup request references a driver, setting that driver to
    Available by hand succeeds, and [assign_driver] then attaches the same
    driver to any other Approved request, while the first request still
    references it. *)
Theorem status_reset_allows_second_assignment
    (rid1 rid2 did : string) (admin : AdminUser.t) (t_entry t_updated : datetime) (db : DB)
    (p1 p2 : PickupDoc) (obj2 : PickupRequest.t) (driver : Driver.t) :
  find_one (pickup_id_is rid1) (pickup_requests db) = Some p1 ->
  Pickup.driver_id p1 = Some did ->
  find_one (driver_id_is did) (drivers db) = Some driver ->
  find_one (pickup_id_is rid2) (pickup_requests db) = Some p2 ->
  PickupRequest.parse p2 = Ok obj2 ->
  Pickup.status p2 = PickupStatus.APPROVED ->
  rid1 <> rid2 ->
  let reset := update_driver_status did DriverStatus.AVAILABLE admin db in
  let outcome := assign_driver rid2 did admin t_entry t_updated (snd reset) in
  fst reset = Ok (Driver.with_status DriverStatus.AVAILABLE driver)
  /\ (exists updated,
         fst outcome = Ok updated
         /\ Pickup.status updated = PickupStatus.ASSIGNED
         /\ Pickup.driver_id updated = Some did
         /\ find_one (pickup_id_is rid2) (pickup_requests (snd outcome))
            = Some (PickupRequest.dict updated))
  /\ find_one (pickup_id_is rid1) (pickup_requests (snd outcome)) = Some p1.
Proof.
  intros Hp1 Hd1 Hdriver Hp2 Hparse Happr Hneq reset outcome.
  subst outcome reset. rewrite update_driver_status_paths, Hdriver. simpl.
  split; [reflexivity|].
  rewrite assign_driver_paths. simpl. rewrite Hp2, Hparse.
  pose proof (parse_status _ _ Hparse) as (Hst & _). rewrite Hst, Happr. simpl.
  rewrite find_one_update_one
    by (intros x Hx; rewrite driver_id_is_with_status; exact Hx).
  rewrite Hdriver. simpl.
  destruct (parse_apply_assign_set p2 obj2 did admin t_entry t_updated Hparse)
    as (updated & Hupdated & Hstatus & Hdid).
  rewrite Hupdated. simpl. split.
  - exists updated. split; [reflexivity|]. split; [exact Hstatus|]. split; [exact Hdid|].
    rewrite find_one_update_one by (intros x Hx; rewrite pickup_id_is_apply; exact Hx).
    rewrite Hp2. simpl. rewrite (parse_dict _ _ Hupdated). reflexivity.
  - rewrite (find_one_other_pickup rid2 rid1 _ _ (fun E => Hneq (eq_sym E))). exact Hp1.
Qed.

(** X21: [update_pickup_request] never writes [driver_id], so moving an
    Approved request to Assigned through update leaves it without a driver;
    and once a stored pickup request is Assigned or Completed its [driver_id]
    never changes again, whatever requests follow: [assign_driver] only
    accepts Approved requests. *)
Theorem driver_fixed_once_assigned (math : Math) (cfg : Settings) (auth : Auth) :
  (forall request_id update admin t_status t_price t_updated db updated db' existing,
      update_pickup_request request_id update admin t_status t_price t_updated db
      = (Ok updated, db') ->
      find_one (pickup_id_is request_id) (pickup_requests db) = Some existing ->
      Pickup.driver_id updated = Pickup.driver_id existing)
  /\ (forall reqs db i doc,
        nth_error (pickup_requests db) i = Some doc ->
        Pickup.status doc = PickupStatus.ASSIGNED
        \/ Pickup.status doc = PickupStatus.COMPLETED ->
        exists doc',
          nth_error (pickup_requests (run math cfg auth reqs db)) i = Some doc'
          /\ (Pickup.status doc' = PickupStatus.ASSIGNED
              \/ Pickup.status doc' = PickupStatus.COMPLETED)
          /\ Pickup.driver_id doc' = Pickup.driver_id doc).
Proof.
  split.
  - intros request_id update admin t_status t_price t_updated db updated db' existing
      Hrun Hfind.
    rewrite update_pickup_request_paths, Hfind in Hrun.
    destruct (PickupRequest.parse existing) as [pickup|e]; [|discriminate Hrun].
    destruct (validate_status_transition pickup update admin t_status) as [sp|e];
      [|discriminate Hrun].
    simpl in Hrun. injection Hrun as Hparse _.
    pose proof (parse_status _ _ Hparse) as (_ & _ & _ & _ & Hdriver & _).
    rewrite Hdriver. reflexivity.
  - intros reqs db i doc Hnth Hlate.
    destruct (run_pickup_at math cfg auth
                (fun doc doc' =>
                   Pickup.status doc = PickupStatus.ASSIGNED
                   \/ Pickup.status doc = PickupStatus.COMPLETED ->
                   (Pickup.status doc' = PickupStatus.ASSIGNED
                    \/ Pickup.status doc' = PickupStatus.COMPLETED)
                   /\ Pickup.driver_id doc' = Pickup.driver_id doc))
      with (reqs := reqs) (db := db) (i := i) (doc := doc) as (doc' & Hnth' & HR).
    + intros d d' Hchange Hd. split.
      * destruct (pickup_change_status d d' Hchange) as [(Hst & _)|(entry & Hedge & _)].
        -- rewrite Hst. exact Hd.
        -- right. revert Hedge.
           destruct Hd as [-> | ->]; destruct (Pickup.status d');
             intros Hedge; try discriminate Hedge; reflexivity.
      * destruct (pickup_change_driver d d' Hchange) as [Hsame|(Happr & _)];
          [exact Hsame|].
        rewrite Happr in Hd. destruct Hd as [H|H]; discriminate H.
    + intros a b c Hab Hbc Ha. destruct (Hab Ha) as (Hb & Hdb).
      destruct (Hbc Hb) as (Hc & Hdc). split; [exact Hc | congruence].
    + exact Hnth.
    + exists doc'. split; [exact Hnth' | exact (HR Hlate)].
Qed.

(** ** Two assignments at once *)

Lemma run_assign_driver_task (request_id driver_id : string) (admin : AdminUser.t)
    (t_entry t_updated : datetime) (db : DB) :
  run_task (assign_driver_task request_id driver_id admin t_entry t_updated) db
  = assign_driver request_id driver_id admin t_entry t_updated db.
Proof.
  unfold assign_driver_task, assign_driver. run_handler. simpl.
  destruct (find_one (pickup_id_is request_id) (pickup_requests db)) as [pickup|];
    [|reflexivity].
  destruct (PickupRequest.parse pickup) as [pickup_obj|e]; [|reflexivity].
  destruct (PickupStatus.eqb (Pickup.status pickup_obj) PickupStatus.APPROVED);
    [|reflexivity].
  simpl.
  destruct (find_one (driver_id_is driver_id) (drivers db)) as [driver|]; [|reflexivity].
  destruct (DriverStatus.eqb (Driver.status driver) DriverStatus.AVAILABLE); [|reflexivity].
  simpl.
  destruct (PickupRequest_of_found _); reflexivity.
Qed.

(** C9, as the code has it: [assign_driver] reads the request, reads the
    driver, and only then writes the request and the driver, each an await of
    its own, with no lock, transaction or conditional update.  Served alone,
    the task is the handler.  For two calls that target the same Available
    driver and two different Approved requests: served one after the other,
    the first succeeds and the second observes the driver Busy and fails with
    DriverUnavailable, attaching nothing; served concurrently so that both
    have read before either writes, nothing is written during the four reads,
    both observe the driver Available, both succeed, and afterwards both
    stored requests are Assigned to the same driver, which is Busy. *)
Theorem assign_driver_interleaving
    (rid1 rid2 did : string) (admin1 admin2 : AdminUser.t)
    (t1 t1' t2 t2' : datetime) (db : DB)
    (p1 p2 : PickupDoc) (obj1 obj2 : PickupRequest.t) (driver : Driver.t) :
  rid1 <> rid2 ->
  find_one (pickup_id_is rid1) (pickup_requests db) = Some p1 ->
  PickupRequest.parse p1 = Ok obj1 ->
  Pickup.status p1 = PickupStatus.APPROVED ->
  find_one (pickup_id_is rid2) (pickup_requests db) = Some p2 ->
  PickupRequest.parse p2 = Ok obj2 ->
  Pickup.status p2 = PickupStatus.APPROVED ->
  find_one (driver_id_is did) (drivers db) = Some driver ->
  Driver.status driver = DriverStatus.AVAILABLE ->
  let first := assign_driver_task rid1 did admin1 t1 t1' in
  let second := assign_driver_task rid2 did admin2 t2 t2' in
  (forall db0,
      run_task first db0 = assign_driver rid1 did admin1 t1 t1' db0
      /\ run_task second db0 = assign_driver rid2 did admin2 t2 t2' db0)
  /\ (exists updated1,
         interleave one_after_the_other first second db
         = (Return updated1, Fail DriverUnavailable,
            snd (assign_driver rid1 did admin1 t1 t1' db))
         /\ fst (assign_driver rid1 did admin1 t1 t1' db) = Ok updated1
         /\ find_one (pickup_id_is rid2)
              (pickup_requests (snd (assign_driver rid1 did admin1 t1 t1' db)))
            = Some p2)
  /\ snd (interleave [First; First; Second; Second] first second db) = db
  /\ (exists updated1 updated2 db',
         interleave both_read_first first second db = (Return updated1, Return updated2, db')
         /\ Pickup.status updated1 = PickupStatus.ASSIGNED
         /\ Pickup.driver_id updated1 = Some did
         /\ Pickup.status updated2 = PickupStatus.ASSIGNED
         /\ Pickup.driver_id updated2 = Some did
         /\ find_one (pickup_id_is rid1) (pickup_requests db')
            = Some (PickupRequest.dict updated1)
         /\ find_one (pickup_id_is rid2) (pickup_requests db')
            = Some (PickupRequest.dict updated2)
         /\ exists driver',
              find_one (driver_id_is did) (drivers db') = Some driver'
              /\ Driver.status driver' = DriverStatus.BUSY).
Proof.
  intros Hneq Hp1 Hparse1 Happr1 Hp2 Hparse2 Happr2 Hdriver Havail first second.
  pose proof (parse_status _ _ Hparse1) as (Hst1 & _).
  pose proof (parse_status _ _ Hparse2) as (Hst2 & _).
  destruct (parse_apply_assign_set p1 obj1 did admin1 t1 t1' Hparse1)
    as (updated1 & Hu1 & Hs1 & Hd1).
  destruct (parse_apply_assign_set p2 obj2 did admin2 t2 t2' Hparse2)
    as (updated2 & Hu2 & Hs2 & Hd2).
  pose proof (parse_dict _ _ Hu1) as Hdict1.
  pose proof (parse_dict _ _ Hu2) as Hdict2.
  unfold assign_set in Hu1, Hu2, Hdict1, Hdict2.
  assert (Hkeep : forall s x, driver_id_is did x = true ->
                              driver_id_is did (Driver.with_status s x) = true).
  { intros s x Hx. rewrite driver_id_is_with_status. exact Hx. }
  assert (Hkeep' : forall rid set x, pickup_id_is rid x = true ->
                                     pickup_id_is rid (PickupSet.apply set x) = true).
  { intros rid set x Hx. rewrite pickup_id_is_apply. exact Hx. }
  split; [|split; [|split]].
  - intros db0. split; apply run_assign_driver_task.
  - exists updated1.
    rewrite assign_driver_paths, Hp1, Hparse1, Hst1, Happr1. cbn [PickupStatus.eqb].
    rewrite Hdriver, Havail. cbn [DriverStatus.eqb fst snd]. unfold assign_set.
    rewrite Hu1. split; [|split; [reflexivity|]].
    + subst first second. unfold one_after_the_other, assign_driver_task.
      cbn [interleave resume pickup_requests_find_one].
      rewrite Hp1, Hparse1, Hst1, Happr1. cbn [PickupStatus.eqb negb].
      cbn [interleave resume drivers_find_one].
      rewrite Hdriver, Havail. cbn [DriverStatus.eqb negb].
      cbn [interleave resume pickup_requests_update_one drivers_update_one
             pickup_requests_find_one pickup_requests drivers ratings].
      rewrite (find_one_update_one (pickup_id_is rid1)) by (apply Hkeep').
      rewrite Hp1. cbn [option_map PickupRequest_of_found]. rewrite Hu1. cbn [of_result].
      rewrite (find_one_other_pickup rid1 rid2 _ _ Hneq), Hp2, Hparse2, Hst2, Happr2.
      cbn [PickupStatus.eqb negb].
      cbn [interleave resume drivers_find_one drivers].
      rewrite (find_one_update_one (driver_id_is did)) by (apply Hkeep).
      rewrite Hdriver. cbn [option_map Driver.with_status Driver.status DriverStatus.eqb negb].
      cbn [interleave resume]. reflexivity.
    + unfold with_assignment. cbn [pickup_requests].
      rewrite (find_one_other_pickup rid1 rid2 _ _ Hneq). exact Hp2.
  - subst first second. unfold assign_driver_task.
    cbn [interleave resume pickup_requests_find_one].
    rewrite Hp1, Hparse1, Hst1, Happr1. cbn [PickupStatus.eqb negb].
    cbn [interleave resume drivers_find_one].
    rewrite Hdriver, Havail. cbn [DriverStatus.eqb negb].
    cbn [interleave resume pickup_requests_find_one].
    rewrite Hp2, Hparse2, Hst2, Happr2. cbn [PickupStatus.eqb negb].
    cbn [interleave resume drivers_find_one].
    rewrite Hdriver, Havail. cbn [DriverStatus.eqb negb].
    reflexivity.
  - exists updated1, updated2.
    subst first second. unfold both_read_first, assign_driver_task.
    cbn [interleave resume pickup_requests_find_one].
    rewrite Hp1, Hparse1, Hst1, Happr1. cbn [PickupStatus.eqb negb].
    cbn [interleave resume drivers_find_one].
    rewrite Hdriver, Havail. cbn [DriverStatus.eqb negb].
    cbn [interleave resume pickup_requests_find_one].
    rewrite Hp2, Hparse2, Hst2, Happr2. cbn [PickupStatus.eqb negb].
    cbn [interleave resume drivers_find_one].
    rewrite Hdriver, Havail. cbn [DriverStatus.eqb negb].
    cbn [interleave resume pickup_requests_update_one drivers_update_one
           pickup_requests_find_one pickup_requests drivers ratings].
    rewrite !(find_one_update_one (pickup_id_is rid1)) by (apply Hkeep').
    rewrite (find_one_update_one (pickup_id_is rid2)) by (apply Hkeep').
    rewrite (find_one_other_pickup rid1 rid2 _ _ Hneq), Hp1, Hp2.
    cbn [option_map PickupRequest_of_found]. rewrite Hu1, Hu2. cbn [of_result].
    eexists. split; [reflexivity|].
    split; [exact Hs1|]. split; [exact Hd1|]. split; [exact Hs2|]. split; [exact Hd2|].
    cbn [pickup_requests drivers].
    split; [|split].
    + rewrite (find_one_other_pickup rid2 rid1 _ _ (fun E => Hneq (eq_sym E))).
      rewrite (find_one_update_one (pickup_id_is rid1)) by (apply Hkeep').
      rewrite Hp1. cbn [option_map]. rewrite Hdict1. reflexivity.
    + rewrite (find_one_update_one (pickup_id_is rid2)) by (apply Hkeep').
      rewrite (find_one_other_pickup rid1 rid2 _ _ Hneq), Hp2.
      cbn [option_map]. rewrite Hdict2. reflexivity.
    + eexists. rewrite !(find_one_update_one (driver_id_is did)) by (apply Hkeep).
      rewrite Hdriver. cbn [option_map]. split; reflexivity.
Qed.

(** ** The routes that only read *)

Lemma parse_of_dict (pickup : PickupRequest.t) :
  PickupRequest.parse (PickupRequest.dict pickup) = Ok pickup.
Proof.
  destruct pickup. reflexivity.
Qed.

Lemma get_pickup_request_paths (request_id : string) (db : DB) :
  get_pickup_request request_id db
  = match find_one (pickup_id_is request_id) (pickup_requests db) with
    | None => (Raise NotFound_pickup, db)
    | Some doc => (PickupRequest.parse doc, db)
    end.
Proof.
  unfold get_pickup_request. run_handler.
  destruct (find_one (pickup_id_is request_id) (pickup_requests db)); reflexivity.
Qed.

Lemma create_pickup_request_ok (math : Math) (cfg : Settings) (uid : string)
    (t_entry t_created t_updated : datetime) (request : PickupRequestCreate.t) (db db' : DB)
    (pickup : PickupRequest.t) :
  create_pickup_request math cfg uid t_entry t_created t_updated request db = (Ok pickup, db') ->
  db' = with_new_pickup pickup db
  /\ Pickup.id pickup = uid
  /\ Pickup.status pickup = PickupStatus.PENDING.
Proof.
  intros Hrun.
  destruct (haversine_distance math (SERVICE_CENTER_LAT cfg) (SERVICE_CENTER_LNG cfg)
              (Location.latitude (PickupRequestCreate.location request))
              (Location.longitude (PickupRequestCreate.location request)))
    as [d|e] eqn:Hd.
  - destruct (SERVICE_RADIUS_KM cfg <? d) eqn:Hcmp.
    + rewrite (create_beyond_radius math cfg uid t_entry t_created t_updated request db d Hd Hcmp)
        in Hrun.
      discriminate Hrun.
    + destruct (create_within_radius math cfg uid t_entry t_created t_updated request db d
                  Hd Hcmp) as (created & Hcreated & Hid & _ & Hst & _).
      rewrite Hcreated in Hrun. injection Hrun as <- <-.
      split; [reflexivity|]. split; assumption.
  - rewrite (create_math_error math cfg uid t_entry t_created t_updated request db e Hd) in Hrun.
    discriminate Hrun.
Qed.

(** X11: [get_pickup_request] returns what the writing routes stored.  It
    writes nothing, and its answer is 404 when no request is under the id;
    after a successful create under an id that was not in use it returns the
    request create returned, up to the times (create returns the object it
    built, the database keeps the times to the millisecond); after a
    successful update and after a successful assignment it returns the very
    request the route returned, which the route read from the database. *)
Theorem get_pickup_request_returns_what_was_written :
  (forall request_id db, snd (get_pickup_request request_id db) = db)
  /\ (forall request_id db,
        find_one (pickup_id_is request_id) (pickup_requests db) = None ->
        get_pickup_request request_id db = (Raise NotFound_pickup, db))
  /\ (forall math cfg uid t_entry t_created t_updated request db pickup db',
        create_pickup_request math cfg uid t_entry t_created t_updated request db
        = (Ok pickup, db') ->
        find_one (pickup_id_is uid) (pickup_requests db) = None ->
        exists read,
          get_pickup_request uid db' = (Ok read, db') /\ same_but_times pickup read)
  /\ (forall request_id update admin t_status t_price t_updated db updated db',
        update_pickup_request request_id update admin t_status t_price t_updated db
        = (Ok updated, db') ->
        get_pickup_request request_id db' = (Ok updated, db'))
  /\ (forall request_id driver_id admin t_entry t_updated db updated db',
        assign_driver request_id driver_id admin t_entry t_updated db = (Ok updated, db') ->
        get_pickup_request request_id db' = (Ok updated, db')).
Proof.
  refine (conj _ (conj _ (conj _ (conj _ _)))).
  - intros request_id db. rewrite get_pickup_request_paths.
    destruct (find_one (pickup_id_is request_id) (pickup_requests db)); reflexivity.
  - intros request_id db Hnone. rewrite get_pickup_request_paths, Hnone. reflexivity.
  - intros math cfg uid t_entry t_created t_updated request db pickup db' Hrun Hfresh.
    destruct (create_pickup_request_ok math cfg uid t_entry t_created t_updated request
                db db' pickup Hrun) as (-> & Hid & _).
    rewrite get_pickup_request_paths. simpl.
    rewrite find_one_insert_one, Hfresh.
    unfold pickup_id_is at 1. simpl. rewrite Hid, String.eqb_refl.
    rewrite parse_of_dict. exists pickup. split; [reflexivity|].
    unfold same_but_times. repeat split.
  - intros request_id update admin t_status t_price t_updated db updated db' Hrun.
    rewrite update_pickup_request_paths in Hrun.
    destruct (find_one (pickup_id_is request_id) (pickup_requests db)) as [existing|] eqn:Efind;
      [|discriminate Hrun].
    destruct (PickupRequest.parse existing) as [pickup|e]; [|discriminate Hrun].
    destruct (validate_status_transition pickup update admin t_status) as [sp|e];
      [|discriminate Hrun].
    simpl in Hrun. injection Hrun as Hparse <-.
    rewrite get_pickup_request_paths, find_one_with_pickup_set, Efind. simpl.
    rewrite Hparse. reflexivity.
  - intros request_id driver_id admin t_entry t_updated db updated db' Hrun.
    rewrite assign_driver_paths in Hrun.
    destruct (find_one (pickup_id_is request_id) (pickup_requests db)) as [existing|] eqn:Efind;
      [|discriminate Hrun].
    destruct (PickupRequest.parse existing) as [pickup_obj|e]; [|discriminate Hrun].
    destruct (PickupStatus.eqb (Pickup.status pickup_obj) PickupStatus.APPROVED);
      [|discriminate Hrun].
    destruct (find_one (driver_id_is driver_id) (drivers db)) as [driver|];
      [|discriminate Hrun].
    destruct (DriverStatus.eqb (Driver.status driver) DriverStatus.AVAILABLE);
      [|discriminate Hrun].
    simpl in Hrun. injection Hrun as Hparse <-.
    rewrite get_pickup_request_paths. simpl.
    rewrite find_one_update_one by (intros x Hx; rewrite pickup_id_is_apply; exact Hx).
    rewrite Efind. simpl. rewrite Hparse. reflexivity.
Qed.

Lemma update_one_idempotent {A : Type} (f : A -> bool) (set : A -> A) (coll : list A) :
  (forall d, f (set d) = f d) ->
  (forall d, set (set d) = set d) ->
  update_one f set (update_one f set coll) = update_one f set coll.
Proof.
  intros Hkeep Hidem.
  induction coll as [|d rest IH]; simpl.
  - reflexivity.
  - destruct (f d) eqn:E; simpl.
    + rewrite Hkeep, E, Hidem. reflexivity.
    + rewrite E, IH. reflexivity.
Qed.

(** X12: the driver registry.  [create_driver] stores an Available driver
    with the name, phone and vehicle of the body and no location, and
    [get_driver] returns a driver with these fields under its id when the id
    was not in use (the creation time it returns is the stored one);
    [update_driver_status] answers 404 and writes nothing when no driver is
    under the id, and otherwise overwrites the status and nothing else, so
    that [get_driver] returns the driver with the new status; setting the same
    status twice is the same as setting it once; [get_driver] writes nothing
    and answers 404 when no driver is under the id. *)
Theorem driver_registry_round_trip :
  (forall uid t_created body admin db,
      find_one (driver_id_is uid) (drivers db) = None ->
      exists driver db' read,
        create_driver uid t_created body admin db = (Ok driver, db')
        /\ Driver.id driver = uid
        /\ Driver.status driver = DriverStatus.AVAILABLE
        /\ get_driver uid db' = (Ok read, db')
        /\ Driver.id read = uid
        /\ Driver.name read = DriverCreate.name body
        /\ Driver.phone read = DriverCreate.phone body
        /\ Driver.vehicle_type read = DriverCreate.vehicle_type body
        /\ Driver.vehicle_number read = DriverCreate.vehicle_number body
        /\ Driver.status read = DriverStatus.AVAILABLE
        /\ Driver.current_location read = None)
  /\ (forall driver_id status admin db,
        find_one (driver_id_is driver_id) (drivers db) = None ->
        update_driver_status driver_id status admin db = (Raise NotFound_driver, db))
  /\ (forall driver_id status admin db driver,
        find_one (driver_id_is driver_id) (drivers db) = Some driver ->
        exists db',
          update_driver_status driver_id status admin db
          = (Ok (Driver.with_status status driver), db')
          /\ get_driver driver_id db' = (Ok (Driver.with_status status driver), db')
          /\ pickup_requests db' = pickup_requests db
          /\ ratings db' = ratings db)
  /\ (forall driver_id status admin db,
        let once := snd (update_driver_status driver_id status admin db) in
        snd (update_driver_status driver_id status admin once) = once)
  /\ (forall driver_id db,
        snd (get_driver driver_id db) = db
        /\ (find_one (driver_id_is driver_id) (drivers db) = None ->
            get_driver driver_id db = (Raise NotFound_driver, db))).
Proof.
  refine (conj _ (conj _ (conj _ (conj _ _)))).
  - intros uid t_created body admin db Hfresh.
    unfold create_driver, get_driver. run_handler. simpl.
    eexists. eexists. eexists.
    split; [reflexivity|]. split; [reflexivity|]. split; [reflexivity|].
    simpl. rewrite find_one_insert_one, Hfresh.
    unfold driver_id_is at 1. simpl. rewrite String.eqb_refl.
    split; [reflexivity|]. repeat split.
  - intros driver_id status admin db Hnone.
    rewrite update_driver_status_paths, Hnone. reflexivity.
  - intros driver_id status admin db driver Hfound.
    rewrite update_driver_status_paths, Hfound.
    eexists. split; [reflexivity|]. split; [|split; reflexivity].
    unfold get_driver. run_handler. simpl.
    rewrite find_one_update_one
      by (intros x Hx; rewrite driver_id_is_with_status; exact Hx).
    rewrite Hfound. reflexivity.
  - intros driver_id status admin db once. subst once.
    rewrite (update_driver_status_paths driver_id status admin db).
    destruct (find_one (driver_id_is driver_id) (drivers db)) as [driver|] eqn:Efind; simpl.
    + rewrite update_driver_status_paths. simpl.
      rewrite find_one_update_one
        by (intros x Hx; rewrite driver_id_is_with_status; exact Hx).
      rewrite Efind. simpl. unfold with_driver_status. simpl.
      rewrite update_one_idempotent; [reflexivity| |].
      * intros d. apply driver_id_is_with_status.
      * intros d. reflexivity.
    + rewrite update_driver_status_paths, Efind. reflexivity.
  - intros driver_id db. unfold get_driver. run_handler.
    destruct (find_one (driver_id_is driver_id) (drivers db)); split;
      try reflexivity; intros H; discriminate H.
Qed.

(** ** Ratings *)

Lemma call_effect_step (db db' : DB) (c : ApiCall) : call_effect db c db' -> step_effect db db'.
Proof.
  intros Hcall.
  destruct Hcall as [ c | body pickup Hnew
                    | rid update existing pickup admin t_status t_price t_updated sp
                        Hfind Hparse Hv
                    | rid did existing pickup_obj found admin t_entry t_updated
                        Hfind Hparse Happr Hdriver Havail
                    | body new_driver Havail | did status found Hdriver
                    | body rating pickup Hpid Hrange Hfind Hdone Hrated ].
  - apply effect_none.
  - destruct Hnew as (Hst & _ & _ & _ & t_entry & Hhist).
    exact (effect_create db pickup t_entry Hst Hhist).
  - exact (effect_update db rid existing pickup update admin t_status t_price t_updated sp
             Hfind Hparse Hv).
  - exact (effect_assign db rid did existing pickup_obj found admin t_entry t_updated
             Hfind Hparse Happr Hdriver Havail).
  - exact (effect_new_driver db new_driver Havail).
  - exact (effect_driver_status db did status).
  - exact (effect_new_rating db rating pickup Hfind Hdone Hrated).
Qed.

(** Every stored rating is within the bounds and belongs to a Completed
    pickup request. *)
Lemma stored_ratings_invariant (math : Math) (cfg : Settings) (auth : Auth)
    (reqs : list Request) :
  Forall (fun rating =>
            (1 <= Rating.rating rating <= 5)%Z
            /\ exists pickup,
                 find_one (pickup_id_is (Rating.pickup_id rating))
                   (pickup_requests (run math cfg auth reqs empty_db)) = Some pickup
                 /\ Pickup.status pickup = PickupStatus.COMPLETED)
    (ratings (run math cfg auth reqs empty_db)).
Proof.
  apply (run_invariant_all math cfg auth
           (fun db =>
              Forall (fun rating =>
                        (1 <= Rating.rating rating <= 5)%Z
                        /\ exists pickup,
                             find_one (pickup_id_is (Rating.pickup_id rating))
                               (pickup_requests db) = Some pickup
                             /\ Pickup.status pickup = PickupStatus.COMPLETED)
                (ratings db))); [|constructor].
  intros db c db' Hcall Hall.
  assert (Hold : Forall (fun rating =>
                           (1 <= Rating.rating rating <= 5)%Z
                           /\ exists pickup,
                                find_one (pickup_id_is (Rating.pickup_id rating))
                                  (pickup_requests db') = Some pickup
                                /\ Pickup.status pickup = PickupStatus.COMPLETED)
                   (ratings db)).
  { apply (Forall_impl _ (P := fun rating =>
                                 (1 <= Rating.rating rating <= 5)%Z
                                 /\ exists pickup,
                                      find_one (pickup_id_is (Rating.pickup_id rating))
                                        (pickup_requests db) = Some pickup
                                      /\ Pickup.status pickup = PickupStatus.COMPLETED));
      [|exact Hall].
    intros rating (Hrange & pickup & Hfound & Hdone). split; [exact Hrange|].
    exact (step_completed db db' (Rating.pickup_id rating) pickup
             (call_effect_step db db' c Hcall) Hfound Hdone). }
  clear Hall.
  destruct Hcall as [ c | body pickup Hnew
                    | rid update existing pickup admin t_status t_price t_updated sp
                        Hfind Hparse Hv
                    | rid did existing pickup_obj found admin t_entry t_updated
                        Hfind Hparse Happr Hdriver Havail
                    | body new_driver Havail | did status found Hdriver
                    | body rating pickup Hpid Hrange Hfind Hdone Hrated ];
    try exact Hold.
  simpl in *. apply Forall_insert_one; [exact Hold|].
  split; [exact Hrange|]. exists pickup. split; assumption.
Qed.

(** X13: in every database the application reaches from the empty one, every
    stored rating has a score from 1 to 5 and is the rating of a pickup
    request that exists and is Completed. *)
Theorem ratings_reference_completed_requests
    (math : Math) (cfg : Settings) (auth : Auth) (reqs : list Request) :
  let db := run math cfg auth reqs empty_db in
  Forall (fun rating =>
            (1 <= Rating.rating rating <= 5)%Z
            /\ exists pickup,
                 find_one (pickup_id_is (Rating.pickup_id rating)) (pickup_requests db)
                 = Some pickup
                 /\ Pickup.id pickup = Rating.pickup_id rating
                 /\ Pickup.status pickup = PickupStatus.COMPLETED)
    (ratings db).
Proof.
  intros db. subst db.
  pose proof (stored_ratings_invariant math cfg auth reqs) as Hall.
  rewrite Forall_forall in *. intros rating Hin.
  destruct (Hall rating Hin) as (Hrange & pickup & Hfound & Hdone).
  split; [exact Hrange|]. exists pickup. split; [exact Hfound|]. split; [|exact Hdone].
  apply find_one_matches in Hfound. apply String.eqb_eq in Hfound. exact Hfound.
Qed.

(** X14: [get_rating] writes nothing and answers 404 when the pickup request
    has no rating; after a successful [POST /ratings] it returns a rating with
    the id, pickup id, score and feedback of the rating the route returned
    (the creation time it returns is the stored one); and in every database
    the application reaches from
    the empty one it returns the stored rating of the pickup request whenever
    there is one, so the bound on the score never fails on a stored rating. *)
Theorem get_rating_round_trip (math : Math) (cfg : Settings) (auth : Auth) :
  (forall pickup_id db, snd (get_rating pickup_id db) = db)
  /\ (forall pickup_id db,
        find_one (rating_pickup_id_is pickup_id) (ratings db) = None ->
        get_rating pickup_id db = (Raise NotFound_rating, db))
  /\ (forall uid t_created body db rating db',
        post_ratings uid t_created body db = (Ok rating, db') ->
        exists read,
          get_rating (RatingCreate.pickup_id body) db' = (Ok read, db')
          /\ Rating.id read = Rating.id rating
          /\ Rating.pickup_id read = Rating.pickup_id rating
          /\ Rating.rating read = Rating.rating rating
          /\ Rating.feedback read = Rating.feedback rating)
  /\ (forall reqs pickup_id rating,
        let db := run math cfg auth reqs empty_db in
        find_one (rating_pickup_id_is pickup_id) (ratings db) = Some rating ->
        get_rating pickup_id db = (Ok rating, db) /\ Rating.pickup_id rating = pickup_id).
Proof.
  refine (conj _ (conj _ (conj _ _))).
  - intros pickup_id db. unfold get_rating. run_handler.
    destruct (find_one (rating_pickup_id_is pickup_id) (ratings db)); reflexivity.
  - intros pickup_id db Hnone. unfold get_rating. run_handler. rewrite Hnone. reflexivity.
  - intros uid t_created body db rating db' Hrun.
    rewrite post_ratings_paths in Hrun.
    destruct (score_in_range body) eqn:Erange; [|discriminate Hrun].
    destruct (find_one (pickup_id_is (RatingCreate.pickup_id body)) (pickup_requests db));
      [|discriminate Hrun].
    destruct (PickupStatus.eqb (Pickup.status p) PickupStatus.COMPLETED); [|discriminate Hrun].
    destruct (find_one (rating_pickup_id_is (RatingCreate.pickup_id body)) (ratings db))
      eqn:Erated; [discriminate Hrun|].
    simpl in Hrun. injection Hrun as <- <-.
    unfold get_rating. run_handler. simpl.
    rewrite find_one_insert_one, Erated.
    unfold rating_pickup_id_is at 1. simpl. rewrite String.eqb_refl.
    unfold Rating_parse. simpl. unfold score_in_range in Erange. rewrite Erange.
    eexists. split; [reflexivity|]. repeat split.
  - intros reqs pickup_id rating db Hfound. subst db.
    pose proof (stored_ratings_invariant math cfg auth reqs) as Hall.
    rewrite Forall_forall in Hall.
    assert (Hin : In rating (ratings (run math cfg auth reqs empty_db))).
    { unfold find_one in Hfound. apply find_some in Hfound. tauto. }
    destruct (Hall rating Hin) as ((Hlo & Hhi) & _).
    split.
    + unfold get_rating. run_handler. rewrite Hfound.
      unfold Rating_parse.
      apply Z.leb_le in Hlo. apply Z.leb_le in Hhi. rewrite Hlo, Hhi. reflexivity.
    + apply find_one_matches in Hfound. apply String.eqb_eq in Hfound. exact Hfound.
Qed.

(** ** Statistics *)

Lemma count_documents_insert_one {A : Type} (f : A -> bool) (doc : A) (coll : list A) :
  count_documents f (insert_one doc coll)
  = (count_documents f coll + (if f doc then 1 else 0))%Z.
Proof.
  unfold count_documents, insert_one. rewrite filter_app, length_app. simpl.
  destruct (f doc); simpl; lia.
Qed.

Lemma count_documents_update_one {A : Type} (f g : A -> bool) (set : A -> A)
    (coll : list A) (x : A) :
  find_one g coll = Some x ->
  (count_documents f (update_one g set coll) + (if f x then 1 else 0)
   = count_documents f coll + (if f (set x) then 1 else 0))%Z.
Proof.
  unfold count_documents, find_one.
  induction coll as [|d rest IH]; simpl; intros Hfound.
  - discriminate Hfound.
  - destruct (g d) eqn:Eg.
    + injection Hfound as <-. simpl. destruct (f d), (f (set d)); simpl List.length; lia.
    + specialize (IH Hfound). simpl. destruct (f d); simpl List.length; lia.
Qed.

Lemma pickup_status_is_eqb (status : PickupStatus.t) (doc : PickupDoc) :
  pickup_status_is status doc = PickupStatus.eqb (Pickup.status doc) status.
Proof.
  apply PickupStatus_value_eqb.
Qed.

Lemma count_documents_by_status (coll : list PickupDoc) :
  (count_documents (pickup_status_is PickupStatus.PENDING) coll
   + count_documents (pickup_status_is PickupStatus.APPROVED) coll
   + count_documents (pickup_status_is PickupStatus.ASSIGNED) coll
   + count_documents (pickup_status_is PickupStatus.COMPLETED) coll
   = Z.of_nat (List.length coll))%Z.
Proof.
  unfold count_documents.
  induction coll as [|d rest IH].
  - reflexivity.
  - cbn [List.filter]. rewrite !pickup_status_is_eqb.
    destruct (Pickup.status d); cbn [PickupStatus.eqb]; simpl List.length; lia.
Qed.

Lemma get_stats_value (db : DB) :
  get_stats db
  = (Ok {| Stats.pending :=
             count_documents (pickup_status_is PickupStatus.PENDING) (pickup_requests db);
           Stats.approved :=
             count_documents (pickup_status_is PickupStatus.APPROVED) (pickup_requests db);
           Stats.assigned :=
             count_documents (pickup_status_is PickupStatus.ASSIGNED) (pickup_requests db);
           Stats.completed :=
             count_documents (pickup_status_is PickupStatus.COMPLETED) (pickup_requests db);
           Stats.total := Z.of_nat (List.length (pickup_requests db)) |}, db).
Proof.
  unfold get_stats, pickup_requests_count_documents. run_handler.
  rewrite count_documents_by_status. reflexivity.
Qed.

(** X15: [get_stats] writes nothing, and its [total], the sum of the four
    counts, is the number of stored pickup requests: every stored request has
    one of the four statuses.  A successful create adds one to [pending] and
    to [total]; a successful [assign_driver] moves one from [approved] to
    [assigned] and leaves the other counts as they are. *)
Theorem get_stats_counts :
  (forall db,
      exists stats,
        get_stats db = (Ok stats, db)
        /\ Stats.total stats = Z.of_nat (List.length (pickup_requests db))
        /\ (Stats.pending stats + Stats.approved stats + Stats.assigned stats
            + Stats.completed stats = Stats.total stats)%Z)
  /\ (forall math cfg uid t_entry t_created t_updated request db pickup db' stats stats',
        create_pickup_request math cfg uid t_entry t_created t_updated request db
        = (Ok pickup, db') ->
        fst (get_stats db) = Ok stats ->
        fst (get_stats db') = Ok stats' ->
        stats' = {| Stats.pending := (Stats.pending stats + 1)%Z;
                    Stats.approved := Stats.approved stats;
                    Stats.assigned := Stats.assigned stats;
                    Stats.completed := Stats.completed stats;
                    Stats.total := (Stats.total stats + 1)%Z |})
  /\ (forall request_id driver_id admin t_entry t_updated db updated db' stats stats',
        assign_driver request_id driver_id admin t_entry t_updated db = (Ok updated, db') ->
        fst (get_stats db) = Ok stats ->
        fst (get_stats db') = Ok stats' ->
        stats' = {| Stats.pending := Stats.pending stats;
                    Stats.approved := (Stats.approved stats - 1)%Z;
                    Stats.assigned := (Stats.assigned stats + 1)%Z;
                    Stats.completed := Stats.completed stats;
                    Stats.total := Stats.total stats |}).
Proof.
  refine (conj _ (conj _ _)).
  - intros db. eexists. split; [apply get_stats_value|]. simpl.
    split; [reflexivity | apply count_documents_by_status].
  - intros math cfg uid t_entry t_created t_updated request db pickup db' stats stats'
      Hrun Hstats Hstats'.
    destruct (create_pickup_request_ok math cfg uid t_entry t_created t_updated request
                db db' pickup Hrun) as (-> & _ & Hst).
    rewrite get_stats_value in Hstats, Hstats'. simpl in Hstats, Hstats'.
    injection Hstats as <-. injection Hstats' as <-. simpl.
    unfold insert_one. rewrite length_app. fold (insert_one (PickupRequest.dict pickup)
                                                   (pickup_requests db)).
    rewrite !count_documents_insert_one, !pickup_status_is_eqb. simpl. rewrite Hst. simpl.
    f_equal; lia.
  - intros request_id driver_id admin t_entry t_updated db updated db' stats stats'
      Hrun Hstats Hstats'.
    rewrite assign_driver_paths in Hrun.
    destruct (find_one (pickup_id_is request_id) (pickup_requests db)) as [existing|] eqn:Efind;
      [|discriminate Hrun].
    destruct (PickupRequest.parse existing) as [pickup_obj|e] eqn:Eparse; [|discriminate Hrun].
    destruct (PickupStatus.eqb (Pickup.status pickup_obj) PickupStatus.APPROVED) eqn:Eappr;
      [|discriminate Hrun].
    destruct (find_one (driver_id_is driver_id) (drivers db)) as [driver|];
      [|discriminate Hrun].
    destruct (DriverStatus.eqb (Driver.status driver) DriverStatus.AVAILABLE);
      [|discriminate Hrun].
    simpl in Hrun. injection Hrun as _ <-.
    apply PickupStatus_eqb_eq in Eappr.
    pose proof (parse_status _ _ Eparse) as (Hst & _). rewrite Hst in Eappr.
    rewrite get_stats_value in Hstats, Hstats'. simpl in Hstats, Hstats'.
    injection Hstats as <-. injection Hstats' as <-.
    rewrite update_one_length.
    pose proof (fun s =>
                  count_documents_update_one (pickup_status_is s) (pickup_id_is request_id)
                    (PickupSet.apply (assign_set pickup_obj driver_id admin t_entry t_updated))
                    (pickup_requests db) existing Efind) as Hcount.
    pose proof (Hcount PickupStatus.PENDING) as H1.
    pose proof (Hcount PickupStatus.APPROVED) as H2.
    pose proof (Hcount PickupStatus.ASSIGNED) as H3.
    pose proof (Hcount PickupStatus.COMPLETED) as H4.
    clear Hcount.
    rewrite !pickup_status_is_eqb in H1, H2, H3, H4.
    simpl in H1, H2, H3, H4. rewrite Eappr in H1, H2, H3, H4. simpl in H1, H2, H3, H4.
    simpl. f_equal; lia.
Qed.

(** ** The cost preview *)

(** X16: the cost preview decides as create does.  On the location, quantity
    and waste type of a create request it writes nothing; it answers
    [in_service_area] False exactly when create refuses the request as
    outside the service area; otherwise the distance and the cost it shows are
    the distance and the estimated cost create stores; and it raises exactly
    when create raises from the [math] module. *)
Theorem preview_agrees_with_create
    (math : Math) (cfg : Settings) (uid : string) (t_entry t_created t_updated : datetime)
    (request : PickupRequestCreate.t) (db : DB) :
  let preview :=
    calculate_cost_preview math cfg
      (Location.latitude (PickupRequestCreate.location request))
      (Location.longitude (PickupRequestCreate.location request))
      (PickupRequestCreate.quantity request) (PickupRequestCreate.waste_type request) db in
  let created := create_pickup_request math cfg uid t_entry t_created t_updated request db in
  snd preview = db
  /\ match fst preview with
     | Ok (OutsideServiceArea message) =>
         message = "Currently we serve Siliguri city limits only."
         /\ created = (Raise OutOfServiceArea, db)
     | Ok (InServiceArea distance_km estimated_cost) =>
         exists pickup,
           created = (Ok pickup, with_new_pickup pickup db)
           /\ Pickup.distance_km pickup = distance_km
           /\ Pickup.estimated_cost pickup = estimated_cost
     | Raise e => created = (Raise e, db)
     end.
Proof.
  intros preview created. subst preview created.
  unfold calculate_cost_preview. run_handler.
  destruct (haversine_distance math (SERVICE_CENTER_LAT cfg) (SERVICE_CENTER_LNG cfg)
              (Location.latitude (PickupRequestCreate.location request))
              (Location.longitude (PickupRequestCreate.location request)))
    as [d|e] eqn:Hd.
  - destruct (SERVICE_RADIUS_KM cfg <? d) eqn:Hcmp; simpl.
    + split; [reflexivity|]. split; [reflexivity|].
      exact (create_beyond_radius math cfg uid t_entry t_created t_updated request db d Hd Hcmp).
    + split; [reflexivity|].
      destruct (create_within_radius math cfg uid t_entry t_created t_updated request db d
                  Hd Hcmp) as (pickup & Hrun & _ & _ & _ & Hcost & Hdist & _).
      exists pickup. split; [exact Hrun|]. split; [exact Hdist | exact Hcost].
  - simpl. split; [reflexivity|].
    exact (create_math_error math cfg uid t_entry t_created t_updated request db e Hd).
Qed.

(** ** The list of drivers *)

Lemma DriverStatus_value_eqb (a b : DriverStatus.t) :
  String.eqb (DriverStatus.value a) (DriverStatus.value b) = DriverStatus.eqb a b.
Proof.
  destruct a, b; reflexivity.
Qed.

Lemma filter_all {A : Type} (coll : list A) : List.filter (fun _ => true) coll = coll.
Proof.
  induction coll as [|d rest IH]; simpl; [reflexivity | rewrite IH; reflexivity].
Qed.

Lemma In_firstn {A : Type} (n : nat) (coll : list A) (x : A) :
  In x (firstn n coll) -> In x coll.
Proof.
  intros H. rewrite <- (firstn_skipn n coll). apply in_or_app. left. exact H.
Qed.

(** X17: [get_drivers] writes nothing and returns at most 100 drivers, each
    of them a stored driver and, under a status filter, a driver with that
    status; when at most 100 drivers are stored it returns every stored
    driver the filter admits, and without a filter the stored drivers as they
    are. *)
Theorem get_drivers_filter (status : option DriverStatus.t) (db : DB) :
  exists found,
    get_drivers status db = (Ok found, db)
    /\ (List.length found <= 100)%nat
    /\ (forall driver,
          In driver found ->
          In driver (drivers db) /\ forall s, status = Some s -> Driver.status driver = s)
    /\ ((List.length (drivers db) <= 100)%nat ->
        forall driver,
          In driver (drivers db) ->
          (forall s, status = Some s -> Driver.status driver = s) ->
          In driver found)
    /\ (status = None -> found = firstn 100 (drivers db)).
Proof.
  unfold get_drivers, drivers_find_to_list, find_to_list. run_handler.
  eexists. split; [reflexivity|]. rewrite map_id.
  split; [apply firstn_le_length|]. split; [|split].
  - intros driver Hin. apply In_firstn in Hin. apply filter_In in Hin.
    destruct Hin as (Hin & Hq). split; [exact Hin|].
    intros s ->. unfold driver_status_is in Hq. rewrite DriverStatus_value_eqb in Hq.
    apply DriverStatus_eqb_eq. exact Hq.
  - intros Hfew driver Hin Hs.
    rewrite firstn_all2.
    + apply filter_In. split; [exact Hin|].
      destruct status as [s|]; [|reflexivity].
      unfold driver_status_is. rewrite DriverStatus_value_eqb.
      apply DriverStatus_eqb_eq. apply Hs. reflexivity.
    + pose proof (filter_length_le
                    (match status with
                     | Some s => driver_status_is s
                     | None => fun _ => true
                     end) (drivers db)) as Hle.
      lia.
  - intros ->. rewrite filter_all. reflexivity.
Qed.

(** ** Authorization *)

(** X18: the four admin routes (update a pickup request, assign a driver,
    create a driver, set the status of a driver) answer with the exception of
    [get_current_admin] and write nothing when the admin cannot be resolved:
    what [HTTPBearer] raises without credentials, or 401 when the token does
    not verify.  Creating a pickup request and rating one are public: their
    outcome depends neither on the Authorization header nor on the tokens that
    verify. *)
Theorem admin_routes_need_admin
    (math : Math) (cfg : Settings) (auth : Auth) (req : Request) (db : DB) :
  (requires_admin (call req) = true ->
   (forall e,
       get_current_admin auth (authorization req) = Raise e ->
       serve math cfg auth req db = (Raise e, db))
   /\ (forall e,
         security auth (authorization req) = Raise e ->
         serve math cfg auth req db = (Raise e, db))
   /\ (forall token,
         security auth (authorization req) = Ok token ->
         verify_jwt_token auth token = None ->
         serve math cfg auth req db
         = (Raise (HTTPException 401 "Invalid or expired token"), db)))
  /\ (requires_admin (call req) = false ->
      forall auth' header,
        serve math cfg auth'
          {| authorization := header; uuid4 := uuid4 req; utcnow := utcnow req;
             call := call req |} db
        = serve math cfg auth req db).
Proof.
  assert (Hrefuse : requires_admin (call req) = true ->
                    forall e,
                      get_current_admin auth (authorization req) = Raise e ->
                      serve math cfg auth req db = (Raise e, db)).
  { intros Hadmin e He. unfold serve.
    destruct (call req); try discriminate Hadmin; rewrite bind_lift, He; reflexivity. }
  split.
  - intros Hadmin. split; [exact (Hrefuse Hadmin)|]. split.
    + intros e He. apply (Hrefuse Hadmin). unfold get_current_admin. rewrite He. reflexivity.
    + intros token Htoken Hverify. apply (Hrefuse Hadmin).
      unfold get_current_admin. rewrite Htoken. simpl. rewrite Hverify. reflexivity.
  - intros Hpublic auth' header. unfold serve. simpl.
    destruct (call req); try discriminate Hpublic; reflexivity.
Qed.

(** ** Requests that fail *)

Lemma fst_bind_ret {A B : Type} (c : M A) (f : A -> B) (db : DB) (e : Exn) :
  fst (bind c (fun a => ret (f a)) db) = Raise e -> fst (c db) = Raise e.
Proof.
  unfold bind, ret. destruct (c db) as [[a|e'] db']; simpl; intros H;
    [discriminate H | injection H as ->; reflexivity].
Qed.

Lemma parse_apply_update_set_raise (existing : PickupDoc) (pickup : PickupRequest.t)
    (update : PickupRequestUpdate.t) (admin : AdminUser.t) (t_price t_updated : datetime)
    (status_part : option PickupStatus.t * option (list StatusHistoryEntry.t)) (e : Exn) :
  PickupRequest.parse existing = Ok pickup ->
  PickupRequest.parse
    (PickupSet.apply (update_set pickup update admin t_price t_updated status_part) existing)
  = Raise e ->
  PickupRequestUpdate.payment_status update = Provided None
  /\ e = ValidationError "PickupRequest".
Proof.
  intros Hparse. pose proof (parse_status _ _ Hparse) as (_ & _ & _ & _ & _ & _ & Hps).
  unfold PickupRequest.parse. simpl. rewrite Hps.
  destruct (PickupRequestUpdate.payment_status update) as [|[ps|]]; simpl; intros H;
    try discriminate H.
  injection H as <-. split; reflexivity.
Qed.

(** When a route raises, it has written nothing, unless it is an update whose
    body provides [payment_status: null]. *)
Lemma serve_raises_before_writing
    (math : Math) (cfg : Settings) (auth : Auth) (req : Request) (db : DB) (e : Exn) :
  fst (serve math cfg auth req db) = Raise e ->
  exec math cfg auth req db = db
  \/ (e = ValidationError "PickupRequest"
      /\ exists request_id update,
           call req = PUT_pickup_request request_id update
           /\ PickupRequestUpdate.payment_status update = Provided None).
Proof.
  unfold exec, serve.
  destruct (call req) as [body|rid update|rid did|driver|did status|body]; intros Hfail.
  - left. rewrite bind_lift in *.
    destruct (PickupRequestCreate.validate body) as [request|e0]; [|reflexivity].
    rewrite snd_bind_ret. apply fst_bind_ret in Hfail.
    destruct (haversine_distance math (SERVICE_CENTER_LAT cfg) (SERVICE_CENTER_LNG cfg)
                (Location.latitude (PickupRequestCreate.location request))
                (Location.longitude (PickupRequestCreate.location request)))
      as [d|e0] eqn:Hd.
    + destruct (SERVICE_RADIUS_KM cfg <? d) eqn:Hcmp.
      * rewrite (create_beyond_radius math cfg (uuid4 req) (utcnow req 0%nat) (utcnow req 1%nat)
                   (utcnow req 2%nat) request db d Hd Hcmp). reflexivity.
      * destruct (create_within_radius math cfg (uuid4 req) (utcnow req 0%nat)
                    (utcnow req 1%nat) (utcnow req 2%nat) request db d Hd Hcmp)
          as (pickup & Hrun & _).
        rewrite Hrun in Hfail. discriminate Hfail.
    + rewrite (create_math_error math cfg (uuid4 req) (utcnow req 0%nat) (utcnow req 1%nat)
                 (utcnow req 2%nat) request db e0 Hd). reflexivity.
  - rewrite bind_lift in *.
    destruct (get_current_admin auth (authorization req)) as [admin|e0];
      [|left; reflexivity].
    rewrite snd_bind_ret. apply fst_bind_ret in Hfail.
    rewrite update_pickup_request_paths in *.
    destruct (find_one (pickup_id_is rid) (pickup_requests db)) as [existing|];
      [|left; reflexivity].
    destruct (PickupRequest.parse existing) as [pickup|e0] eqn:Eparse; [|left; reflexivity].
    destruct (validate_status_transition pickup update admin (utcnow req 0%nat))
      as [sp|e0]; [|left; reflexivity].
    simpl in Hfail.
    destruct (parse_apply_update_set_raise existing pickup update admin (utcnow req 1%nat)
                (utcnow req 2%nat) sp e Eparse Hfail) as (Hnull & ->).
    right. split; [reflexivity|]. exists rid, update. split; [reflexivity | exact Hnull].
  - left. rewrite bind_lift in *.
    destruct (get_current_admin auth (authorization req)) as [admin|e0]; [|reflexivity].
    rewrite snd_bind_ret. apply fst_bind_ret in Hfail.
    rewrite assign_driver_paths in *.
    destruct (find_one (pickup_id_is rid) (pickup_requests db)) as [existing|];
      [|reflexivity].
    destruct (PickupRequest.parse existing) as [pickup_obj|e0] eqn:Eparse; [|reflexivity].
    destruct (PickupStatus.eqb (Pickup.status pickup_obj) PickupStatus.APPROVED);
      [|reflexivity].
    destruct (find_one (driver_id_is did) (drivers db)) as [found|]; [|reflexivity].
    destruct (DriverStatus.eqb (Driver.status found) DriverStatus.AVAILABLE); [|reflexivity].
    simpl in Hfail.
    destruct (parse_apply_assign_set existing pickup_obj did admin (utcnow req 0%nat)
                (utcnow req 1%nat) Eparse) as (updated & Hupdated & _).
    rewrite Hupdated in Hfail. discriminate Hfail.
  - left. rewrite bind_lift in *.
    destruct (get_current_admin auth (authorization req)) as [admin|e0]; [|reflexivity].
    apply fst_bind_ret in Hfail. unfold create_driver in Hfail. run_handler.
    simpl in Hfail. discriminate Hfail.
  - left. rewrite bind_lift in *.
    destruct (get_current_admin auth (authorization req)) as [admin|e0]; [|reflexivity].
    rewrite snd_bind_ret. apply fst_bind_ret in Hfail.
    rewrite update_driver_status_paths in *.
    destruct (find_one (driver_id_is did) (drivers db)); [discriminate Hfail | reflexivity].
  - left. rewrite snd_bind_ret. apply fst_bind_ret in Hfail.
    rewrite post_ratings_paths in *.
    destruct (score_in_range body); [|reflexivity].
    destruct (find_one (pickup_id_is (RatingCreate.pickup_id body)) (pickup_requests db));
      [|reflexivity].
    destruct (PickupStatus.eqb (Pickup.status p) PickupStatus.COMPLETED); [|reflexivity].
    destruct (find_one (rating_pickup_id_is (RatingCreate.pickup_id body)) (ratings db));
      [reflexivity | discriminate Hfail].
Qed.

(** X19: with a database whose operations do not fail, a request that is
    answered with an exception has written nothing, with two exceptions.  An
    update whose body provides [payment_status: null] has written its [$set]
    document when the reload of the request raises the ValidationError.  And
    when the handler has succeeded, and has written, the rendering of its
    response raises a ValueError if the response holds a float that is NaN
    or infinite. *)
Theorem failed_requests_write_nothing
    (math : Math) (cfg : Settings) (auth : Auth) (req : Request) (db : DB) (e : Exn) :
  fst (respond math cfg auth req db) = Raise e ->
  snd (respond math cfg auth req db) = db
  \/ (e = ValidationError "PickupRequest"
      /\ exists request_id update,
           call req = PUT_pickup_request request_id update
           /\ PickupRequestUpdate.payment_status update = Provided None)
  \/ (e = ValueError "Out of range float values are not JSON compliant"
      /\ exists response,
           serve math cfg auth req db = (Ok response, snd (respond math cfg auth req db))
           /\ json_compliant response = false).
Proof.
  pose proof (serve_raises_before_writing math cfg auth req db) as Hserve.
  unfold exec in Hserve. unfold respond, bind, lift, render.
  destruct (serve math cfg auth req db) as [[response|e'] db'].
  - simpl. destruct (json_compliant response) eqn:Ejson; intros H; [discriminate H|].
    injection H as <-. right. right. split; [reflexivity|].
    exists response. split; [reflexivity | exact Ejson].
  - simpl. intros H. injection H as <-.
    destruct (Hserve e' eq_refl) as [Hsame|Hnull]; [left; exact Hsame | right; left; exact Hnull].
Qed.

(** A stored request whose [payment_status] is None stays as it is found
    under its id. *)
Lemma call_effect_unparseable (db db' : DB) (c : ApiCall) (request_id : string) :
  call_effect db c db' ->
  (exists doc,
      find_one (pickup_id_is request_id) (pickup_requests db) = Some doc
      /\ Pickup.payment_status doc = None) ->
  exists doc,
    find_one (pickup_id_is request_id) (pickup_requests db') = Some doc
    /\ Pickup.payment_status doc = None.
Proof.
  intros Hcall (doc & Hfound & Hnone).
  assert (Hbad : forall pickup, PickupRequest.parse doc <> Ok pickup).
  { intros pickup. unfold PickupRequest.parse. rewrite Hnone. intros H. discriminate H. }
  destruct Hcall as [ c | body pickup Hnew
                    | rid update existing pickup admin t_status t_price t_updated sp
                        Hfind Hparse Hv
                    | rid did existing pickup_obj found admin t_entry t_updated
                        Hfind Hparse Happr Hdriver Havail
                    | body new_driver Havail | did status found Hdriver
                    | body rating pickup Hpid Hrange Hfind Hdone Hrated ];
    try (exists doc; split; assumption).
  - exists doc. simpl. rewrite find_one_insert_one, Hfound. split; [reflexivity | exact Hnone].
  - simpl. destruct (String.eqb rid request_id) eqn:Eid.
    + apply String.eqb_eq in Eid. subst rid. rewrite Hfound in Hfind. injection Hfind as <-.
      contradiction (Hbad pickup Hparse).
    + apply String.eqb_neq in Eid. rewrite (find_one_other_pickup _ _ _ _ Eid).
      exists doc. split; assumption.
  - simpl. destruct (String.eqb rid request_id) eqn:Eid.
    + apply String.eqb_eq in Eid. subst rid. rewrite Hfound in Hfind. injection Hfind as <-.
      contradiction (Hbad pickup_obj Hparse).
    + apply String.eqb_neq in Eid. rewrite (find_one_other_pickup _ _ _ _ Eid).
      exists doc. split; assumption.
Qed.

(** X20: an update whose body provides [payment_status: null], and passes the
    status check, stores None and is answered with a ValidationError; from
    then on, whatever requests follow, reading the request, updating it and
    assigning a driver to it are all answered with that ValidationError and
    write nothing: the request can no longer move through the lifecycle. *)
Theorem null_payment_status_blocks_request
    (math : Math) (cfg : Settings) (auth : Auth)
    (request_id : string) (update : PickupRequestUpdate.t) (admin : AdminUser.t)
    (t_status t_price t_updated : datetime) (db : DB)
    (existing : PickupDoc) (pickup : PickupRequest.t)
    (status_part : option PickupStatus.t * option (list StatusHistoryEntry.t)) :
  find_one (pickup_id_is request_id) (pickup_requests db) = Some existing ->
  PickupRequest.parse existing = Ok pickup ->
  validate_status_transition pickup update admin t_status = Ok status_part ->
  PickupRequestUpdate.payment_status update = Provided None ->
  let outcome := update_pickup_request request_id update admin t_status t_price t_updated db in
  fst outcome = Raise (ValidationError "PickupRequest")
  /\ forall reqs,
       let db' := run math cfg auth reqs (snd outcome) in
       get_pickup_request request_id db' = (Raise (ValidationError "PickupRequest"), db')
       /\ (forall update' admin' t_status' t_price' t_updated',
             update_pickup_request request_id update' admin' t_status' t_price' t_updated' db'
             = (Raise (ValidationError "PickupRequest"), db'))
       /\ (forall driver_id admin' t_entry' t_updated',
             assign_driver request_id driver_id admin' t_entry' t_updated' db'
             = (Raise (ValidationError "PickupRequest"), db')).
Proof.
  intros Hfind Hparse Hv Hnull. cbv zeta.
  rewrite update_pickup_request_paths, Hfind, Hparse, Hv. cbn [fst snd].
  assert (Hstored : Pickup.payment_status
                      (PickupSet.apply
                         (update_set pickup update admin t_price t_updated status_part)
                         existing) = None).
  { simpl. rewrite Hnull. reflexivity. }
  split.
  - unfold PickupRequest.parse. rewrite Hstored. reflexivity.
  - intros reqs.
    set (db' := run math cfg auth reqs _).
    assert (Hinv : exists doc,
               find_one (pickup_id_is request_id) (pickup_requests db') = Some doc
               /\ Pickup.payment_status doc = None).
    { subst db'.
      apply (run_invariant_all math cfg auth
               (fun db =>
                  exists doc,
                    find_one (pickup_id_is request_id) (pickup_requests db) = Some doc
                    /\ Pickup.payment_status doc = None)).
      - intros db0 c db1 Hcall. exact (call_effect_unparseable db0 db1 c request_id Hcall).
      - eexists. rewrite find_one_with_pickup_set, Hfind. simpl.
        split; [reflexivity | exact Hstored]. }
    destruct Hinv as (doc & Hdoc & Hnone).
    assert (Hbad : PickupRequest.parse doc = Raise (ValidationError "PickupRequest")).
    { unfold PickupRequest.parse. rewrite Hnone. reflexivity. }
    split; [|split].
    + rewrite get_pickup_request_paths, Hdoc, Hbad. reflexivity.
    + intros update' admin' t_status' t_price' t_updated'.
      rewrite update_pickup_request_paths, Hdoc, Hbad. reflexivity.
    + intros driver_id admin' t_entry' t_updated'.
      rewrite assign_driver_paths, Hdoc, Hbad. reflexivity.
Qed.

(** ** The properties at concrete inputs *)

Local Close Scope float_scope.
Local Open Scope Z_scope.

(** Pending to Completed skips two stages: InvalidTransition, nothing written. *)
Lemma update_status_transition_witness :
  update_pickup_request "p1" (status_update PickupStatus.COMPLETED) sample_admin 30 31 32
    db_pending
  = (Raise (InvalidTransition PickupStatus.PENDING PickupStatus.COMPLETED), db_pending).
Proof.
  exact (proj1 (proj2 (update_status_transition "p1" (status_update PickupStatus.COMPLETED)
                         sample_admin 30 31 32 db_pending PickupStatus.COMPLETED eq_refl))
           (stored_pickup "p1" PickupStatus.PENDING [pending_entry] None [])
           (Pickup.with_payment_status PaymentStatus.PENDING
              (stored_pickup "p1" PickupStatus.PENDING [pending_entry] None []))
           eq_refl eq_refl eq_refl).
Defined.

(** The two locations of the test suite, evaluated with the reference
    instance (a fact about it): the one outside the service area is 38.72 km
    from the hub (OutOfServiceArea, nothing persisted, and success and "at
    most the radius" are both false); the one inside is 0.57 km from the hub
    and is stored with that distance. *)
Lemma create_service_area_witness :
  create_pickup_request RefMath.math default_settings "p9" 70 71 72 invalid_body empty_db
  = (Raise OutOfServiceArea, empty_db)
  /\ (is_ok (fst (create_pickup_request RefMath.math default_settings "p9" 70 71 72
                    invalid_body empty_db)) = true
      <-> (0x1.35c996c4e26eep+5 <=? 20)%float = true)
  /\ exists pickup,
       create_pickup_request RefMath.math default_settings "p2" 70 71 72 valid_body empty_db
       = (Ok pickup, with_new_pickup pickup empty_db)
       /\ Pickup.distance_km pickup = 0.57%float.
Proof.
  split; [|split].
  - exact (proj1 (proj2 (create_service_area RefMath.math default_settings "p9" 70 71 72
                           invalid_body empty_db 0x1.35c996c4e26eep+5%float eq_refl))
             eq_refl).
  - exact (proj1 (proj2 (proj2 (create_service_area RefMath.math default_settings
                                  "p9" 70 71 72 invalid_body empty_db
                                  0x1.35c996c4e26eep+5%float eq_refl)))
             eq_refl eq_refl).
  - destruct (proj1 (create_service_area RefMath.math default_settings "p2" 70 71 72
                       valid_body empty_db 0x1.2278d2e798b8dp-1%float eq_refl) eq_refl)
      as (pickup & Hrun & Hdist & _).
    exists pickup. split; [exact Hrun | exact Hdist].
Defined.

(** A pickup at the hub, Medium and Plastic, with no Authorization header and
    an [Auth] that refuses everyone: Pending, 75.0, distance 0, one entry. *)
Lemma create_constructs_pending_request_witness :
  exists pickup,
    serve RefMath.math default_settings deny_all
      (request_of None "p1" 10 (POST_pickup_requests hub_body)) empty_db
    = (Ok (PickupResponse pickup), with_new_pickup pickup empty_db)
    /\ Pickup.status pickup = PickupStatus.PENDING
    /\ Pickup.estimated_cost pickup = 75%float
    /\ Pickup.distance_km pickup = 0%float
    /\ Pickup.status_history pickup = [StatusHistoryEntry.mk "Pending" 10 "user"].
Proof.
  destruct (create_constructs_pending_request RefMath.math default_settings deny_all None
              "p1" (fun k => (10 + Z.of_nat k)%Z) hub_body empty_db 0%float
              eq_refl eq_refl eq_refl)
    as (pickup & _ & Hstatus & Hcost & Hdist & Hhist & Hserve).
  exists pickup.
  split; [exact Hserve|]. split; [exact Hstatus|]. split; [exact Hcost|].
  split; [exact Hdist | exact Hhist].
Defined.

(** Clearing an actual cost of 120: the stored cost becomes null and the price
    history keeps its one entry of 120. *)
Lemma update_null_actual_cost_witness :
  cleared = (Ok cleared_pickup, snd cleared)
  /\ exists existing,
       find_one (pickup_id_is "p1") (pickup_requests db_priced) = Some existing
       /\ Pickup.actual_cost existing = Some 120%float
       /\ Pickup.price_history existing = [PriceHistoryEntry.mk 120%float 150%Z "admin"]
       /\ find_one (pickup_id_is "p1") (pickup_requests (snd cleared))
          = Some (PickupRequest.dict cleared_pickup)
       /\ Pickup.actual_cost cleared_pickup = None
       /\ Pickup.price_history cleared_pickup = Pickup.price_history existing.
Proof.
  split; [reflexivity|].
  destruct (update_null_actual_cost "p1" clear_actual_cost sample_admin 30 31 32
              db_priced (snd cleared) cleared_pickup eq_refl)
    as (existing & Hfind & Hstored & Hcost & Hhist).
  exists existing. split; [exact Hfind|].
  assert (Hex : existing = stored_pickup "p1" PickupStatus.PENDING [pending_entry] (Some 120%float)
                             [PriceHistoryEntry.mk 120%float 150%Z "admin"]).
  { simpl in Hfind. injection Hfind as <-. reflexivity. }
  split; [rewrite Hex; reflexivity|]. split; [rewrite Hex; reflexivity|].
  split; [exact Hstored|]. split; [exact Hcost | exact Hhist].
Defined.

(** C3 as stated fails here: the driver id is absent, the request is Pending,
    and assign_driver fails with InvalidState, not with NotFound. *)
Lemma assign_driver_absent_driver_counterexample :
  find_one (driver_id_is "d1") (drivers db_pending) = None
  /\ assign_driver "p1" "d1" sample_admin 40 41 db_pending
     = (Raise (HTTPException 400 "Can only assign driver to approved requests"), db_pending)
  /\ (forall detail,
        fst (assign_driver "p1" "d1" sample_admin 40 41 db_pending)
        <> Raise (HTTPException 404 detail)).
Proof.
  split; [reflexivity|]. split; [reflexivity|].
  intros detail H. discriminate H.
Qed.

(** C6 as stated fails here: the pickup id is unknown, the score is 9, and
    rating creation fails with ValidationError, not with NotFound. *)
Lemma rating_unknown_pickup_counterexample :
  find_one (pickup_id_is "missing") (pickup_requests empty_db) = None
  /\ serve RefMath.math default_settings deny_all
       (request_of None "r1" 60 (POST_ratings (RatingCreate.mk "missing" 9 None))) empty_db
     = (Raise (RequestValidationError "rating"), empty_db)
  /\ (forall detail,
        fst (serve RefMath.math default_settings deny_all
               (request_of None "r1" 60 (POST_ratings (RatingCreate.mk "missing" 9 None)))
               empty_db)
        <> Raise (HTTPException 404 detail)).
Proof.
  split; [reflexivity|]. split; [reflexivity|].
  intros detail H. discriminate H.
Qed.

(** The workflow create, approve, assign, complete, rate runs to the end: the
    request is Completed with four history entries, the driver is Busy, and
    there is one rating. *)
Example full_workflow_runs :
  let db := run RefMath.math default_settings one_token full_workflow empty_db in
  map (@Pickup.status _) (pickup_requests db) = [PickupStatus.COMPLETED]
  /\ map (fun doc => map StatusHistoryEntry.status (Pickup.status_history doc))
       (pickup_requests db)
     = [["Pending"; "Approved"; "Assigned"; "Completed"]]
  /\ map (@Pickup.driver_id _) (pickup_requests db) = [Some "d1"]
  /\ map Driver.status (drivers db) = [DriverStatus.BUSY]
  /\ map Rating.pickup_id (ratings db) = ["p1"].
Proof. vm_compute. repeat split. Qed.

(** A second rating of the same pickup, and a second assignment of the same
    driver, are refused. *)
Example second_rating_conflicts :
  let db := run RefMath.math default_settings one_token full_workflow empty_db in
  post_ratings "r2" 70 (RatingCreate.mk "p1" 4 None) db = (Raise Conflict, db).
Proof. vm_compute. reflexivity. Qed.

Example busy_driver_unavailable :
  let db := run RefMath.math default_settings one_token
              (full_workflow
                 ++ [request_of None "p2" 70 (POST_pickup_requests valid_body);
                     request_of (Some "admin-token") "" 80
                       (PUT_pickup_request "p2" (status_update PickupStatus.APPROVED))])
              empty_db in
  assign_driver "p2" "d1" sample_admin 90 91 db = (Raise DriverUnavailable, db).
Proof. vm_compute. reflexivity. Qed.

(** Without a token that verifies, update is refused and writes nothing. *)
Example update_without_token :
  serve RefMath.math default_settings one_token
    (request_of (Some "guess") "" 30
       (PUT_pickup_request "p1" (status_update PickupStatus.APPROVED))) db_pending
  = (Raise (HTTPException 401 "Invalid or expired token"), db_pending).
Proof. reflexivity. Qed.

(** A body with [payment_status: null] passes the checks of update, is written
    whole, and the response model then refuses the stored document. *)
Example update_null_payment_status :
  let update :=
    {| PickupRequestUpdate.status := Unset;
       PickupRequestUpdate.actual_cost := Unset;
       PickupRequestUpdate.notes := Unset;
       PickupRequestUpdate.payment_status := Provided None |} in
  let outcome := update_pickup_request "p1" update sample_admin 30 31 32 db_pending in
  fst outcome = Raise (ValidationError "PickupRequest")
  /\ map (@Pickup.payment_status _) (pickup_requests (snd outcome)) = [None]
  /\ map (@Pickup.updated_at _) (pickup_requests (snd outcome)) = [32%Z].
Proof. vm_compute. repeat split. Qed.

(** ** The routes as a whole, at concrete inputs *)

(** The full workflow on a database that already holds a Pending request
    under "p1": the stored request is still at position 0, with the fields
    create gave it. *)
Lemma creation_fields_never_change_witness :
  exists doc',
    nth_error
      (pickup_requests (run RefMath.math default_settings one_token full_workflow db_pending))
      0%nat = Some doc'
    /\ same_creation_fields
         (stored_pickup "p1" PickupStatus.PENDING [pending_entry] None []) doc'.
Proof.
  exact (creation_fields_never_change RefMath.math default_settings one_token full_workflow
           db_pending 0%nat (stored_pickup "p1" PickupStatus.PENDING [pending_entry] None [])
           eq_refl).
Defined.

(** The full workflow on a database whose request "p1" is Completed: approve,
    assign and complete are all refused, the request is as it was. *)
Lemma completed_is_terminal_witness :
  exists doc',
    nth_error
      (pickup_requests (run RefMath.math default_settings one_token full_workflow db_completed))
      0%nat = Some doc'
    /\ Pickup.status doc' = PickupStatus.COMPLETED
    /\ Pickup.status_history doc' = Pickup.status_history (completed_pickup "p1")
    /\ Pickup.driver_id doc' = Pickup.driver_id (completed_pickup "p1").
Proof.
  exact (completed_is_terminal RefMath.math default_settings one_token full_workflow
           db_completed 0%nat (completed_pickup "p1") eq_refl eq_refl).
Defined.

(** The full workflow sets no driver status by hand: its one driver is Busy
    and serves its one request. *)
Lemma driver_serves_one_request_witness :
  Forall (fun doc =>
            forall d, Pickup.driver_id doc = Some d ->
            exists driver,
              find_one (driver_id_is d)
                (drivers (run RefMath.math default_settings one_token full_workflow empty_db))
              = Some driver
              /\ Driver.status driver = DriverStatus.BUSY)
    (pickup_requests (run RefMath.math default_settings one_token full_workflow empty_db))
  /\ (forall i j doc_i doc_j d,
        nth_error
          (pickup_requests (run RefMath.math default_settings one_token full_workflow empty_db))
          i = Some doc_i ->
        nth_error
          (pickup_requests (run RefMath.math default_settings one_token full_workflow empty_db))
          j = Some doc_j ->
        Pickup.driver_id doc_i = Some d -> Pickup.driver_id doc_j = Some d -> i = j).
Proof.
  exact (driver_serves_one_request RefMath.math default_settings one_token full_workflow
           eq_refl).
Defined.

(** The driver of "p1" is set to Available and assigned to "p2": both
    requests now reference "d1". *)
Lemma status_reset_allows_second_assignment_witness :
  fst (update_driver_status "d1" DriverStatus.AVAILABLE sample_admin db_two_requests)
  = Ok (Driver.with_status DriverStatus.AVAILABLE busy_driver)
  /\ (exists updated,
         fst (assign_driver "p2" "d1" sample_admin 160 161
                (snd (update_driver_status "d1" DriverStatus.AVAILABLE sample_admin
                        db_two_requests)))
         = Ok updated
         /\ Pickup.status updated = PickupStatus.ASSIGNED
         /\ Pickup.driver_id updated = Some "d1"
         /\ find_one (pickup_id_is "p2")
              (pickup_requests
                 (snd (assign_driver "p2" "d1" sample_admin 160 161
                         (snd (update_driver_status "d1" DriverStatus.AVAILABLE sample_admin
                                 db_two_requests)))))
            = Some (PickupRequest.dict updated))
  /\ find_one (pickup_id_is "p1")
       (pickup_requests
          (snd (assign_driver "p2" "d1" sample_admin 160 161
                  (snd (update_driver_status "d1" DriverStatus.AVAILABLE sample_admin
                          db_two_requests)))))
     = Some (assigned_pickup "p1" "d1").
Proof.
  refine (status_reset_allows_second_assignment "p1" "p2" "d1" sample_admin 160 161
            db_two_requests (assigned_pickup "p1" "d1") (approved_pickup "p2")
            (Pickup.with_payment_status PaymentStatus.PENDING (approved_pickup "p2"))
            busy_driver eq_refl eq_refl eq_refl eq_refl eq_refl eq_refl _).
  intros H. discriminate H.
Defined.

(** The same through the routes: after the sequence both stored requests
    reference "d1", against what holds without the manual status change. *)
Example double_assignment_runs :
  let db := run RefMath.math default_settings one_token double_assignment empty_db in
  map (@Pickup.driver_id _) (pickup_requests db) = [Some "d1"; Some "d1"]
  /\ map (@Pickup.status _) (pickup_requests db)
     = [PickupStatus.ASSIGNED; PickupStatus.ASSIGNED]
  /\ map Driver.status (drivers db) = [DriverStatus.BUSY].
Proof. vm_compute. repeat split. Qed.

(** Pending to Completed is refused with an HTTPException: nothing written. *)
Lemma failed_requests_write_nothing_witness :
  snd (respond RefMath.math default_settings one_token
         (request_of (Some "admin-token") "" 30
            (PUT_pickup_request "p1" (status_update PickupStatus.COMPLETED))) db_pending)
  = db_pending
  \/ (InvalidTransition PickupStatus.PENDING PickupStatus.COMPLETED
      = ValidationError "PickupRequest"
      /\ exists request_id update,
           PUT_pickup_request "p1" (status_update PickupStatus.COMPLETED)
           = PUT_pickup_request request_id update
           /\ PickupRequestUpdate.payment_status update = Provided None)
  \/ (InvalidTransition PickupStatus.PENDING PickupStatus.COMPLETED
      = ValueError "Out of range float values are not JSON compliant"
      /\ exists response,
           serve RefMath.math default_settings one_token
             (request_of (Some "admin-token") "" 30
                (PUT_pickup_request "p1" (status_update PickupStatus.COMPLETED))) db_pending
           = (Ok response,
              snd (respond RefMath.math default_settings one_token
                     (request_of (Some "admin-token") "" 30
                        (PUT_pickup_request "p1" (status_update PickupStatus.COMPLETED)))
                     db_pending))
           /\ json_compliant response = false).
Proof.
  exact (failed_requests_write_nothing RefMath.math default_settings one_token
           (request_of (Some "admin-token") "" 30
              (PUT_pickup_request "p1" (status_update PickupStatus.COMPLETED)))
           db_pending (InvalidTransition PickupStatus.PENDING PickupStatus.COMPLETED)
           eq_refl).
Defined.

(** The two requests that are answered with an exception after a write: the
    update that provides [payment_status: null], and an update that sets the
    actual cost to infinity, which the handler returns and the rendering
    refuses. *)
Example answered_with_an_exception_after_a_write :
  fst (respond RefMath.math default_settings one_token
         (request_of (Some "admin-token") "" 30 (PUT_pickup_request "p1" null_payment_status))
         db_pending)
  = Raise (ValidationError "PickupRequest")
  /\ map (@Pickup.payment_status _)
       (pickup_requests
          (snd (respond RefMath.math default_settings one_token
                  (request_of (Some "admin-token") "" 30
                     (PUT_pickup_request "p1" null_payment_status)) db_pending)))
     = [None]
  /\ fst (respond RefMath.math default_settings one_token
            (request_of (Some "admin-token") "" 30 (PUT_pickup_request "p1" infinite_cost))
            db_pending)
     = Raise (ValueError "Out of range float values are not JSON compliant")
  /\ map (@Pickup.actual_cost _)
       (pickup_requests
          (snd (respond RefMath.math default_settings one_token
                  (request_of (Some "admin-token") "" 30
                     (PUT_pickup_request "p1" infinite_cost)) db_pending)))
     = [Some infinity].
Proof. vm_compute. repeat split. Qed.

(** [payment_status: null] on the Pending request "p1": the update is
    answered with the ValidationError, and so is every later read, update and
    assignment of "p1". *)
Lemma null_payment_status_blocks_request_witness :
  fst (update_pickup_request "p1" null_payment_status sample_admin 30 31 32 db_pending)
  = Raise (ValidationError "PickupRequest")
  /\ forall reqs,
       get_pickup_request "p1"
         (run RefMath.math default_settings one_token reqs
            (snd (update_pickup_request "p1" null_payment_status sample_admin 30 31 32
                    db_pending)))
       = (Raise (ValidationError "PickupRequest"),
          run RefMath.math default_settings one_token reqs
            (snd (update_pickup_request "p1" null_payment_status sample_admin 30 31 32
                    db_pending)))
       /\ (forall update' admin' t_status' t_price' t_updated',
             update_pickup_request "p1" update' admin' t_status' t_price' t_updated'
               (run RefMath.math default_settings one_token reqs
                  (snd (update_pickup_request "p1" null_payment_status sample_admin 30 31 32
                          db_pending)))
             = (Raise (ValidationError "PickupRequest"),
                run RefMath.math default_settings one_token reqs
                  (snd (update_pickup_request "p1" null_payment_status sample_admin 30 31 32
                          db_pending))))
       /\ (forall driver_id admin' t_entry' t_updated',
             assign_driver "p1" driver_id admin' t_entry' t_updated'
               (run RefMath.math default_settings one_token reqs
                  (snd (update_pickup_request "p1" null_payment_status sample_admin 30 31 32
                          db_pending)))
             = (Raise (ValidationError "PickupRequest"),
                run RefMath.math default_settings one_token reqs
                  (snd (update_pickup_request "p1" null_payment_status sample_admin 30 31 32
                          db_pending)))).
Proof.
  exact (null_payment_status_blocks_request RefMath.math default_settings one_token
           "p1" null_payment_status sample_admin 30 31 32 db_pending
           (stored_pickup "p1" PickupStatus.PENDING [pending_entry] None [])
           (Pickup.with_payment_status PaymentStatus.PENDING
              (stored_pickup "p1" PickupStatus.PENDING [pending_entry] None []))
           (None, None) eq_refl eq_refl eq_refl eq_refl).
Defined.

(** The read routes after the full workflow: one Completed request in the
    statistics, the Busy driver under the filter Busy and none under
    Available, the rating of "p1", and 404 for a request that was never
    created. *)
Example read_routes_after_workflow :
  let db := run RefMath.math default_settings one_token full_workflow empty_db in
  fst (get_stats db) = Ok (Stats.mk 0 0 0 1 1)
  /\ option_map (map Driver.id)
       (match fst (get_drivers (Some DriverStatus.BUSY) db) with
        | Ok found => Some found
        | Raise _ => None
        end) = Some ["d1"]
  /\ fst (get_drivers (Some DriverStatus.AVAILABLE) db) = Ok []
  /\ fst (get_rating "p1" db) = Ok (Rating.mk "r1" "p1" 5 (Some "Excellent service!") 60)
  /\ fst (get_pickup_request "p9" db) = Raise NotFound_pickup.
Proof. vm_compute. repeat split. Qed.

(** The cost preview at the two locations of the test suite, evaluated with
    the reference instance (a fact about it): outside the service area, and
    0.57 km from the hub. *)
Example preview_of_test_locations :
  fst (calculate_cost_preview RefMath.math default_settings 26.50%float 88.10%float
         Quantity.MEDIUM WasteType.PLASTIC empty_db)
  = Ok (OutsideServiceArea "Currently we serve Siliguri city limits only.")
  /\ match fst (calculate_cost_preview RefMath.math default_settings 26.73%float 88.40%float
                  Quantity.MEDIUM WasteType.PLASTIC empty_db) with
     | Ok (InServiceArea distance_km _) => distance_km = 0.57%float
     | _ => False
     end.
Proof. vm_compute. split; reflexivity. Qed.

(** Approved to Assigned through update, then Completed: the request never
    has a driver, and assigning one afterwards is refused. *)
Example assigned_without_driver :
  let db := run RefMath.math default_settings one_token
              [request_of None "p1" 10 (POST_pickup_requests hub_body);
               request_of (Some "admin-token") "d1" 20 (POST_drivers driver_body);
               request_of (Some "admin-token") "" 30
                 (PUT_pickup_request "p1" (status_update PickupStatus.APPROVED));
               request_of (Some "admin-token") "" 40
                 (PUT_pickup_request "p1" (status_update PickupStatus.ASSIGNED));
               request_of (Some "admin-token") "" 50 (POST_assign_driver "p1" "d1");
               request_of (Some "admin-token") "" 60
                 (PUT_pickup_request "p1" (status_update PickupStatus.COMPLETED))]
              empty_db in
  map (@Pickup.status _) (pickup_requests db) = [PickupStatus.COMPLETED]
  /\ map (@Pickup.driver_id _) (pickup_requests db) = [None]
  /\ map Driver.status (drivers db) = [DriverStatus.AVAILABLE].
Proof. vm_compute. repeat split. Qed.

(** ** Where the code leaves the specification, at concrete inputs *)

(** C1: a request is created and an update provides [payment_status: null];
    the stored request is Pending and no longer loads.  An update that asks
    for Completed, a skipped edge, is then answered with the ValidationError
    of the model and not with InvalidTransition; nothing is written. *)
Theorem skipped_edge_on_unloadable_request :
  let db := run RefMath.math default_settings one_token unloadable_request empty_db in
  map (@Pickup.status _) (pickup_requests db) = [PickupStatus.PENDING]
  /\ map (@Pickup.payment_status _) (pickup_requests db) = [None]
  /\ spec_allowed_edge PickupStatus.PENDING PickupStatus.COMPLETED = false
  /\ serve RefMath.math default_settings one_token
       (request_of (Some "admin-token") "" 50
          (PUT_pickup_request "p1" (status_update PickupStatus.COMPLETED))) db
     = (Raise (ValidationError "PickupRequest"), db)
  /\ ValidationError "PickupRequest"
     <> InvalidTransition PickupStatus.PENDING PickupStatus.COMPLETED.
Proof.
  cbv zeta. split; [vm_compute; reflexivity|]. split; [vm_compute; reflexivity|].
  split; [reflexivity|]. split; [vm_compute; reflexivity|].
  intros H. discriminate H.
Qed.

(** C8: on a Pending request, the body that approves, sets the actual cost to
    99 and provides [payment_status: null] passes the checks of update and is
    written whole; the reload then raises the ValidationError.  The call has
    failed, and the stored request has the new status, one more entry in each
    history and the new cost. *)
Theorem update_writes_before_it_fails :
  let outcome :=
    serve RefMath.math default_settings one_token
      (request_of (Some "admin-token") "" 30 (PUT_pickup_request "p1" partial_write))
      db_pending in
  fst outcome = Raise (ValidationError "PickupRequest")
  /\ map (@Pickup.status _) (pickup_requests db_pending) = [PickupStatus.PENDING]
  /\ map (@Pickup.status _) (pickup_requests (snd outcome)) = [PickupStatus.APPROVED]
  /\ map (fun doc => map StatusHistoryEntry.status (Pickup.status_history doc))
       (pickup_requests (snd outcome))
     = [["Pending"; "Approved"]]
  /\ map (@Pickup.actual_cost _) (pickup_requests (snd outcome)) = [Some 99%float]
  /\ map (@Pickup.price_history _) (pickup_requests (snd outcome))
     = [[PriceHistoryEntry.mk 99%float 31 "admin"]]
  /\ map (@Pickup.payment_status _) (pickup_requests (snd outcome)) = [None]
  /\ snd outcome <> db_pending.
Proof.
  cbv zeta. repeat (split; [vm_compute; reflexivity|]).
  intros H. apply (f_equal (fun db => map (@Pickup.status _) (pickup_requests db))) in H.
  vm_compute in H. discriminate H.
Qed.

(** C4: a location whose latitude is NaN.  Every step of the distance is an
    IEEE operation on NaN, so the distance is NaN for the reference instance
    as for the [math] module; NaN is not at most the radius, yet the test
    [distance_km > SERVICE_RADIUS_KM] is false too: create does not refuse
    the request, it stores it with the distance NaN.  The handler returns the
    request, and the rendering of the response then raises: the client is
    answered with an exception and the request is in the database. *)
Theorem create_stores_nan_location :
  let created :=
    create_pickup_request RefMath.math default_settings "p1" 10 11 12 nan_body empty_db in
  let answer :=
    respond RefMath.math default_settings one_token
      (request_of None "p1" 10 (POST_pickup_requests nan_body)) empty_db in
  haversine_distance RefMath.math
    (SERVICE_CENTER_LAT default_settings) (SERVICE_CENTER_LNG default_settings)
    nan 88.3953%float = Ok nan
  /\ PrimFloat.leb nan (SERVICE_RADIUS_KM default_settings) = false
  /\ is_ok (fst created) = true
  /\ map (fun doc => is_nan (Pickup.distance_km doc)) (pickup_requests (snd created)) = [true]
  /\ fst answer = Raise (ValueError "Out of range float values are not JSON compliant")
  /\ map (@Pickup.id _) (pickup_requests (snd answer)) = ["p1"].
Proof.
  cbv zeta. repeat split; vm_compute; reflexivity.
Qed.

(** C9: two Approved requests and one Available driver.  Served one after the
    other, the second call is refused; served so that both calls read before
    either writes, both succeed, and the driver is referenced by two requests
    that are both Assigned. *)
Lemma assign_driver_interleaving_witness :
  (forall db0,
      run_task (assign_driver_task "p1" "d1" sample_admin 160 161) db0
      = assign_driver "p1" "d1" sample_admin 160 161 db0
      /\ run_task (assign_driver_task "p2" "d1" sample_admin 170 171) db0
         = assign_driver "p2" "d1" sample_admin 170 171 db0)
  /\ (exists updated1,
         interleave one_after_the_other
           (assign_driver_task "p1" "d1" sample_admin 160 161)
           (assign_driver_task "p2" "d1" sample_admin 170 171) db_two_approved
         = (Return updated1, Fail DriverUnavailable,
            snd (assign_driver "p1" "d1" sample_admin 160 161 db_two_approved))
         /\ fst (assign_driver "p1" "d1" sample_admin 160 161 db_two_approved) = Ok updated1
         /\ find_one (pickup_id_is "p2")
              (pickup_requests (snd (assign_driver "p1" "d1" sample_admin 160 161
                                       db_two_approved)))
            = Some (approved_pickup "p2"))
  /\ snd (interleave [First; First; Second; Second]
            (assign_driver_task "p1" "d1" sample_admin 160 161)
            (assign_driver_task "p2" "d1" sample_admin 170 171) db_two_approved)
     = db_two_approved
  /\ (exists updated1 updated2 db',
         interleave both_read_first
           (assign_driver_task "p1" "d1" sample_admin 160 161)
           (assign_driver_task "p2" "d1" sample_admin 170 171) db_two_approved
         = (Return updated1, Return updated2, db')
         /\ Pickup.status updated1 = PickupStatus.ASSIGNED
         /\ Pickup.driver_id updated1 = Some "d1"
         /\ Pickup.status updated2 = PickupStatus.ASSIGNED
         /\ Pickup.driver_id updated2 = Some "d1"
         /\ find_one (pickup_id_is "p1") (pickup_requests db')
            = Some (PickupRequest.dict updated1)
         /\ find_one (pickup_id_is "p2") (pickup_requests db')
            = Some (PickupRequest.dict updated2)
         /\ exists driver',
              find_one (driver_id_is "d1") (drivers db') = Some driver'
              /\ Driver.status driver' = DriverStatus.BUSY).
Proof.
  refine (assign_driver_interleaving "p1" "p2" "d1" sample_admin sample_admin 160 161 170 171
            db_two_approved (approved_pickup "p1") (approved_pickup "p2")
            (Pickup.with_payment_status PaymentStatus.PENDING (approved_pickup "p1"))
            (Pickup.with_payment_status PaymentStatus.PENDING (approved_pickup "p2"))
            available_driver _ eq_refl eq_refl eq_refl eq_refl eq_refl eq_refl eq_refl eq_refl).
  intros H. discriminate H.
Defined.

Lemma concurrent_assignments_counterexample :
  option_map is_ok
    (task_result
       (fst (fst (interleave both_read_first
                    (assign_driver_task "p1" "d1" sample_admin 160 161)
                    (assign_driver_task "p2" "d1" sample_admin 170 171) db_two_approved))))
  = Some true
  /\ option_map is_ok
       (task_result
          (snd (fst (interleave both_read_first
                       (assign_driver_task "p1" "d1" sample_admin 160 161)
                       (assign_driver_task "p2" "d1" sample_admin 170 171) db_two_approved))))
     = Some true
  /\ map Driver.status (drivers db_two_approved) = [DriverStatus.AVAILABLE]
  /\ map (fun doc => (Pickup.id doc, Pickup.status doc, Pickup.driver_id doc))
       (pickup_requests
          (snd (interleave both_read_first
                  (assign_driver_task "p1" "d1" sample_admin 160 161)
                  (assign_driver_task "p2" "d1" sample_admin 170 171) db_two_approved)))
     = [("p1", PickupStatus.ASSIGNED, Some "d1"); ("p2", PickupStatus.ASSIGNED, Some "d1")]
  /\ map (fun d => (Driver.id d, Driver.status d))
       (drivers
          (snd (interleave both_read_first
                  (assign_driver_task "p1" "d1" sample_admin 160 161)
                  (assign_driver_task "p2" "d1" sample_admin 170 171) db_two_approved)))
     = [("d1", DriverStatus.BUSY)].
Proof. vm_compute. repeat split. Qed.
